(** * Catering quotations app: order form and history screen

    A shallow embedding of the two screens of the application
    (app/(tabs)/index.tsx, the order form, and app/(tabs)/history.tsx, the
    history browser) together with the parts of the JavaScript runtime they
    call, and the properties of the specification proved about them.

    Conventions of the model.
    - A JavaScript string is a [string]; the text functions are exact for
      ASCII text (code units below 128); a code unit above 127 is treated as
      an ordinary character, neither white space nor a letter.
    - A JavaScript number that the code only uses as an integer is a [Z] or
      an [N]; the result of [Number(s)] is a [JSNumber].
    - A [Date] is its time value in milliseconds since the epoch (UTC), or
      invalid; the local time zone is a fixed offset [tz] in milliseconds.
      [Zoned] gives the date functions for a zone that changes its clock;
      the round trip of the date text is stated there.
      The clock is read once for a whole run of the history load.
    - AsyncStorage and the file system are an explicit [World]; each
      asynchronous step may fail, as decided by a fault oracle.
    - Other applications (opening a link, sharing a file) answer as [Apps]
      says; what the screen hands to them is logged. An effect of a screen
      is modelled run to its end, one at a time. *)

From Stdlib Require Import ZArith NArith Ascii String List Bool Lia.
From Stdlib Require Import Decimal DecimalString DecimalN DecimalZ.
From Stdlib Require Import Permutation Sorted.
From stdpp Require Import base gmap strings list.

Local Open Scope Z_scope.

(** ** JavaScript text primitives *)

Module JS.

Definition code (c : ascii) : Z := Z.of_N (N_of_ascii c).

Definition isDigit (c : ascii) : bool := (48 <=? code c) && (code c <=? 57).

Definition digitVal (c : ascii) : Z := code c - 48.

(** [\s] and the white space trimmed by [Number] and [trim], on ASCII:
    TAB, LF, VT, FF, CR and SPACE. *)
Definition isSpace (c : ascii) : bool :=
  ((9 <=? code c) && (code c <=? 13)) || (code c =? 32).

Definition upperChar (c : ascii) : ascii :=
  if (97 <=? code c) && (code c <=? 122)
  then ascii_of_N (Z.to_N (code c - 32)) else c.

(** [s.toUpperCase()] *)
Fixpoint toUpperCase (s : string) : string :=
  match s with
  | EmptyString => EmptyString
  | String c s' => String (upperChar c) (toUpperCase s')
  end.

(** [s.replace(/\s+/g, '')]: every run of white space is deleted. *)
Fixpoint removeSpaces (s : string) : string :=
  match s with
  | EmptyString => EmptyString
  | String c s' =>
      if isSpace c then removeSpaces s' else String c (removeSpaces s')
  end.

(** [s.trim()] *)
Fixpoint trimStart (s : string) : string :=
  match s with
  | String c s' => if isSpace c then trimStart s' else s
  | EmptyString => EmptyString
  end.

Fixpoint trimEnd (s : string) : string :=
  match s with
  | EmptyString => EmptyString
  | String c s' =>
      match trimEnd s' with
      | EmptyString => if isSpace c then EmptyString else String c EmptyString
      | t => String c t
      end
  end.

Definition trim (s : string) : string := trimEnd (trimStart s).

(** A string is truthy when it is not empty. *)
Definition truthy (s : string) : bool :=
  match s with EmptyString => false | _ => true end.

Definition StringZ (z : Z) : string := NilZero.string_of_int (Z.to_int z).

Fixpoint repeatChar (c : ascii) (n : nat) : string :=
  match n with
  | O => EmptyString
  | S k => String c (repeatChar c k)
  end.

(** [s.padStart(w, c)] for a one-character filler. *)
Definition padStart (w : nat) (c : ascii) (s : string) : string :=
  repeatChar c (w - String.length s) +:+ s.

(** [s.startsWith(p)] *)
Definition startsWith (p s : string) : bool := String.prefix p s.

(** [s.split(sep)] for a non-empty separator: [split_go] walks the string;
    [skip] counts the characters of a separator just found that are still to
    be passed over. *)
Fixpoint split_go (sep : string) (skip : nat) (s : string) : list string :=
  match s with
  | EmptyString => [EmptyString]
  | String c s' =>
      match skip with
      | S k => split_go sep k s'
      | O =>
          if String.prefix sep s
          then EmptyString :: split_go sep (String.length sep - 1) s'
          else match split_go sep 0 s' with
               | p :: ps => String c p :: ps
               | [] => [String c EmptyString]
               end
      end
  end.

Definition split (sep s : string) : list string := split_go sep 0 s.

(** The longest prefix of characters satisfying [p], and the rest. *)
Fixpoint span (p : ascii -> bool) (s : string) : string * string :=
  match s with
  | EmptyString => (EmptyString, EmptyString)
  | String c s' =>
      if p c then let '(a, b) := span p s' in (String c a, b)
      else (EmptyString, s)
  end.

(** The value of a run of digits in base [b], most significant first. *)
Definition digitOf (b : Z) (c : ascii) : option Z :=
  let k := code c in
  let v := if (48 <=? k) && (k <=? 57) then k - 48
           else if (97 <=? k) && (k <=? 122) then k - 87
           else if (65 <=? k) && (k <=? 90) then k - 55
           else 99 in
  if v <? b then Some v else None.

Definition isDigitOf (b : Z) (c : ascii) : bool :=
  match digitOf b c with Some _ => true | None => false end.

Fixpoint digitsAcc (b : Z) (acc : Z) (s : string) : Z :=
  match s with
  | EmptyString => acc
  | String c s' =>
      digitsAcc b (acc * b + match digitOf b c with Some v => v | None => 0 end) s'
  end.

Definition digitsVal (s : string) : Z := digitsAcc 10 0 s.

Fixpoint allChars (p : ascii -> bool) (s : string) : bool :=
  match s with
  | EmptyString => true
  | String c s' => p c && allChars p s'
  end.

(** *** [Number(s)]

    The result of converting a string to a number: not a number, an
    infinity, or the finite decimal [m * 10^e] that the literal denotes
    (before rounding to a double). *)
Inductive JSNumber : Type :=
| JNaN
| JInf (negative : bool)
| JFin (m e : Z).

Definition isNaN (x : JSNumber) : bool :=
  match x with JNaN => true | _ => false end.

(** [0x..], [0o..], [0b..]: a non-empty run of digits of the base. *)
Definition radixLiteral (b : Z) (s : string) : JSNumber :=
  if truthy s && allChars (isDigitOf b) s then JFin (digitsAcc b 0 s) 0 else JNaN.

(** The exponent part after [e] or [E]: an optional sign and digits. *)
Definition exponentPart (s : string) : option Z :=
  let '(neg, ds) :=
    match s with
    | String c r =>
        if Ascii.eqb c "+" then (false, r)
        else if Ascii.eqb c "-" then (true, r)
        else (false, s)
    | EmptyString => (false, s)
    end in
  if truthy ds && allChars isDigit ds
  then Some (if neg then - digitsVal ds else digitsVal ds) else None.

(** StrUnsignedDecimalLiteral *)
Definition unsignedDecimal (s : string) : JSNumber :=
  if String.eqb s "Infinity" then JInf false else
  let '(ip, r1) := span isDigit s in
  let '(fp, r2) :=
    match r1 with
    | String c r => if Ascii.eqb c "." then span isDigit r else (EmptyString, r1)
    | EmptyString => (EmptyString, r1)
    end in
  if negb (truthy ip || truthy fp) then JNaN else
  let m := digitsVal (ip +:+ fp) in
  let sh := Z.of_nat (String.length fp) in
  match r2 with
  | EmptyString => JFin m (- sh)
  | String c r3 =>
      if Ascii.eqb c "e" || Ascii.eqb c "E"
      then match exponentPart r3 with
           | Some x => JFin m (x - sh)
           | None => JNaN
           end
      else JNaN
  end.

Definition negate (x : JSNumber) : JSNumber :=
  match x with
  | JNaN => JNaN
  | JInf b => JInf (negb b)
  | JFin m e => JFin (- m) e
  end.

(** StringToNumber: white space is trimmed, the empty string is zero. *)
Definition radixOf (c : ascii) : option Z :=
  if Ascii.eqb c "x" || Ascii.eqb c "X" then Some 16
  else if Ascii.eqb c "o" || Ascii.eqb c "O" then Some 8
  else if Ascii.eqb c "b" || Ascii.eqb c "B" then Some 2
  else None.

(** The digits after a prefix [0x], [0o] or [0b], with the base. *)
Definition radixPrefix (t : string) : option (Z * string) :=
  match t with
  | String c (String c2 r) =>
      if Ascii.eqb c "0"
      then match radixOf c2 with Some b => Some (b, r) | None => None end
      else None
  | _ => None
  end.

Definition Number (s : string) : JSNumber :=
  let t := trim s in
  match radixPrefix t with
  | Some (b, r) => radixLiteral b r
  | None =>
      match t with
      | EmptyString => JFin 0 0
      | String c r =>
          if Ascii.eqb c "+" then unsignedDecimal r
          else if Ascii.eqb c "-" then negate (unsignedDecimal r)
          else unsignedDecimal t
      end
  end.

(** [x - 1] on a number. *)
Definition pred (x : JSNumber) : JSNumber :=
  match x with
  | JFin m e => if 0 <=? e then JFin (m * 10 ^ e - 1) 0 else JFin (m - 10 ^ (- e)) e
  | _ => x
  end.

(** ToIntegerOrInfinity on a finite number: truncation towards zero. *)
Definition truncate (m e : Z) : Z :=
  if 0 <=? e then m * 10 ^ e else Z.quot m (10 ^ (- e)).

(** [parseInt(s)] on a non-empty run of decimal digits. *)
Definition parseInt (s : string) : Z := digitsVal s.

End JS.

(** ** JavaScript dates

    Time values, the calendar functions of the language standard and the
    [Date] constructor called with year, month, day, hours and minutes.
    Local time is UTC plus a fixed offset [tz] (no daylight saving). The
    arithmetic is on exact integers; it agrees with the double arithmetic of
    an engine as long as the components stay below 2^53 in magnitude. *)

Module JSDate.
Import JS.

Definition msPerDay : Z := 86400000.
Definition msPerHour : Z := 3600000.
Definition msPerMinute : Z := 60000.
Definition maxTime : Z := 8640000000000000.

(** A date object: its time value, or [None] for an invalid date. *)
Definition Date : Type := option Z.

Definition Day (t : Z) : Z := t / msPerDay.

Definition DayFromYear (y : Z) : Z :=
  365 * (y - 1970) + (y - 1969) / 4 - (y - 1901) / 100 + (y - 1601) / 400.

Definition InLeapYear (y : Z) : bool :=
  (y mod 4 =? 0) && (negb (y mod 100 =? 0) || (y mod 400 =? 0)).

(** The year containing day number [d]: the largest [y] with
    [DayFromYear y <= d], found from an estimate that is off by at most one. *)
Definition YearFromDay (d : Z) : Z :=
  let y0 := 1970 + (400 * d) / 146097 in
  if d <? DayFromYear y0 then y0 - 1
  else if DayFromYear (y0 + 1) <=? d then y0 + 1
  else y0.

(** Days of the year before month [mn] (0 = January). *)
Definition daysBeforeMonth (leap : bool) (mn : Z) : Z :=
  let l := if leap then 1 else 0 in
  if mn <=? 0 then 0
  else if mn =? 1 then 31
  else if mn =? 2 then 59 + l
  else if mn =? 3 then 90 + l
  else if mn =? 4 then 120 + l
  else if mn =? 5 then 151 + l
  else if mn =? 6 then 181 + l
  else if mn =? 7 then 212 + l
  else if mn =? 8 then 243 + l
  else if mn =? 9 then 273 + l
  else if mn =? 10 then 304 + l
  else 334 + l.

(** The month (0 = January) of day [doy] of a year. *)
Definition MonthFromDayInYear (leap : bool) (doy : Z) : Z :=
  let l := if leap then 1 else 0 in
  if doy <? 31 then 0
  else if doy <? 59 + l then 1
  else if doy <? 90 + l then 2
  else if doy <? 120 + l then 3
  else if doy <? 151 + l then 4
  else if doy <? 181 + l then 5
  else if doy <? 212 + l then 6
  else if doy <? 243 + l then 7
  else if doy <? 273 + l then 8
  else if doy <? 304 + l then 9
  else if doy <? 334 + l then 10
  else 11.

Definition YearFromTime (t : Z) : Z := YearFromDay (Day t).

Definition DayWithinYear (t : Z) : Z := Day t - DayFromYear (YearFromTime t).

Definition MonthFromTime (t : Z) : Z :=
  MonthFromDayInYear (InLeapYear (YearFromTime t)) (DayWithinYear t).

Definition DateFromTime (t : Z) : Z :=
  DayWithinYear t
  - daysBeforeMonth (InLeapYear (YearFromTime t)) (MonthFromTime t) + 1.

Definition HourFromTime (t : Z) : Z := (t / msPerHour) mod 24.
Definition MinFromTime (t : Z) : Z := (t / msPerMinute) mod 60.

(** MakeDay: the day number of day [dt] of month [m] of year [y], where
    months and days out of range carry over; no day number when the first of
    the month is outside the range of time values (engines differ on that
    edge, near the years -271821 and 275760; nothing below depends on it). *)
Definition MakeDay (y m dt : Z) : option Z :=
  let ym := y + m / 12 in
  let mn := m mod 12 in
  let first := DayFromYear ym + daysBeforeMonth (InLeapYear ym) mn in
  if Z.abs (first * msPerDay) <=? maxTime then Some (first + dt - 1) else None.

Definition MakeTime (h mi : Z) : Z := h * msPerHour + mi * msPerMinute.

Definition TimeClip (t : Z) : Date :=
  if Z.abs t <=? maxTime then Some t else None.

(** [new Date(y, m, d, h, mi)]: a year from 0 to 99 means 1900 + year, the
    fields are local time. *)
Definition newDate (tz : Z) (y m d : JSNumber) (h mi : Z) : Date :=
  match y, m, d with
  | JFin ym ye, JFin mm me, JFin dm de =>
      let yt := truncate ym ye in
      let yr := if (0 <=? yt) && (yt <=? 99) then 1900 + yt else yt in
      match MakeDay yr (truncate mm me) (truncate dm de) with
      | Some day => TimeClip (day * msPerDay + MakeTime h mi - tz)
      | None => None
      end
  | _, _, _ => None
  end.

(** The getters, in local time; [None] stands for NaN. *)
Definition LocalTime (tz t : Z) : Z := t + tz.

Definition getTime (d : Date) : option Z := d.
Definition getFullYear (tz : Z) (d : Date) : option Z :=
  option_map (fun t => YearFromTime (LocalTime tz t)) d.
Definition getMonth (tz : Z) (d : Date) : option Z :=
  option_map (fun t => MonthFromTime (LocalTime tz t)) d.
Definition getDate (tz : Z) (d : Date) : option Z :=
  option_map (fun t => DateFromTime (LocalTime tz t)) d.
Definition getHours (tz : Z) (d : Date) : option Z :=
  option_map (fun t => HourFromTime (LocalTime tz t)) d.
Definition getMinutes (tz : Z) (d : Date) : option Z :=
  option_map (fun t => MinFromTime (LocalTime tz t)) d.

(** Month names of [toLocaleString(.., { month: 'long' })], in English. *)
Definition monthName (mn : Z) : string :=
  if mn =? 0 then "January"
  else if mn =? 1 then "February"
  else if mn =? 2 then "March"
  else if mn =? 3 then "April"
  else if mn =? 4 then "May"
  else if mn =? 5 then "June"
  else if mn =? 6 then "July"
  else if mn =? 7 then "August"
  else if mn =? 8 then "September"
  else if mn =? 9 then "October"
  else if mn =? 10 then "November"
  else "December".

(** [toLocaleDateString('en-GB')]: day/month/year, day and month on two
    digits. *)
Definition toLocaleDateString_enGB (tz t : Z) : string :=
  let l := LocalTime tz t in
  padStart 2 "0" (StringZ (DateFromTime l)) +:+ "/"
  +:+ padStart 2 "0" (StringZ (MonthFromTime l + 1)) +:+ "/"
  +:+ StringZ (YearFromTime l).

(** [toLocaleTimeString('en-US', { hour: 'numeric', minute: '2-digit',
    hour12: true })]: the hour from 1 to 12, the minute on two digits, a
    white space (a plain space here; recent locale data has a narrow
    no-break space, which [\s] matches as well) and AM or PM. *)
Definition toLocaleTimeString_enUS (tz t : Z) : string :=
  let l := LocalTime tz t in
  let h := HourFromTime l in
  let h12 := if h mod 12 =? 0 then 12 else h mod 12 in
  StringZ h12 +:+ ":" +:+ padStart 2 "0" (StringZ (MinFromTime l))
  +:+ " " +:+ (if h <? 12 then "AM" else "PM").

End JSDate.

(** ** The device: storage, files, clock and faults *)

Module Device.
Import JS JSDate.

Record Client : Type := mkClient {
  c_mobile : string;
  c_name : string;
  c_address : string;
  c_notes : string
}.

Record OrderBlock : Type := mkBlock {
  b_id : string;
  b_description : string;
  b_notes : string;
  b_guests : string
}.

(** An element of the stored [orders] array as JSON holds it: any field may
    be missing, and [orderBlocks] is [None] when missing or not an array. *)
Record StoredOrder : Type := mkStored {
  o_id : option string;
  o_clientName : option string;
  o_mobile : option string;
  o_address : option string;
  o_dateTime : option string;
  o_orderBlocks : option (list OrderBlock);
  o_quotationAmount : option string;
  o_pdfUri : option string
}.

(** An array element is an object or [null]. *)
Definition Entry : Type := option StoredOrder.

(** The value under an AsyncStorage key: nothing (or the empty string), text
    that [JSON.parse] rejects, or an array. *)
Inductive Slot (A : Type) : Type :=
| Absent
| Garbled
| Items (l : list A).
Arguments Absent {A}.
Arguments Garbled {A}.
Arguments Items {A} l.

Inductive Key : Type := KClients | KOrders.

Record World : Type := mkWorld {
  clients : Slot Client;
  orders : Slot Entry;
  folder : bool;              (* BBN_Quotations/ exists *)
  files : list string;        (* files written so far *)
  writes : list Key           (* completed [setItem] calls, latest first *)
}.

(** The asynchronous steps that can reject. *)
Inductive Step : Type :=
| GetInfo | MakeDirectory | PrintToFile | CopyFile
| GetItem (k : Key) | SetItem (k : Key).

(** What the surroundings decide: which steps reject, the name of the file
    the print service produces, the documents directory, the clock and the
    time zone offset (milliseconds). *)
Record Env : Type := mkEnv {
  fails : Step -> bool;
  tmpUri : string;
  documentDirectory : string;
  clock : Z;
  tz : Z
}.

End Device.

Import JS JSDate Device.

(** ** The history screen (app/(tabs)/history.tsx) *)

Module History.

Record Order : Type := mkOrder {
  id : string;
  clientName : string;
  mobile : string;
  address : string;
  dateTime : string;
  orderBlocks : list OrderBlock;
  quotationAmount : string;
  pdfUri : string
}.

Record Section : Type := mkSection {
  title : string;
  data : list Order;
  count : nat
}.

(** *** parseDate *)

Definition isAP (c : ascii) : bool :=
  Ascii.eqb (upperChar c) "A" || Ascii.eqb (upperChar c) "P".
Definition isM (c : ascii) : bool := Ascii.eqb (upperChar c) "M".

(** One attempt of [/(\d+):(\d+)\s*(AM|PM)/i] at the start of [s]. Each
    greedy run is followed by a character outside its class, so giving back
    characters never helps and the attempt has no alternative. *)
Definition matchTimeHere (s : string) : option (string * string * string) :=
  let '(h, r1) := span isDigit s in
  if negb (truthy h) then None else
  match r1 with
  | String c r2 =>
      if negb (Ascii.eqb c ":") then None else
      let '(mi, r3) := span isDigit r2 in
      if negb (truthy mi) then None else
      match trimStart r3 with
      | String a (String m _) =>
          if isAP a && isM m
          then Some (h, mi, String a (String m EmptyString)) else None
      | _ => None
      end
  | EmptyString => None
  end.

(** [timePart.match(...)]: the leftmost position where an attempt succeeds. *)
Fixpoint matchTime (s : string) : option (string * string * string) :=
  match matchTimeHere s with
  | Some r => Some r
  | None =>
      match s with
      | EmptyString => None
      | String _ s' => matchTime s'
      end
  end.

(** The hour on the 24-hour clock. *)
Definition to24 (ampm : string) (hour : Z) : Z :=
  let hour := if String.eqb (toUpperCase ampm) "PM" && negb (hour =? 12)
              then hour + 12 else hour in
  if String.eqb (toUpperCase ampm) "AM" && (hour =? 12) then 0 else hour.

(** [parseDate(s)]; [now] is the time value [new Date()] would have.
    [parseInt] of a run of digits is never NaN, so that test of the source
    never fires. *)
Definition parseDate (tz now : Z) (s : option string) : Date :=
  match s with
  | None => Some now
  | Some s =>
      if negb (truthy s) then Some now else
      match split " at " s with
      | [datePart; timePart] =>
          let nums := List.map Number (split "/" datePart) in
          match nums with
          | [d; m; y] =>
              if existsb isNaN nums then Some now else
              match matchTime timePart with
              | None => Some now
              | Some (h, mi, ampm) =>
                  let hour := parseInt h in
                  let minute := parseInt mi in
                  newDate tz y (pred m) d (to24 ampm hour) minute
              end
          | _ => Some now
          end
      | _ => Some now
      end
  end.

(** *** Load, repair, sort and group *)

(** [o && o.id && o.dateTime && o.pdfUri] *)
Definition present (x : option string) : bool :=
  match x with Some s => truthy s | None => false end.

Definition isValid (e : Entry) : bool :=
  match e with
  | Some o => present (o_id o) && present (o_dateTime o) && present (o_pdfUri o)
  | None => false
  end.

(** [x ?? d] *)
Definition orElse {A : Type} (x : option A) (d : A) : A :=
  match x with Some v => v | None => d end.

Definition blank : StoredOrder :=
  mkStored None None None None None None None None.

Definition normalize (e : Entry) : Order :=
  let o := orElse e blank in
  {| id := orElse (o_id o) "";
     clientName := orElse (o_clientName o) "";
     mobile := orElse (o_mobile o) "";
     address := orElse (o_address o) "";
     dateTime := orElse (o_dateTime o) "";
     orderBlocks := orElse (o_orderBlocks o) [];
     quotationAmount := orElse (o_quotationAmount o) "0";
     pdfUri := orElse (o_pdfUri o) "" |}.

Definition validOrders (os : list Entry) : list Order :=
  List.map normalize (List.filter isValid os).

(** The loop over [valid] with the set [seen]. *)
Fixpoint dedupeFrom (seen : gset string) (l : list Order) : list Order :=
  match l with
  | [] => []
  | o :: r =>
      if bool_decide (id o ∈ seen) then dedupeFrom seen r
      else o :: dedupeFrom ({[ id o ]} ∪ seen) r
  end.

Definition dedupe (l : list Order) : list Order := dedupeFrom ∅ l.

(** [JSON.stringify] of an order, read back. *)
Definition toEntry (o : Order) : Entry :=
  Some {| o_id := Some (id o);
          o_clientName := Some (clientName o);
          o_mobile := Some (mobile o);
          o_address := Some (address o);
          o_dateTime := Some (dateTime o);
          o_orderBlocks := Some (orderBlocks o);
          o_quotationAmount := Some (quotationAmount o);
          o_pdfUri := Some (pdfUri o) |}.

Definition timeOf (tz now : Z) (o : Order) : option Z :=
  getTime (parseDate tz now (Some (dateTime o))).

(** The comparator [(a, b) => time(b) - time(a)]; a NaN result counts as 0. *)
Definition compareOrders (tz now : Z) (a b : Order) : Z :=
  match timeOf tz now b, timeOf tz now a with
  | Some tb, Some ta => tb - ta
  | _, _ => 0
  end.

(** [Array.prototype.sort] is stable: an element goes in front of the first
    later element it does not have to follow. *)
Fixpoint insertBy (cmp : Order -> Order -> Z) (a : Order) (l : list Order)
  : list Order :=
  match l with
  | [] => [a]
  | x :: r => if cmp a x <=? 0 then a :: l else x :: insertBy cmp a r
  end.

Definition sortBy (cmp : Order -> Order -> Z) (l : list Order) : list Order :=
  List.fold_right (insertBy cmp) [] l.

(** The key of the month group. *)
Definition groupKey (tz now : Z) (o : Order) : string :=
  match parseDate tz now (Some (dateTime o)) with
  | Some t =>
      monthName (MonthFromTime (LocalTime tz t)) +:+ " "
      +:+ StringZ (YearFromTime (LocalTime tz t))
  | None => "Invalid Date NaN"
  end.

(** [groups[key].push(o)], creating the group at the end when it is new:
    the keys contain a space, so the object lists them in insertion order. *)
Fixpoint addToGroup (key : string) (o : Order) (g : list (string * list Order))
  : list (string * list Order) :=
  match g with
  | [] => [(key, [o])]
  | (k, os) :: r =>
      if String.eqb k key then (k, os ++ [o]) :: r
      else (k, os) :: addToGroup key o r
  end.

Definition groupOrders (tz now : Z) (l : list Order) : list (string * list Order) :=
  List.fold_left (fun g o => addToGroup (groupKey tz now o) o g) l [].

Definition toSection (kv : string * list Order) : Section :=
  {| title := fst kv; data := snd kv; count := length (snd kv) |}.

Definition sectionsOf (tz now : Z) (deduped : list Order) : list Section :=
  List.map toSection
    (groupOrders tz now (sortBy (compareOrders tz now) deduped)).

Definition writeOrders (l : list Order) (w : World) : World :=
  {| clients := clients w;
     orders := Items (List.map toEntry l);
     folder := folder w;
     files := files w;
     writes := KOrders :: writes w |}.

(** The effect that loads the screen: the sections shown afterwards (none
    when the load stops early or fails) and the device afterwards. *)
Definition load (e : Env) (w : World) : list Section * World :=
  if fails e (GetItem KOrders) then ([], w) else
  match orders w with
  | Absent => ([], w)
  | Garbled => ([], w)
  | Items os =>
      let valid := validOrders os in
      let deduped := dedupe valid in
      if negb (length deduped =? length valid)%nat then
        if fails e (SetItem KOrders) then ([], w)
        else (sectionsOf (tz e) (clock e) deduped, writeOrders deduped w)
      else (sectionsOf (tz e) (clock e) deduped, w)
  end.

End History.


(** ** The order form (app/(tabs)/index.tsx) *)

Module OrderForm.

Record Form : Type := mkForm {
  orderId : string;
  clientName : string;
  mobile : string;
  address : string;
  date : option Z;            (* the event date, [None] when absent *)
  time : Z;
  orderBlocks : list OrderBlock;
  quotationAmount : string;
  snackbarVisible : bool;
  snackbarMessage : string
}.

Definition initialForm (now : Z) : Form :=
  mkForm "" "" "" "" (Some now) now [mkBlock "1" "" "" ""] "" false "".

(** *** Asynchronous code: state and exceptions *)

Record St : Type := mkSt { form : Form; world : World }.

Inductive Res (A : Type) : Type :=
| Ok (a : A)
| Throw.
Arguments Ok {A} a.
Arguments Throw {A}.

Definition M (A : Type) : Type := St -> Res A * St.

Definition ret {A : Type} (a : A) : M A := fun s => (Ok a, s).
Definition throw {A : Type} : M A := fun s => (Throw, s).
Definition bind {A B : Type} (m : M A) (k : A -> M B) : M B :=
  fun s => match m s with
           | (Ok a, s') => k a s'
           | (Throw, s') => (Throw, s')
           end.
Definition tryCatch {A : Type} (m : M A) (handler : M A) : M A :=
  fun s => match m s with
           | (Ok a, s') => (Ok a, s')
           | (Throw, s') => handler s'
           end.

#[global] Instance M_ret : MRet M := @ret.
#[global] Instance M_bind : MBind M := fun A B k m => bind m k.

Definition getForm : M Form := fun s => (Ok (form s), s).
Definition getWorld : M World := fun s => (Ok (world s), s).
Definition putWorld (w : World) : M unit :=
  fun s => (Ok tt, mkSt (form s) w).
Definition putForm (f : Form) : M unit :=
  fun s => (Ok tt, mkSt f (world s)).

(** A step that rejects when the surroundings say so. *)
Definition step (e : Env) (st : Step) : M unit :=
  if fails e st then throw else ret tt.

(** [stored ? JSON.parse(stored) : []] *)
Definition parseItems {A : Type} (x : Slot A) : M (list A) :=
  match x with
  | Absent => ret []
  | Garbled => throw
  | Items l => ret l
  end.

Definition getClients (e : Env) : M (Slot Client) :=
  step e (GetItem KClients) ;; w ← getWorld; ret (clients w).

Definition getOrders (e : Env) : M (Slot Entry) :=
  step e (GetItem KOrders) ;; w ← getWorld; ret (orders w).

Definition setClients (e : Env) (l : list Client) : M unit :=
  step e (SetItem KClients) ;;
  w ← getWorld;
  putWorld {| clients := Items l; orders := orders w; folder := folder w;
              files := files w; writes := KClients :: writes w |}.

Definition setOrders (e : Env) (l : list Entry) : M unit :=
  step e (SetItem KOrders) ;;
  w ← getWorld;
  putWorld {| clients := clients w; orders := Items l; folder := folder w;
              files := files w; writes := KOrders :: writes w |}.

Definition addFile (name : string) : M unit :=
  w ← getWorld;
  putWorld {| clients := clients w; orders := orders w; folder := folder w;
              files := name :: files w; writes := writes w |}.

Definition setSnackbar (msg : string) : M unit :=
  f ← getForm;
  putForm {| orderId := orderId f; clientName := clientName f;
             mobile := mobile f; address := address f; date := date f;
             time := time f; orderBlocks := orderBlocks f;
             quotationAmount := quotationAmount f;
             snackbarVisible := true; snackbarMessage := msg |}.

(** *** Helpers *)

Definition BBN_DIR (e : Env) : string :=
  documentDirectory e +:+ "BBN_Quotations/".

Definition ensureFolder (e : Env) : M unit :=
  step e GetInfo ;;
  w ← getWorld;
  if folder w then ret tt
  else step e MakeDirectory ;;
       putWorld {| clients := clients w; orders := orders w; folder := true;
                   files := files w; writes := writes w |}.

Definition loadClients (e : Env) : M (list Client) :=
  tryCatch (stored ← getClients e; parseItems stored) (ret []).

(** [Object.assign(existing, newClient)] on the first record with that
    mobile: the record keeps its place. *)
Fixpoint assignFirst (m : string) (c : Client) (l : list Client) : list Client :=
  match l with
  | [] => []
  | x :: r => if String.eqb (c_mobile x) m then c :: r else x :: assignFirst m c r
  end.

Definition saveClient (e : Env) : M unit :=
  f ← getForm;
  if negb (truthy (mobile f)) || negb (truthy (clientName f)) then ret tt else
  cs ← loadClients e;
  let existing := List.find (fun c => String.eqb (c_mobile c) (mobile f)) cs in
  match orderBlocks f with
  | [] => throw
  | b0 :: _ =>
      let newClient := mkClient (mobile f) (clientName f) (address f) (b_notes b0) in
      let cs' := match existing with
                 | None => cs ++ [newClient]
                 | Some _ => assignFirst (mobile f) newClient cs
                 end in
      setClients e cs'
  end.

(** *** generateOrderId *)

(** [o.id?.startsWith(base)] for each element; reading [id] of [null]
    throws. *)
Fixpoint sameBase (base : string) (os : list Entry) : M (list Entry) :=
  match os with
  | [] => ret []
  | None :: _ => throw
  | Some o :: r =>
      rest ← sameBase base r;
      ret (match o_id o with
           | Some i => if startsWith base i then Some o :: rest else rest
           | None => rest
           end)
  end.

Definition baseOf (e : Env) (name : string) (d : Z) : string :=
  let l := LocalTime (tz e) d in
  removeSpaces (toUpperCase name)
  +:+ padStart 2 "0" (StringZ (DateFromTime l))
  +:+ padStart 2 "0" (StringZ (MonthFromTime l + 1))
  +:+ StringZ (YearFromTime l) +:+ "Q".

Definition generateOrderId (e : Env) : M string :=
  f ← getForm;
  match date f with
  | None => ret ""
  | Some d =>
      if negb (truthy (clientName f)) then ret "" else
      let base := baseOf e (clientName f) d in
      stored ← getOrders e;
      os ← parseItems stored;
      same ← sameBase base os;
      let seq := padStart 3 "0" (StringZ (Z.of_nat (length same) + 1)) in
      ret (base +:+ seq)
  end.

(** *** Date, time and blocks *)

Definition formatDateTime (e : Env) : M string :=
  f ← getForm;
  match date f with
  | None => throw
  | Some d =>
      ret (toLocaleDateString_enGB (tz e) d +:+ " at "
           +:+ toLocaleTimeString_enUS (tz e) (time f))
  end.

Definition setOrderBlocks (g : list OrderBlock -> list OrderBlock) (f : Form) : Form :=
  {| orderId := orderId f; clientName := clientName f; mobile := mobile f;
     address := address f; date := date f; time := time f;
     orderBlocks := g (orderBlocks f);
     quotationAmount := quotationAmount f;
     snackbarVisible := snackbarVisible f;
     snackbarMessage := snackbarMessage f |}.

(** The new block is named after [Date.now()]. *)
Definition addOrderBlock (e : Env) (f : Form) : Form :=
  setOrderBlocks (fun prev => prev ++ [mkBlock (StringZ (clock e)) "" "" ""]) f.

Inductive Field : Type := Description | Notes | Guests.

Definition setField (fd : Field) (v : string) (b : OrderBlock) : OrderBlock :=
  match fd with
  | Description => mkBlock (b_id b) v (b_notes b) (b_guests b)
  | Notes => mkBlock (b_id b) (b_description b) v (b_guests b)
  | Guests => mkBlock (b_id b) (b_description b) (b_notes b) v
  end.

Definition updateBlock (i : string) (fd : Field) (v : string) (f : Form) : Form :=
  setOrderBlocks
    (List.map (fun b => if String.eqb (b_id b) i then setField fd v b else b)) f.

Definition removeBlock (i : string) (f : Form) : Form :=
  if (1 <? length (orderBlocks f))%nat
  then setOrderBlocks (List.filter (fun b => negb (String.eqb (b_id b) i))) f
  else f.

(** *** generateAndSavePDF *)

Definition mobileRejected (m : string) : bool :=
  negb (String.length m =? 10)%nat || isNaN (Number m).

Definition noMenuItem (bs : list OrderBlock) : bool :=
  forallb (fun b => negb (truthy (trim (b_description b)))) bs.

Definition orderOf (f : Form) (dt finalUri : string) : Entry :=
  Some {| o_id := Some (orderId f);
          o_clientName := Some (clientName f);
          o_mobile := Some (mobile f);
          o_address := Some (address f);
          o_dateTime := Some dt;
          o_orderBlocks := Some (orderBlocks f);
          o_quotationAmount := Some (quotationAmount f);
          o_pdfUri := Some finalUri |}.

(** The outcome is the final path, or [None] for [null]. The markup of the
    document is text handed to the print service; building it reads the
    event date of every block and changes nothing. *)
Definition generateAndSavePDF (e : Env) : M (option string) :=
  f ← getForm;
  if negb (truthy (orderId f)) || negb (truthy (clientName f))
     || negb (truthy (mobile f)) || negb (truthy (address f))
     || negb (truthy (quotationAmount f))
  then setSnackbar "Fill all required fields." ;; ret None
  else if mobileRejected (mobile f)
  then setSnackbar "Mobile must be 10 digits." ;; ret None
  else if noMenuItem (orderBlocks f)
  then setSnackbar "Add at least one menu item." ;; ret None
  else
    (match date f with None => throw | Some _ => ret tt end) ;;
    tryCatch
      (ensureFolder e ;;
       step e PrintToFile ;;
       addFile (tmpUri e) ;;
       let finalUri := BBN_DIR e +:+ orderId f +:+ ".pdf" in
       step e CopyFile ;;
       addFile finalUri ;;
       dt ← formatDateTime e;
       stored ← getOrders e;
       l ← parseItems stored;
       setOrders e (l ++ [orderOf f dt finalUri]) ;;
       saveClient e ;;
       ret (Some finalUri))
      (setSnackbar "Failed to generate PDF" ;; ret None).

End OrderForm.

(** ** Notions used to state the properties *)

Module Spec.
Import JS JSDate Device.

(** The first character of [r], if any, fails [p]. *)
Definition stops (p : ascii -> bool) (r : string) : bool :=
  match r with
  | EmptyString => true
  | String c _ => negb (p c)
  end.

(** [sep] occurs somewhere in [s]. *)
Fixpoint occursIn (sep s : string) : bool :=
  String.prefix sep s
  || match s with
     | EmptyString => false
     | String _ s' => occursIn sep s'
     end.

Definition meridiem (pm : bool) : string := if pm then "PM" else "AM".

(** Indian Standard Time, five and a half hours east of Greenwich. *)
Definition IST : Z := 19800000.

(** The canonical text of a date and time. *)
Definition canonical (dd mm yy hh mi : string) (pm : bool) : string :=
  dd +:+ "/" +:+ mm +:+ "/" +:+ yy +:+ " at "
  +:+ hh +:+ ":" +:+ mi +:+ " " +:+ meridiem pm.


(** The array that [stored ? JSON.parse(stored) : []] yields, when it
    yields one. *)
Definition storedList {A : Type} (x : Slot A) : option (list A) :=
  match x with
  | Absent => Some []
  | Garbled => None
  | Items l => Some l
  end.

(** The stored order has an id that starts with [base]. *)
Definition idStartsWith (base : string) (o : Entry) : bool :=
  match o with
  | Some so =>
      match o_id so with
      | Some i => startsWith base i
      | None => false
      end
  | None => false
  end.

Definition notNull (o : Entry) : bool :=
  match o with Some _ => true | None => false end.

(** The values [lo], [lo + 1], ..., [lo + n - 1]. *)
Definition zrange (lo : Z) (n : nat) : list Z :=
  List.map (fun k => lo + Z.of_nat k) (List.seq 0 n).

(** The form passes the three checks of submission and has an event date. *)
Definition submittable (f : OrderForm.Form) : bool :=
  truthy (OrderForm.orderId f) && truthy (OrderForm.clientName f)
  && truthy (OrderForm.mobile f) && truthy (OrderForm.address f)
  && truthy (OrderForm.quotationAmount f)
  && negb (OrderForm.mobileRejected (OrderForm.mobile f))
  && negb (OrderForm.noMenuItem (OrderForm.orderBlocks f))
  && match OrderForm.date f with Some _ => true | None => false end.

(** A step up to and including the write of the orders fails. *)
Definition failsBeforeOrderSaved (e : Env) (w : World) : bool :=
  fails e GetInfo
  || (negb (folder w) && fails e MakeDirectory)
  || fails e PrintToFile
  || fails e CopyFile
  || fails e (GetItem KOrders)
  || match orders w with Garbled => true | _ => false end
  || fails e (SetItem KOrders).

Definition showing (msg : string) (f : OrderForm.Form) : OrderForm.Form :=
  {| OrderForm.orderId := OrderForm.orderId f;
     OrderForm.clientName := OrderForm.clientName f;
     OrderForm.mobile := OrderForm.mobile f;
     OrderForm.address := OrderForm.address f;
     OrderForm.date := OrderForm.date f;
     OrderForm.time := OrderForm.time f;
     OrderForm.orderBlocks := OrderForm.orderBlocks f;
     OrderForm.quotationAmount := OrderForm.quotationAmount f;
     OrderForm.snackbarVisible := true;
     OrderForm.snackbarMessage := msg |}.

(** At most one client record for each mobile. *)
Definition uniqueMobiles (x : Slot Client) : Prop :=
  match x with
  | Items cs => List.NoDup (List.map c_mobile cs)
  | _ => True
  end.

Definition hasMobile (m : string) (c : Client) : bool :=
  String.eqb (c_mobile c) m.

(** The client record that the form describes. *)
Definition clientOf (f : OrderForm.Form) (b0 : OrderBlock) : Client :=
  mkClient (OrderForm.mobile f) (OrderForm.clientName f)
    (OrderForm.address f) (b_notes b0).

(** A field that is there and is not the empty string. *)
Definition nonEmpty (x : option string) : Prop :=
  exists s : string, x = Some s /\ s <> "".

(** The order has its id, date and path. *)
Definition complete (o : History.Order) : Prop :=
  History.id o <> "" /\ History.dateTime o <> "" /\ History.pdfUri o <> "".

(** The distinct values of a list in the order of their first occurrence. *)
Fixpoint firstSeen (ks : list string) : list string :=
  match ks with
  | [] => []
  | k :: r => k :: List.filter (fun x => negb (String.eqb x k)) (firstSeen r)
  end.

(** The time value of an order for sorting, when its date is valid. *)
Definition sortKey (tz now : Z) (o : History.Order) : Z :=
  match History.timeOf tz now o with Some t => t | None => 0 end.

Definition validDate (tz now : Z) (o : History.Order) : Prop :=
  History.timeOf tz now o <> None.

(** [a] is not older than [b]. *)
Definition newerFirst (tz now : Z) (a b : History.Order) : Prop :=
  sortKey tz now b <= sortKey tz now a.

Definition inGroup (tz now : Z) (k : string) (o : History.Order) : bool :=
  String.eqb (History.groupKey tz now o) k.

Definition inb (k : string) (ks : list string) : bool :=
  existsb (String.eqb k) ks.

(** The month groups as the specification describes them: one group for
    each label, in the order the labels are first seen, holding the orders
    with that label in their order, and their number. *)
Definition groupsOf (tz now : Z) (l : list History.Order) : list History.Section :=
  List.map
    (fun k =>
       History.mkSection k (List.filter (inGroup tz now k) l)
         (length (List.filter (inGroup tz now k) l)))
    (firstSeen (List.map (History.groupKey tz now) l)).

(** The order has the time value [t]. *)
Definition sameTime (tz now t : Z) (o : History.Order) : bool :=
  sortKey tz now o =? t.

End Spec.

(** ** Sample forms, devices and faults for the order form *)

Module FormSpec.
Import JS JSDate Device Spec OrderForm.

Definition blockIds (f : Form) : list string := List.map b_id (orderBlocks f).

(** Surroundings in which no step fails. *)
Definition env_quiet : Env :=
  mkEnv (fun _ => false) "tmp/print.pdf" "doc/" 1762000000000 IST.

(** A complete form whose mobile is a signed number of ten characters. *)
Definition form_plus : Form :=
  mkForm "RAJ05032025Q001" "Raj" "+123456789" "Delhi"
    (Some 1741132800000) 1741170600000
    [mkBlock "1" "Paneer tikka" "" "50"] "25000" false "".

(** A device on which nothing has been stored yet. *)
Definition world_empty : World := mkWorld Absent Absent false [] [].

(** The form for "Test User" on 5 March 2025, before an id is computed. *)
Definition form_test : Form :=
  mkForm "" "Test User" "9876543210" "Delhi"
    (Some 1741132800000) 1741170600000
    [mkBlock "1" "Paneer tikka" "" "50"] "25000" false "".

Definition stored_with_id (i : string) : Entry :=
  Some (mkStored (Some i) (Some "A") (Some "9876543210") (Some "Delhi")
          (Some "05/03/2025 at 4:00 PM") (Some []) (Some "100")
          (Some "doc/BBN_Quotations/x.pdf")).

Definition form_A (d : Z) : Form :=
  mkForm "" "A" "9876543210" "Delhi" (Some d) 1741170600000
    [mkBlock "1" "Paneer tikka" "" "50"] "25000" false "".

Definition world_with_orders (os : list Entry) : World :=
  mkWorld Absent (Items os) false [] [].

(** The stored orders after 999 quotations for client "A" on 5 March 2025:
    the ids from [A05032025Q001] to [A05032025Q999]. *)
Definition orders_001_to_999 : list Entry :=
  List.map
    (fun n => stored_with_id ("A05032025Q" +:+ padStart 3 "0" (StringZ n)))
    (zrange 1 999).

(** After the checks, the body of the [try] and its handler. *)
Definition saving (e : Env) (f : Form) : M (option string) :=
  tryCatch
    (ensureFolder e ;;
     step e PrintToFile ;;
     addFile (tmpUri e) ;;
     let finalUri := BBN_DIR e +:+ orderId f +:+ ".pdf" in
     step e CopyFile ;;
     addFile finalUri ;;
     dt ← formatDateTime e;
     stored ← getOrders e;
     l ← parseItems stored;
     setOrders e (l ++ [orderOf f dt finalUri]) ;;
     saveClient e ;;
     mret (Some finalUri))
    (setSnackbar "Failed to generate PDF" ;; mret None).

Definition sameKey (a b : Key) : bool :=
  match a, b with
  | KClients, KClients | KOrders, KOrders => true
  | _, _ => false
  end.

Definition sameStep (a b : Step) : bool :=
  match a, b with
  | GetInfo, GetInfo | MakeDirectory, MakeDirectory
  | PrintToFile, PrintToFile | CopyFile, CopyFile => true
  | GetItem k, GetItem k' | SetItem k, SetItem k' => sameKey k k'
  | _, _ => false
  end.

(** Surroundings in which exactly the step [st] fails. *)
Definition env_failing (st : Step) : Env :=
  mkEnv (sameStep st) "tmp/print.pdf" "doc/" 1762000000000 IST.

(** The same form with its id, ready to be saved. *)
Definition form_ready : Form :=
  mkForm "TESTUSER05032025Q001" "Test User" "9876543210" "Delhi"
    (Some 1741132800000) 1741170600000
    [mkBlock "1" "Paneer tikka" "no onion" "50"] "25000" false "".

(** The order that saving [form_ready] stores. *)
Definition saved_order : Entry :=
  Some (mkStored (Some "TESTUSER05032025Q001") (Some "Test User")
          (Some "9876543210") (Some "Delhi") (Some "05/03/2025 at 4:00 PM")
          (Some [mkBlock "1" "Paneer tikka" "no onion" "50"]) (Some "25000")
          (Some "doc/BBN_Quotations/TESTUSER05032025Q001.pdf")).

(** A device that knows three clients. *)
Definition world_known : World :=
  mkWorld
    (Items [mkClient "9000000001" "Asha" "Rohini" "";
            mkClient "9876543210" "Test User" "Delhi" "no onion";
            mkClient "9000000002" "Vikram" "Dwarka" "jain food"])
    Absent true [] [].

(** A later form for the same mobile, with another name and address. *)
Definition form_second : Form :=
  mkForm "TESTUSER06032025Q001" "Test User Junior" "9876543210" "Noida"
    (Some 1741219200000) 1741170600000
    [mkBlock "1" "Chole bhature" "less spicy" "20"] "9000" false "".

(** The clients after a save that reads and writes without fault. *)
Definition upserted (c : Client) (cs : list Client) : list Client :=
  match List.find (fun x => String.eqb (c_mobile x) (c_mobile c)) cs with
  | None => cs ++ [c]
  | Some _ => assignFirst (c_mobile c) c cs
  end.

End FormSpec.

(** ** Sample orders for the history screen *)

Module HistorySpec.
Import JS JSDate Device Spec History.


Definition raw_order (i dt uri name : string) : Entry :=
  Some (mkStored (Some i) (Some name) None None (Some dt) None None (Some uri)).

(** Stored orders with a repeated id, an entry without a file and a
    [null]. *)
Definition world_dirty : World :=
  mkWorld Absent
    (Items [raw_order "X1" "05/03/2025 at 4:00 PM" "doc/x1.pdf" "first";
            raw_order "X2" "06/03/2025 at 4:00 PM" "" "no file";
            raw_order "X1" "07/03/2025 at 4:00 PM" "doc/x1b.pdf" "second";
            None])
    true [] [].

Definition pairsOf (F : string -> list Order) (ks : list string)
  : list (string * list Order) :=
  List.map (fun k => (k, F k)) ks.

Definition dated (i dt : string) : Order :=
  mkOrder i "Test User" "9876543210" "Delhi" dt [] "25000"
    ("doc/BBN_Quotations/" +:+ i +:+ ".pdf").

(** Orders dated in March, January, March and February 2025. *)
Definition four_orders : list Order :=
  [dated "A" "05/03/2025 at 3:30 PM"; dated "B" "10/01/2025 at 1:00 PM";
   dated "C" "20/03/2025 at 9:00 AM"; dated "D" "14/02/2025 at 9:00 AM"].

Definition summary (s : Section) : string * list string * nat :=
  (title s, List.map id (data s), count s).

End HistorySpec.

(** ** More JavaScript text primitives *)

Module JSText.
Import JS.

Definition lowerChar (c : ascii) : ascii :=
  if (65 <=? code c) && (code c <=? 90)
  then ascii_of_N (Z.to_N (code c + 32)) else c.

(** [s.toLowerCase()] *)
Fixpoint toLowerCase (s : string) : string :=
  match s with
  | EmptyString => EmptyString
  | String c s' => String (lowerChar c) (toLowerCase s')
  end.

(** [s.includes(q)]: [q] starts at some position of [s]. *)
Fixpoint includes (s q : string) : bool :=
  String.prefix q s
  || match s with
     | EmptyString => false
     | String _ s' => includes s' q
     end.

(** The characters that [encodeURIComponent] leaves as they are: letters,
    digits and [- _ . ! ~ * ' ( )]. *)
Definition isUnreserved (c : ascii) : bool :=
  ((65 <=? code c) && (code c <=? 90))
  || ((97 <=? code c) && (code c <=? 122))
  || isDigit c
  || existsb (Ascii.eqb c) ["-"; "_"; "."; "!"; "~"; "*"; "'"; "("; ")"]%char.

Definition hexDigit (n : Z) : ascii :=
  ascii_of_N (Z.to_N (if n <? 10 then 48 + n else 55 + n)).

(** [%XX] for the octet [b]. *)
Definition percent (b : Z) : string :=
  String "%"
    (String (hexDigit (b / 16)) (String (hexDigit (b mod 16)) EmptyString)).

(** A character below 128 is one octet of UTF-8, one from 128 to 255 is
    two. *)
Definition encodeChar (c : ascii) : string :=
  if isUnreserved c then String c EmptyString
  else if code c <? 128 then percent (code c)
  else percent (192 + code c / 64) +:+ percent (128 + code c mod 64).

(** [encodeURIComponent(s)] *)
Fixpoint encodeURIComponent (s : string) : string :=
  match s with
  | EmptyString => EmptyString
  | String c s' => encodeChar c +:+ encodeURIComponent s'
  end.

End JSText.

(** ** The order form: id refresh, suggestions, messages and sharing *)

Module OrderScreen.
Import JSText OrderForm.

(** *** The effect on [clientName] and [date] *)

Definition setOrderId (i : string) : M unit :=
  f ← getForm;
  putForm {| orderId := i; clientName := clientName f; mobile := mobile f;
             address := address f; date := date f; time := time f;
             orderBlocks := orderBlocks f;
             quotationAmount := quotationAmount f;
             snackbarVisible := snackbarVisible f;
             snackbarMessage := snackbarMessage f |}.

(** [generateOrderId().then(setOrderId)]: nothing is set when the promise
    rejects. *)
Definition refreshOrderId (e : Env) : M unit :=
  i ← generateOrderId e; setOrderId i.

(** *** The date and time pickers *)

Record Pickers : Type := mkPickers {
  showDatePicker : bool;
  showTimePicker : bool
}.

Definition setDate (d : Z) (f : Form) : Form :=
  {| orderId := orderId f; clientName := clientName f; mobile := mobile f;
     address := address f; date := Some d; time := time f;
     orderBlocks := orderBlocks f;
     quotationAmount := quotationAmount f;
     snackbarVisible := snackbarVisible f;
     snackbarMessage := snackbarMessage f |}.

Definition setTime (t : Z) (f : Form) : Form :=
  {| orderId := orderId f; clientName := clientName f; mobile := mobile f;
     address := address f; date := date f; time := t;
     orderBlocks := orderBlocks f;
     quotationAmount := quotationAmount f;
     snackbarVisible := snackbarVisible f;
     snackbarMessage := snackbarMessage f |}.

(** The picker stays open on iOS only; [selected] is [None] when the picker
    was dismissed. *)
Definition onChangeDate (ios : bool) (selected : option Z) (f : Form)
    (p : Pickers) : Form * Pickers :=
  (match selected with Some d => setDate d f | None => f end,
   mkPickers ios (showTimePicker p)).

Definition onChangeTime (ios : bool) (selected : option Z) (f : Form)
    (p : Pickers) : Form * Pickers :=
  (match selected with Some t => setTime t f | None => f end,
   mkPickers (showDatePicker p) ios).

(** *** Search suggestions *)

Inductive SearchField : Type := ByName | ByMobile.

Record Search : Type := mkSearch {
  clientSuggestions : list Client;
  showSuggestions : bool;
  searchField : SearchField
}.

Definition initialSearch : Search := mkSearch [] false ByName.

Definition queryOf (f : Form) (sr : Search) : string :=
  match searchField sr with
  | ByName => clientName f
  | ByMobile => mobile f
  end.

(** The filter of the suggestions. *)
Definition isMatch (query : string) (c : Client) : bool :=
  includes (toLowerCase (c_name c)) (toLowerCase query)
  || includes (c_mobile c) query.

(** The effect on [clientName], [mobile] and [searchField], run to its end:
    the search state afterwards. *)
Definition suggest (e : Env) (sr : Search) : M Search :=
  f ← getForm;
  let query := queryOf f sr in
  if (2 <=? String.length query)%nat then
    cs ← loadClients e;
    let matches := List.filter (isMatch query) cs in
    mret (mkSearch (firstn 5 matches) (0 <? length matches)%nat
            (searchField sr))
  else mret (mkSearch (clientSuggestions sr) false (searchField sr)).

Definition selectClient (c : Client) (f : Form) (sr : Search) : Form * Search :=
  ({| orderId := orderId f; clientName := c_name c; mobile := c_mobile c;
      address := c_address c; date := date f; time := time f;
      orderBlocks := orderBlocks f;
      quotationAmount := quotationAmount f;
      snackbarVisible := snackbarVisible f;
      snackbarMessage := snackbarMessage f |},
   mkSearch (clientSuggestions sr) false (searchField sr)).

(** *** Messages and sharing *)

(** What the other applications of the device answer: whether a link can be
    opened ([None] when the question itself is rejected), whether opening a
    link and sharing a file go through. *)
Record Apps : Type := mkApps {
  canOpenURL : string -> option bool;
  openURL : string -> bool;
  shareAsync : string -> bool
}.

(** The screen with what it has handed to other applications, latest
    first. *)
Record Screen : Type := mkScreen {
  st : St;
  opened : list string;
  shared : list string
}.

Definition Act (A : Type) : Type := Screen -> Res A * Screen.

#[local] Instance Act_ret : MRet Act :=
  fun (A : Type) (a : A) (x : Screen) => (Ok a, x).
#[local] Instance Act_bind : MBind Act :=
  fun (A B : Type) (k : A -> Act B) (m : Act A) (x : Screen) =>
    match m x with
    | (Ok a, x') => k a x'
    | (Throw, x') => (Throw, x')
    end.

(** A step of the form run on the screen. *)
Definition lift {A : Type} (m : M A) : Act A :=
  fun x => let '(r, s') := m (st x) in (r, mkScreen s' (opened x) (shared x)).

Definition askCanOpen (a : Apps) (url : string) : Act bool :=
  fun x => match canOpenURL a url with
           | Some can => (Ok can, x)
           | None => (Throw, x)
           end.

Definition openLink (a : Apps) (url : string) : Act unit :=
  fun x => if openURL a url
           then (Ok tt, mkScreen (st x) (url :: opened x) (shared x))
           else (Throw, x).

Definition share (a : Apps) (uri : string) : Act unit :=
  fun x => if shareAsync a uri
           then (Ok tt, mkScreen (st x) (opened x) (uri :: shared x))
           else (Throw, x).

Definition whatsappText : string :=
  "Please review the menu and let us know if any further arrangements need to be done.".

Definition whatsappURL (m : string) : string :=
  "whatsapp://send?phone=91" +:+ m +:+ "&text="
  +:+ encodeURIComponent whatsappText.

Definition sendMessageOnly (a : Apps) : Act unit :=
  f ← lift getForm;
  if negb (truthy (mobile f)) then lift (setSnackbar "Enter mobile number")
  else
    let url := whatsappURL (mobile f) in
    can ← askCanOpen a url;
    (if can then openLink a url else mret tt) ;;
    lift (setSnackbar (if can : bool then "Message sent"
                       else "WhatsApp not installed")).

Definition sendPDFOnly (e : Env) (a : Apps) : Act unit :=
  result ← lift (generateAndSavePDF e);
  match result with
  | Some finalUri => share a finalUri ;; lift (setSnackbar "PDF shared")
  | None => mret tt
  end.

(** The background of the snackbar. *)
Definition snackbarColor (f : Form) : string :=
  if includes (snackbarMessage f) "saved" then "#FF6B35" else "#51CF66".

End OrderScreen.

(** ** The history screen: cards *)

Module HistoryScreen.
Import History.

(** The set of expanded cards after a tap on the card [i]. *)
Definition toggleExpand (i : string) (prev : gset string) : gset string :=
  if bool_decide (i ∈ prev) then prev ∖ {[ i ]} else {[ i ]} ∪ prev.

Definition isExpanded (expanded : gset string) (item : Order) : bool :=
  bool_decide (id item ∈ expanded).

(** The key of the card at [index] of its section. *)
Definition keyExtractor (item : Order) (index : nat) : string :=
  id item +:+ "-" +:+ StringZ (Z.of_nat index).

(** [sharePDF]: a rejected share is caught and logged. *)
Definition sharePDF (a : OrderScreen.Apps) (pdfUri : string)
    (shared : list string) : list string :=
  if OrderScreen.shareAsync a pdfUri then pdfUri :: shared else shared.

End HistoryScreen.

(** ** Notions used to state the properties of the screens *)

Module ScreenSpec.
Import JS JSDate Device Spec FormSpec JSText OrderForm OrderScreen.

(** [q] occurs in [s]: some text, [q], and some more text. *)
Definition contains (s q : string) : Prop :=
  exists pre post : string, s = pre +:+ q +:+ post.

(** The client fits the query: its name holds the query, whatever the case
    of the letters, or its mobile holds it. *)
Definition fits (query : string) (c : Client) : Prop :=
  contains (toLowerCase (c_name c)) (toLowerCase query)
  \/ contains (c_mobile c) query.

(** The months counted from the year 0: the month of the local time [t]. *)
Definition monthIndex (t : Z) : Z := 12 * YearFromTime t + MonthFromTime t.

(** The month, so counted, in which the order is dated. *)
Definition monthOfOrder (tz now : Z) (o : History.Order) : Z :=
  monthIndex (LocalTime tz (sortKey tz now o)).

(** Every order of [s1] is dated after every order of [s2]. *)
Definition allNewer (tz now : Z) (s1 s2 : History.Section) : Prop :=
  forall a b : History.Order,
    In a (History.data s1) -> In b (History.data s2) ->
    sortKey tz now b < sortKey tz now a.

(** The five required fields of the form are filled. *)
Definition requiredFilled (f : Form) : bool :=
  truthy (orderId f) && truthy (clientName f) && truthy (mobile f)
  && truthy (address f) && truthy (quotationAmount f).

(** The clients that [loadClients] hands over. *)
Definition readableClients (e : Env) (w : World) : list Client :=
  if fails e (GetItem KClients) then []
  else match clients w with Items l => l | _ => [] end.

(** Every stored order names a file that has been written. *)
Definition pdfOnDisk (w : World) : Prop :=
  match orders w with
  | Items os =>
      forall (so : StoredOrder) (u : string),
        In (Some so) os -> o_pdfUri so = Some u -> In u (files w)
  | _ => True
  end.

Definition fieldOf (fd : Field) (b : OrderBlock) : string :=
  match fd with
  | Description => b_description b
  | Notes => b_notes b
  | Guests => b_guests b
  end.

(** The path under which the quotation of the form is kept. *)
Definition finalUriOf (e : Env) (f : Form) : string :=
  BBN_DIR e +:+ orderId f +:+ ".pdf".

(** The text of the event date and time that is stored with an order. *)
Definition dateTimeText (e : Env) (d t : Z) : string :=
  toLocaleDateString_enGB (tz e) d +:+ " at "
  +:+ toLocaleTimeString_enUS (tz e) t.

(** Other applications that accept every link and every file. *)
Definition apps_ok : Apps :=
  mkApps (fun _ => Some true) (fun _ => true) (fun _ => true).

(** A device without WhatsApp. *)
Definition apps_without_whatsapp : Apps :=
  mkApps (fun _ => Some false) (fun _ => true) (fun _ => true).

(** The fresh form after the client name has been typed. *)
Definition form_named (name : string) : Form :=
  mkForm "" name "" "" (Some 1762000000000) 1762000000000
    [mkBlock "1" "" "" ""] "" false "".

Definition screen_of (f : Form) (w : World) : Screen :=
  mkScreen (mkSt f w) [] [].

End ScreenSpec.

(** ** The date functions in a zone that changes its clock

    Above, local time is UTC plus one offset. On a device the offset is
    that of its time zone, which is fixed only between two clock changes.
    Here the date constructor, the getters, the two formatters, [parseDate]
    and [formatDateTime] are given for a zone with its changes, as the
    language standard resolves them (its LocalTZA); with no change in the
    zone they are the functions above. *)

Module Zoned.
Import JS JSDate.

(** The offset before the first change, and the changes in order of time:
    the instant (UTC) from which a change holds, and its offset. *)
Record Zone : Type := mkZone {
  initialOffset : Z;
  changes : list (Z * Z)
}.

Fixpoint offsetFrom (o : Z) (cs : list (Z * Z)) (t : Z) : Z :=
  match cs with
  | [] => o
  | (a, o') :: r => if t <? a then o else offsetFrom o' r t
  end.

(** The offset in force at the instant [t]. *)
Definition offsetAt (z : Zone) (t : Z) : Z :=
  offsetFrom (initialOffset z) (changes z) t.

Fixpoint localOffsetFrom (o : Z) (cs : list (Z * Z)) (tl : Z) : Z :=
  match cs with
  | [] => o
  | (a, o') :: r =>
      if tl <? a + Z.max o o' then o else localOffsetFrom o' r tl
  end.

(** The offset by which the local time [tl] is read. A local time that a
    change skips (the clock is put forward) or repeats (the clock is put
    back) is read with the offset before the change. *)
Definition offsetOfLocal (z : Zone) (tl : Z) : Z :=
  localOffsetFrom (initialOffset z) (changes z) tl.

Definition LocalTime (z : Zone) (t : Z) : Z := t + offsetAt z t.

Definition UTC (z : Zone) (tl : Z) : Z := tl - offsetOfLocal z tl.

(** [new Date(y, m, d, h, mi)] *)
Definition newDate (z : Zone) (y m d : JSNumber) (h mi : Z) : Date :=
  match y, m, d with
  | JFin ym ye, JFin mm me, JFin dm de =>
      let yt := truncate ym ye in
      let yr := if (0 <=? yt) && (yt <=? 99) then 1900 + yt else yt in
      match MakeDay yr (truncate mm me) (truncate dm de) with
      | Some day => TimeClip (UTC z (day * msPerDay + MakeTime h mi))
      | None => None
      end
  | _, _, _ => None
  end.

Definition getFullYear (z : Zone) (d : Date) : option Z :=
  option_map (fun t => YearFromTime (LocalTime z t)) d.
Definition getMonth (z : Zone) (d : Date) : option Z :=
  option_map (fun t => MonthFromTime (LocalTime z t)) d.
Definition getDate (z : Zone) (d : Date) : option Z :=
  option_map (fun t => DateFromTime (LocalTime z t)) d.
Definition getHours (z : Zone) (d : Date) : option Z :=
  option_map (fun t => HourFromTime (LocalTime z t)) d.
Definition getMinutes (z : Zone) (d : Date) : option Z :=
  option_map (fun t => MinFromTime (LocalTime z t)) d.

(** The formatters show the instant with the offset in force at it. *)
Definition toLocaleDateString_enGB (z : Zone) (t : Z) : string :=
  JSDate.toLocaleDateString_enGB (offsetAt z t) t.

Definition toLocaleTimeString_enUS (z : Zone) (t : Z) : string :=
  JSDate.toLocaleTimeString_enUS (offsetAt z t) t.

(** [parseDate] of the history screen. *)
Definition parseDate (z : Zone) (now : Z) (s : option string) : Date :=
  match s with
  | None => Some now
  | Some s =>
      if negb (truthy s) then Some now else
      match split " at " s with
      | [datePart; timePart] =>
          let nums := List.map Number (split "/" datePart) in
          match nums with
          | [d; m; y] =>
              if existsb isNaN nums then Some now else
              match History.matchTime timePart with
              | None => Some now
              | Some (h, mi, ampm) =>
                  let hour := parseInt h in
                  let minute := parseInt mi in
                  newDate z y (pred m) d (History.to24 ampm hour) minute
              end
          | _ => Some now
          end
      | _ => Some now
      end
  end.

(** [formatDateTime] of the order form; [None] when the form has no date
    (the call on it throws). *)
Definition formatDateTime (z : Zone) (f : OrderForm.Form) : option string :=
  match OrderForm.date f with
  | None => None
  | Some d =>
      Some (toLocaleDateString_enGB z d +:+ " at "
            +:+ toLocaleTimeString_enUS z (OrderForm.time f))
  end.

End Zoned.

(** ** Notions for zones, sample zones *)

Module ZoneSpec.
Import JS JSDate Zoned.

(** A zone without clock changes. *)
Definition fixedZone (tz : Z) : Zone := mkZone tz [].

Definition within (o : Z) : bool := (- msPerDay <=? o) && (o <=? msPerDay).

(** Offsets of at most a day, and more than two days from a change to the
    next. *)
Fixpoint orderly (cs : list (Z * Z)) : bool :=
  match cs with
  | [] => true
  | (a, o) :: r =>
      within o && forallb (fun c => a + 2 * msPerDay <=? fst c) r && orderly r
  end.

Definition wellFormed (z : Zone) : bool :=
  within (initialOffset z) && orderly (changes z).

(** Some instant shows the local time [tl] in the zone. *)
Definition shownSometime (z : Zone) (tl : Z) : Prop :=
  exists t : Z, Zoned.LocalTime z t = tl.

(** New York with its clock changes of 2025: five hours west of Greenwich,
    four from 9 March 2025, 07:00 UTC, to 2 November 2025, 06:00 UTC. *)
Definition newYork2025 : Zone :=
  mkZone (-18000000) [(1741503600000, -14400000); (1762063200000, -18000000)].

(** A form with the event date [d] and the event time [t]. *)
Definition form_at (d t : Z) : OrderForm.Form :=
  OrderForm.mkForm "" "A" "9876543210" "Delhi" (Some d) t
    [mkBlock "1" "Paneer tikka" "" "50"] "25000" false "".

End ZoneSpec.

(** ** Notions for the structure of a date and time text *)

Module ParseSpec.
Import JS Spec.








End ParseSpec.

(** ** Notions for the repair of the stored orders *)

Module RepairSpec.
Import JS Device Spec.

(** The entry has an id, a dateTime and a pdfUri, none of them empty. *)
Definition usable (so : StoredOrder) : Prop :=
  nonEmpty (o_id so) /\ nonEmpty (o_dateTime so) /\ nonEmpty (o_pdfUri so).

(** Position [k] of the stored array holds a usable entry, and no usable
    entry before it has the same id. *)
Definition firstOfItsId (os : list Entry) (k : nat) : Prop :=
  exists so : StoredOrder,
    os !! k = Some (Some so) /\ usable so
    /\ forall (j : nat) (so' : StoredOrder),
         (j < k)%nat -> os !! j = Some (Some so') -> usable so' ->
         o_id so' <> o_id so.

(** Two usable entries of the stored array have the same id. *)
Definition repeatedId (os : list Entry) : Prop :=
  exists (j k : nat) (so so' : StoredOrder),
    (j < k)%nat /\ os !! j = Some (Some so) /\ os !! k = Some (Some so')
    /\ usable so /\ usable so' /\ o_id so = o_id so'.

(** The order [o] is the stored entry [so], a missing field taking its
    default. *)
Definition shownAs (so : StoredOrder) (o : History.Order) : Prop :=
  o_id so = Some (History.id o)
  /\ o_dateTime so = Some (History.dateTime o)
  /\ o_pdfUri so = Some (History.pdfUri o)
  /\ History.clientName o = default "" (o_clientName so)
  /\ History.mobile o = default "" (o_mobile so)
  /\ History.address o = default "" (o_address so)
  /\ History.orderBlocks o = default [] (o_orderBlocks so)
  /\ History.quotationAmount o = default "0" (o_quotationAmount so).

(** An order as it is written to the store: every field is there. *)
Definition storedAs (o : History.Order) : Entry :=
  Some (mkStored (Some (History.id o)) (Some (History.clientName o))
          (Some (History.mobile o)) (Some (History.address o))
          (Some (History.dateTime o)) (Some (History.orderBlocks o))
          (Some (History.quotationAmount o)) (Some (History.pdfUri o))).

(** The orders that the sections show, section after section. *)
Definition shownOrders (ss : list History.Section) : list History.Order :=
  List.concat (List.map History.data ss).

End RepairSpec.

(** * Properties *)

Import JS JSDate Device Spec FormSpec HistorySpec.

#[local] Arguments String.append !s1 s2 : simpl nomatch.

(** ** Text *)

Module TextFacts.

Lemma app_nil_r (s : string) : s +:+ "" = s.
Proof. induction s as [|c s IH]; simpl; [reflexivity | now rewrite IH]. Qed.

Lemma app_assoc (a b c : string) : (a +:+ b) +:+ c = a +:+ b +:+ c.
Proof. induction a as [|x a IH]; simpl; [reflexivity | now rewrite IH]. Qed.

Lemma length_app (a b : string) :
  String.length (a +:+ b) = (String.length a + String.length b)%nat.
Proof. induction a as [|x a IH]; simpl; [reflexivity | now rewrite IH]. Qed.

Lemma app_cons (c : ascii) (a b : string) :
  String c a +:+ b = String c (a +:+ b).
Proof. reflexivity. Qed.

Lemma allChars_app (p : ascii -> bool) (a b : string) :
  allChars p (a +:+ b) = allChars p a && allChars p b.
Proof.
  induction a as [|x a IH]; simpl; [reflexivity |].
  rewrite IH. now destruct (p x).
Qed.

Lemma allChars_impl (p q : ascii -> bool) (s : string) :
  (forall c, p c = true -> q c = true) ->
  allChars p s = true -> allChars q s = true.
Proof.
  intros Hpq. induction s as [|x s IH]; simpl; [reflexivity |].
  intros [Hx Hs]%andb_true_iff. rewrite (Hpq _ Hx). now apply IH.
Qed.

Lemma allChars_repeat (p : ascii -> bool) (c : ascii) (n : nat) :
  p c = true -> allChars p (repeatChar c n) = true.
Proof. intros Hc. induction n as [|n IH]; simpl; [reflexivity | now rewrite Hc]. Qed.

Lemma span_app (p : ascii -> bool) (a r : string) :
  allChars p a = true -> stops p r = true -> span p (a +:+ r) = (a, r).
Proof.
  intros Ha Hr. induction a as [|x a IH]; simpl in *.
  - destruct r as [|c r]; simpl in *; [reflexivity |].
    now destruct (p c).
  - apply andb_true_iff in Ha as [Hx Ha]. rewrite Hx, (IH Ha). reflexivity.
Qed.

Lemma span_all (p : ascii -> bool) (a : string) :
  allChars p a = true -> span p a = (a, EmptyString).
Proof.
  intros Ha. rewrite <- (app_nil_r a) at 1. now apply span_app.
Qed.

Lemma code_inj_test (c : ascii) (k : Z) (d : ascii) :
  code d = k -> code c <> k -> Ascii.eqb c d = false.
Proof.
  intros Hd Hc. destruct (Ascii.eqb_spec c d) as [->| ]; [congruence | reflexivity].
Qed.

Lemma isDigit_code (c : ascii) : isDigit c = true <-> 48 <= code c <= 57.
Proof. unfold isDigit. rewrite andb_true_iff, !Z.leb_le. tauto. Qed.

Lemma isDigit_not (c d : ascii) :
  isDigit c = true -> isDigit d = false -> Ascii.eqb c d = false.
Proof.
  intros Hc Hd. destruct (Ascii.eqb_spec c d) as [->| ]; [congruence | reflexivity].
Qed.

Lemma isDigit_not_space (c : ascii) : isDigit c = true -> isSpace c = false.
Proof.
  rewrite isDigit_code. unfold isSpace. intros H.
  apply orb_false_iff. split.
  - apply andb_false_iff. right. apply Z.leb_gt. lia.
  - apply Z.eqb_neq. lia.
Qed.

Lemma digitOf_digit (c : ascii) :
  isDigit c = true -> digitOf 10 c = Some (code c - 48).
Proof.
  intros H. unfold digitOf. unfold isDigit in H. rewrite H.
  apply isDigit_code in H.
  destruct (Z.ltb_spec (code c - 48) 10); [reflexivity | lia].
Qed.

(** *** Decimal numerals *)

Lemma uint_digits (d : Decimal.uint) :
  allChars isDigit (NilEmpty.string_of_uint d) = true.
Proof. induction d; simpl; auto. Qed.

Lemma uint_value_acc (d : Decimal.uint) (acc : positive) :
  digitsAcc 10 (Z.pos acc) (NilEmpty.string_of_uint d)
  = Z.pos (Pos.of_uint_acc d acc).
Proof.
  revert acc. induction d; intros acc; simpl; [reflexivity | ..];
    rewrite <- IHd; f_equal;
    match goal with
    | |- context [code ?c] =>
        let v := eval vm_compute in (code c) in change (code c) with v
    end; lia.
Qed.

Lemma uint_value (d : Decimal.uint) :
  digitsAcc 10 0 (NilEmpty.string_of_uint d) = Z.of_N (Pos.of_uint d).
Proof.
  induction d; simpl; [reflexivity | exact IHd | ..];
    apply (uint_value_acc d).
Qed.

Lemma StringZ_pos (p : positive) :
  StringZ (Z.pos p) = NilEmpty.string_of_uint (Pos.to_uint p).
Proof.
  unfold StringZ. simpl.
  pose proof (DecimalPos.Unsigned.to_uint_nonnil p) as Hn.
  destruct (Pos.to_uint p); [congruence | reflexivity ..].
Qed.

Lemma StringZ_digits (z : Z) : 0 <= z -> allChars isDigit (StringZ z) = true.
Proof.
  destruct z as [|p|p]; intros Hz; [reflexivity | | lia].
  rewrite StringZ_pos. apply uint_digits.
Qed.

Lemma StringZ_truthy (z : Z) : truthy (StringZ z) = true.
Proof.
  destruct z as [|p|p]; [reflexivity | | reflexivity].
  rewrite StringZ_pos.
  pose proof (DecimalPos.Unsigned.to_uint_nonnil p) as Hn.
  destruct (Pos.to_uint p); [congruence | reflexivity ..].
Qed.

Lemma StringZ_value (z : Z) : 0 <= z -> digitsVal (StringZ z) = z.
Proof.
  destruct z as [|p|p]; intros Hz; [reflexivity | | lia].
  rewrite StringZ_pos. unfold digitsVal. rewrite uint_value.
  now rewrite DecimalPos.Unsigned.of_to.
Qed.


Lemma digitsAcc_zeros (n : nat) (s : string) :
  digitsAcc 10 0 (repeatChar "0" n +:+ s) = digitsAcc 10 0 s.
Proof. induction n as [|n IH]; simpl; [reflexivity | exact IH]. Qed.

Lemma padStart_digits (w : nat) (s : string) :
  allChars isDigit s = true -> allChars isDigit (padStart w "0" s) = true.
Proof.
  intros Hs. unfold padStart. rewrite allChars_app, Hs, allChars_repeat; reflexivity.
Qed.

Lemma padStart_truthy (w : nat) (c : ascii) (s : string) :
  truthy s = true -> truthy (padStart w c s) = true.
Proof.
  unfold padStart. destruct (w - String.length s)%nat; simpl; [| reflexivity].
  now destruct s.
Qed.

Lemma padStart_value (w : nat) (s : string) :
  digitsVal (padStart w "0" s) = digitsVal s.
Proof. unfold digitsVal, padStart. apply digitsAcc_zeros. Qed.

Lemma padStart_length (w : nat) (c : ascii) (s : string) :
  String.length (padStart w c s) = Nat.max w (String.length s).
Proof.
  unfold padStart. rewrite length_app.
  assert (String.length (repeatChar c (w - String.length s))
          = (w - String.length s)%nat) as ->.
  { induction (w - String.length s)%nat; simpl; congruence. }
  lia.
Qed.

(** *** [Number] on a run of digits *)

Lemma trimEnd_id (s : string) :
  allChars (fun c => negb (isSpace c)) s = true -> trimEnd s = s.
Proof.
  induction s as [|c s IH]; simpl; [reflexivity |].
  intros [Hc Hs]%andb_true_iff. rewrite (IH Hs).
  destruct s; [| reflexivity].
  now destruct (isSpace c).
Qed.

Lemma digits_no_space (s : string) :
  allChars isDigit s = true -> allChars (fun c => negb (isSpace c)) s = true.
Proof.
  apply allChars_impl. intros c Hc. now rewrite (isDigit_not_space c Hc).
Qed.

Lemma trim_digits (s : string) : allChars isDigit s = true -> trim s = s.
Proof.
  intros Hs. unfold trim.
  assert (trimStart s = s) as ->.
  { destruct s as [|c r]; [reflexivity |]. simpl in *.
    apply andb_true_iff in Hs as [Hc _]. now rewrite (isDigit_not_space c Hc). }
  now apply trimEnd_id, digits_no_space.
Qed.

Lemma radixOf_digit (c : ascii) : isDigit c = true -> radixOf c = None.
Proof.
  intros Hc. unfold radixOf.
  rewrite !(isDigit_not c _ Hc); reflexivity.
Qed.

Lemma Number_digits (s : string) :
  allChars isDigit s = true -> truthy s = true ->
  Number s = JFin (digitsVal s) 0.
Proof.
  intros Hs Ht. unfold Number. rewrite (trim_digits s Hs).
  destruct s as [|c r]; [discriminate |].
  pose proof Hs as Hs'. simpl in Hs'. apply andb_true_iff in Hs' as [Hc Hr].
  assert (radixPrefix (String c r) = None) as ->.
  { destruct r as [|c2 r2]; simpl; [reflexivity |].
    simpl in Hr. apply andb_true_iff in Hr as [Hc2 _].
    rewrite (radixOf_digit c2 Hc2). now destruct (Ascii.eqb c "0"). }
  rewrite !(isDigit_not c _ Hc) by reflexivity.
  unfold unsignedDecimal.
  assert (String.eqb (String c r) "Infinity" = false) as ->.
  { simpl. now rewrite (isDigit_not c "I" Hc). }
  rewrite (span_all isDigit _ Hs). cbn -[digitsVal].
  now rewrite app_nil_r.
Qed.

(** *** [split] *)

Lemma prefix_app (sep r : string) : String.prefix sep (sep +:+ r) = true.
Proof.
  induction sep as [|c sep IH]; simpl; [now destruct r |].
  destruct (ascii_dec c c); [exact IH | congruence].
Qed.

Lemma prefix_head (c0 c : ascii) (sep r : string) :
  Ascii.eqb c c0 = false -> String.prefix (String c0 sep) (String c r) = false.
Proof.
  intros Hc. simpl. destruct (ascii_dec c0 c) as [->|]; [| reflexivity].
  now rewrite Ascii.eqb_refl in Hc.
Qed.

Lemma split_go_skip (sep u r : string) :
  split_go sep (String.length u) (u +:+ r) = split_go sep 0 r.
Proof. induction u as [|c u IH]; simpl; [reflexivity | exact IH]. Qed.

Lemma split_go_cons (sep : string) (c : ascii) (r : string) :
  split_go sep 0 (String c r)
  = if String.prefix sep (String c r)
    then EmptyString :: split_go sep (String.length sep - 1) r
    else match split_go sep 0 r with
         | p :: ps => String c p :: ps
         | [] => [String c EmptyString]
         end.
Proof. reflexivity. Qed.

Lemma split_hit (c0 : ascii) (sep r : string) :
  split (String c0 sep) (String c0 sep +:+ r)
  = EmptyString :: split (String c0 sep) r.
Proof.
  unfold split. rewrite app_cons, split_go_cons.
  rewrite <- app_cons, prefix_app.
  replace (String.length (String c0 sep) - 1)%nat with (String.length sep)
    by (simpl; lia).
  now rewrite split_go_skip.
Qed.

Lemma split_miss (sep : string) (c : ascii) (r : string) :
  String.prefix sep (String c r) = false ->
  split sep (String c r)
  = match split sep r with
    | p :: ps => String c p :: ps
    | [] => [String c EmptyString]
    end.
Proof. intros H. unfold split. now rewrite split_go_cons, H. Qed.

(** A separator is found right after a prefix that lacks its first
    character. *)
Lemma split_first (c0 : ascii) (sep p r : string) :
  allChars (fun c => negb (Ascii.eqb c c0)) p = true ->
  split (String c0 sep) (p +:+ String c0 sep +:+ r)
  = p :: split (String c0 sep) r.
Proof.
  intros Hp. induction p as [|c p IH].
  - apply split_hit.
  - simpl in Hp. apply andb_true_iff in Hp as [Hc Hp].
    apply negb_true_iff in Hc.
    rewrite app_cons, split_miss by now apply prefix_head.
    now rewrite (IH Hp).
Qed.

Lemma split_absent (sep s : string) :
  occursIn sep s = false -> split sep s = [s].
Proof.
  induction s as [|c s IH]; intros H; [reflexivity |].
  simpl in H. apply orb_false_iff in H as [Hp Hs].
  rewrite split_miss by exact Hp. now rewrite (IH Hs).
Qed.

Lemma absent_head (c0 : ascii) (sep s : string) :
  allChars (fun c => negb (Ascii.eqb c c0)) s = true ->
  occursIn (String c0 sep) s = false.
Proof.
  induction s as [|c s IH]; intros H; [reflexivity |].
  simpl in H. apply andb_true_iff in H as [Hc Hs]. apply negb_true_iff in Hc.
  change (occursIn (String c0 sep) (String c s))
    with (String.prefix (String c0 sep) (String c s) || occursIn (String c0 sep) s).
  now rewrite (prefix_head c0 c sep s Hc), (IH Hs).
Qed.

(** [" at "] cannot occur in a text without the letter a. *)
Lemma absent_second (c0 c1 : ascii) (sep s : string) :
  allChars (fun c => negb (Ascii.eqb c c1)) s = true ->
  occursIn (String c0 (String c1 sep)) s = false.
Proof.
  induction s as [|c s IH]; intros H; [reflexivity |].
  simpl in H. apply andb_true_iff in H as [Hc Hs].
  change (occursIn (String c0 (String c1 sep)) (String c s))
    with (String.prefix (String c0 (String c1 sep)) (String c s)
          || occursIn (String c0 (String c1 sep)) s).
  rewrite (IH Hs), orb_false_r.
  simpl. destruct (ascii_dec c0 c); [| reflexivity].
  destruct s as [|c' s']; [reflexivity |].
  simpl in Hs. apply andb_true_iff in Hs as [Hc' _]. apply negb_true_iff in Hc'.
  simpl. destruct (ascii_dec c1 c') as [->|]; [| reflexivity].
  now rewrite Ascii.eqb_refl in Hc'.
Qed.

(** *** The canonical date and time text *)

Lemma digits_not (c0 : ascii) (s : string) :
  isDigit c0 = false ->
  allChars isDigit s = true ->
  allChars (fun c => negb (Ascii.eqb c c0)) s = true.
Proof.
  intros H0. apply allChars_impl. intros c Hc.
  now rewrite (isDigit_not c c0 Hc H0).
Qed.

Lemma matchTime_unfold (s : string) :
  History.matchTime s
  = match History.matchTimeHere s with
    | Some r => Some r
    | None =>
        match s with
        | EmptyString => None
        | String _ s' => History.matchTime s'
        end
    end.
Proof. destruct s; reflexivity. Qed.

Lemma matchTime_here (s : string) (r : string * string * string) :
  History.matchTimeHere s = Some r -> History.matchTime s = Some r.
Proof. intros H. now rewrite matchTime_unfold, H. Qed.

Lemma matchTime_canonical (hh mi : string) (pm : bool) :
  allChars isDigit hh = true -> truthy hh = true ->
  allChars isDigit mi = true -> truthy mi = true ->
  History.matchTime (hh +:+ ":" +:+ mi +:+ " " +:+ meridiem pm)
  = Some (hh, mi, meridiem pm).
Proof.
  intros Hh Th Hm Tm. apply matchTime_here.
  { unfold History.matchTimeHere.
    rewrite (span_app isDigit hh _ Hh) by reflexivity.
    rewrite Th. simpl negb. cbv iota.
    change (":" +:+ mi +:+ " " +:+ meridiem pm)
      with (String ":" (mi +:+ " " +:+ meridiem pm)).
    cbv iota. change (":" =? ":")%char with true. simpl negb. cbv iota.
    rewrite (span_app isDigit mi _ Hm) by reflexivity.
    rewrite Tm. simpl negb. cbv iota.
    now destruct pm. }
Qed.

Lemma time_no_a (hh mi : string) (pm : bool) :
  allChars isDigit hh = true -> allChars isDigit mi = true ->
  allChars (fun c => negb (Ascii.eqb c "a"))
    (hh +:+ ":" +:+ mi +:+ " " +:+ meridiem pm) = true.
Proof.
  intros Hh Hm.
  rewrite !allChars_app, (digits_not "a" hh), (digits_not "a" mi) by easy.
  now destruct pm.
Qed.

Lemma date_no_space (dd mm yy : string) :
  allChars isDigit dd = true -> allChars isDigit mm = true ->
  allChars isDigit yy = true ->
  allChars (fun c => negb (Ascii.eqb c " ")) (dd +:+ "/" +:+ mm +:+ "/" +:+ yy)
  = true.
Proof.
  intros Hd Hm Hy.
  now rewrite !allChars_app, (digits_not " " dd), (digits_not " " mm),
    (digits_not " " yy).
Qed.

Lemma split_date (dd mm yy : string) :
  allChars isDigit dd = true -> allChars isDigit mm = true ->
  allChars isDigit yy = true ->
  split "/" (dd +:+ "/" +:+ mm +:+ "/" +:+ yy) = [dd; mm; yy].
Proof.
  intros Hd Hm Hy.
  rewrite (split_first "/" "" dd) by now apply digits_not.
  rewrite (split_first "/" "" mm) by now apply digits_not.
  rewrite split_absent; [reflexivity |].
  now apply absent_head, digits_not.
Qed.

Lemma canonical_assoc (dd mm yy hh mi : string) (pm : bool) :
  canonical dd mm yy hh mi pm
  = (dd +:+ "/" +:+ mm +:+ "/" +:+ yy) +:+ " at "
    +:+ (hh +:+ ":" +:+ mi +:+ " " +:+ meridiem pm).
Proof. unfold canonical. now rewrite !app_assoc. Qed.

Lemma split_canonical (dd mm yy hh mi : string) (pm : bool) :
  allChars isDigit dd = true -> allChars isDigit mm = true ->
  allChars isDigit yy = true ->
  allChars isDigit hh = true -> allChars isDigit mi = true ->
  split " at " (canonical dd mm yy hh mi pm)
  = [dd +:+ "/" +:+ mm +:+ "/" +:+ yy; hh +:+ ":" +:+ mi +:+ " " +:+ meridiem pm].
Proof.
  intros Hd Hm Hy Hh Hi. rewrite canonical_assoc.
  rewrite (split_first " " "at " _ _ (date_no_space dd mm yy Hd Hm Hy)).
  rewrite split_absent; [reflexivity |].
  apply (absent_second " " "a" "t "). now apply time_no_a.
Qed.

(** Whatever the numbers are, a text in the canonical form is parsed from
    its components. *)
Lemma parseDate_canonical (tz now : Z) (dd mm yy hh mi : string) (pm : bool) :
  allChars isDigit dd = true -> truthy dd = true ->
  allChars isDigit mm = true -> truthy mm = true ->
  allChars isDigit yy = true -> truthy yy = true ->
  allChars isDigit hh = true -> truthy hh = true ->
  allChars isDigit mi = true -> truthy mi = true ->
  History.parseDate tz now (Some (canonical dd mm yy hh mi pm))
  = newDate tz (JFin (digitsVal yy) 0) (JFin (digitsVal mm - 1) 0)
      (JFin (digitsVal dd) 0)
      (History.to24 (meridiem pm) (digitsVal hh)) (digitsVal mi).
Proof.
  intros Hd Td Hm Tm Hy Ty Hh Th Hi Ti.
  unfold History.parseDate.
  assert (truthy (canonical dd mm yy hh mi pm) = true) as ->.
  { unfold canonical. destruct dd; [discriminate | reflexivity]. }
  simpl negb. cbv iota.
  rewrite split_canonical by assumption.
  rewrite split_date by assumption.
  simpl List.map.
  rewrite !Number_digits by assumption.
  simpl existsb. cbv iota.
  rewrite matchTime_canonical by assumption.
  unfold parseInt, pred. simpl (0 <=? 0). cbv iota.
  now rewrite Z.pow_0_r, Z.mul_1_r.
Qed.

(** [split] cuts the text at separators only: joining the parts with the
    separator gives the text back. *)
Lemma prefix_cut (a b : string) :
  String.prefix a b = true -> exists r, b = a +:+ r.
Proof.
  revert b. induction a as [|x a IH]; intros b H.
  - now exists b.
  - destruct b as [|y b]; [discriminate |]. simpl in H.
    destruct (ascii_dec x y) as [->|]; [| discriminate].
    destruct (IH b H) as (r & ->). now exists r.
Qed.

Lemma split_nonempty (sep s : string) : split sep s <> [].
Proof.
  unfold split. generalize 0%nat as k.
  induction s as [|c s IH]; intros k; [intros H; discriminate H |].
  destruct k as [|k]; [| apply IH].
  rewrite split_go_cons.
  destruct (String.prefix sep (String c s)); [intros H; discriminate H |].
  destruct (split_go sep 0 s); intros H; discriminate H.
Qed.

Lemma concat_head (sep : string) (c : ascii) (p : string) (ps : list string) :
  String.concat sep (String c p :: ps) = String c (String.concat sep (p :: ps)).
Proof. destruct ps; reflexivity. Qed.

Lemma split_join (c0 : ascii) (sep s : string) :
  String.concat (String c0 sep) (split (String c0 sep) s) = s.
Proof.
  remember (String.length s) as n eqn:Hn. revert s Hn.
  induction n as [n IH] using lt_wf_ind. intros s Hn.
  destruct s as [|c s]; [reflexivity |].
  destruct (String.prefix (String c0 sep) (String c s)) eqn:Hp.
  - destruct (prefix_cut _ _ Hp) as (r & Hr). rewrite Hr, split_hit.
    assert (String.concat (String c0 sep) (split (String c0 sep) r) = r) as Hrec.
    { apply (IH (String.length r)); [| reflexivity].
      rewrite Hn, Hr, length_app. simpl. lia. }
    pose proof (split_nonempty (String c0 sep) r) as Hne.
    destruct (split (String c0 sep) r) as [|p ps] eqn:Hs; [congruence |].
    change (String.concat (String c0 sep) ("" :: p :: ps))
      with ("" +:+ String c0 sep +:+ String.concat (String c0 sep) (p :: ps)).
    now rewrite Hrec.
  - rewrite split_miss by exact Hp.
    assert (String.concat (String c0 sep) (split (String c0 sep) s) = s) as Hrec.
    { apply (IH (String.length s)); [| reflexivity]. rewrite Hn. simpl. lia. }
    pose proof (split_nonempty (String c0 sep) s) as Hne.
    destruct (split (String c0 sep) s) as [|p ps] eqn:Hs; [congruence |].
    now rewrite concat_head, Hrec.
Qed.

End TextFacts.

(** ** Calendar *)

Module CalendarFacts.
Import TextFacts.

Lemma YearFromDay_lower (d : Z) : DayFromYear (YearFromDay d) <= d.
Proof.
  unfold YearFromDay.
  destruct (Z.ltb_spec d (DayFromYear (1970 + 400 * d / 146097))).
  - unfold DayFromYear in *. Z.to_euclidean_division_equations; lia.
  - destruct (Z.leb_spec (DayFromYear (1970 + 400 * d / 146097 + 1)) d); lia.
Qed.

Lemma YearFromDay_upper (d : Z) : d < DayFromYear (YearFromDay d + 1).
Proof.
  unfold YearFromDay.
  destruct (Z.ltb_spec d (DayFromYear (1970 + 400 * d / 146097))).
  - replace (1970 + 400 * d / 146097 - 1 + 1) with (1970 + 400 * d / 146097)
      by lia.
    lia.
  - destruct (Z.leb_spec (DayFromYear (1970 + 400 * d / 146097 + 1)) d);
      [| lia].
    unfold DayFromYear in *. Z.to_euclidean_division_equations; lia.
Qed.

Lemma DayFromYear_succ (y : Z) :
  DayFromYear (y + 1) = DayFromYear y + (if InLeapYear y then 366 else 365).
Proof.
  unfold DayFromYear, InLeapYear.
  destruct (Z.eqb_spec (y mod 4) 0), (Z.eqb_spec (y mod 100) 0),
    (Z.eqb_spec (y mod 400) 0); simpl;
    Z.to_euclidean_division_equations; lia.
Qed.

Lemma DayWithinYear_range (t : Z) :
  0 <= DayWithinYear t < (if InLeapYear (YearFromTime t) then 366 else 365).
Proof.
  unfold DayWithinYear, YearFromTime.
  pose proof (YearFromDay_lower (Day t)).
  pose proof (YearFromDay_upper (Day t)) as Hu.
  rewrite DayFromYear_succ in Hu. lia.
Qed.

Lemma MonthFromDayInYear_range (leap : bool) (doy : Z) :
  0 <= MonthFromDayInYear leap doy <= 11.
Proof.
  unfold MonthFromDayInYear.
  repeat match goal with
         | |- context [if ?b then _ else _] => destruct b
         end; lia.
Qed.

Lemma daysBeforeMonth_le (leap : bool) (doy : Z) :
  0 <= doy ->
  daysBeforeMonth leap (MonthFromDayInYear leap doy) <= doy.
Proof.
  intros H. unfold MonthFromDayInYear.
  destruct leap;
  repeat match goal with
         | |- context [if ?a <? ?b then _ else _] => destruct (Z.ltb_spec a b)
         end; unfold daysBeforeMonth; cbn; lia.
Qed.

Lemma MonthFromTime_range (t : Z) : 0 <= MonthFromTime t <= 11.
Proof. apply MonthFromDayInYear_range. Qed.

Lemma DateFromTime_pos (t : Z) : 1 <= DateFromTime t.
Proof.
  unfold DateFromTime, MonthFromTime.
  pose proof (DayWithinYear_range t) as [H _].
  pose proof (daysBeforeMonth_le (InLeapYear (YearFromTime t)) _ H). lia.
Qed.

(** The day number is recovered from year, month and day of the month. *)
Lemma MakeDay_fields (t : Z) :
  Z.abs (Day t) <= 99999000 ->
  MakeDay (YearFromTime t) (MonthFromTime t) (DateFromTime t) = Some (Day t).
Proof.
  intros Hb. unfold MakeDay.
  pose proof (MonthFromTime_range t) as Hm.
  rewrite (Z.div_small (MonthFromTime t) 12), (Z.mod_small (MonthFromTime t) 12),
    Z.add_0_r by lia.
  pose proof (DateFromTime_pos t) as Hd.
  assert (DayFromYear (YearFromTime t)
          + daysBeforeMonth (InLeapYear (YearFromTime t)) (MonthFromTime t)
          + DateFromTime t - 1 = Day t) as Heq.
  { unfold DateFromTime, DayWithinYear. lia. }
  pose proof (DayWithinYear_range t) as Hw.
  assert (DateFromTime t <= 366) as Hd2.
  { unfold DateFromTime.
    assert (0 <= daysBeforeMonth (InLeapYear (YearFromTime t)) (MonthFromTime t)).
    { unfold daysBeforeMonth.
      repeat match goal with
             | |- context [if ?b then _ else _] => destruct b
             end; lia. }
    destruct (InLeapYear (YearFromTime t)); lia. }
  destruct (Z.leb_spec
    (Z.abs ((DayFromYear (YearFromTime t)
             + daysBeforeMonth (InLeapYear (YearFromTime t)) (MonthFromTime t))
            * msPerDay)) maxTime) as [_|Hbad].
  - now rewrite Heq.
  - unfold msPerDay, maxTime in Hbad. lia.
Qed.

Lemma HourFromTime_range (t : Z) : 0 <= HourFromTime t < 24.
Proof. unfold HourFromTime. apply Z.mod_pos_bound. lia. Qed.

Lemma MinFromTime_range (t : Z) : 0 <= MinFromTime t < 60.
Proof. unfold MinFromTime. apply Z.mod_pos_bound. lia. Qed.

(** The text of the hour on the 12-hour clock, read back. *)
Lemma to24_of_12 (h : Z) :
  0 <= h < 24 ->
  History.to24 (meridiem (negb (h <? 12)))
    (if h mod 12 =? 0 then 12 else h mod 12) = h.
Proof.
  intros Hh.
  assert (exists n : nat, (n < 24)%nat /\ h = Z.of_nat n) as (n & Hn & ->).
  { exists (Z.to_nat h). lia. }
  do 24 (destruct n as [|n]; [reflexivity |]). lia.
Qed.

(** A local time rebuilt from a day number, an hour and a minute. *)
Lemma rebuilt_Day (day h mi : Z) :
  0 <= h < 24 -> 0 <= mi < 60 ->
  Day (day * msPerDay + MakeTime h mi) = day.
Proof.
  intros Hh Hmi. unfold Day, MakeTime, msPerDay, msPerHour, msPerMinute.
  symmetry. apply (Z.div_unique _ _ _ (h * 3600000 + mi * 60000)); lia.
Qed.

Lemma rebuilt_Hour (day h mi : Z) :
  0 <= h < 24 -> 0 <= mi < 60 ->
  HourFromTime (day * msPerDay + MakeTime h mi) = h.
Proof.
  intros Hh Hmi.
  unfold HourFromTime, MakeTime, msPerDay, msPerHour, msPerMinute.
  assert ((day * 86400000 + (h * 3600000 + mi * 60000)) / 3600000
          = day * 24 + h) as ->.
  { symmetry. apply (Z.div_unique _ _ _ (mi * 60000)); lia. }
  symmetry. apply (Z.mod_unique _ _ day); lia.
Qed.

Lemma rebuilt_Min (day h mi : Z) :
  0 <= h < 24 -> 0 <= mi < 60 ->
  MinFromTime (day * msPerDay + MakeTime h mi) = mi.
Proof.
  intros Hh Hmi.
  unfold MinFromTime, MakeTime, msPerDay, msPerHour, msPerMinute.
  assert ((day * 86400000 + (h * 3600000 + mi * 60000)) / 60000
          = day * 1440 + h * 60 + mi) as ->.
  { symmetry. apply (Z.div_unique _ _ _ 0); lia. }
  symmetry. apply (Z.mod_unique _ _ (day * 24 + h)); lia.
Qed.

Lemma Day_bounds_of_year (t : Z) :
  1000 <= YearFromTime t <= 9999 -> -354286 <= Day t < 2932897.
Proof.
  intros Hy. unfold YearFromTime in Hy.
  pose proof (YearFromDay_lower (Day t)) as Hl.
  pose proof (YearFromDay_upper (Day t)) as Hu.
  unfold DayFromYear in Hl, Hu.
  Z.to_euclidean_division_equations; lia.
Qed.

Lemma truncate_int (m : Z) : truncate m 0 = m.
Proof. unfold truncate. change (0 <=? 0) with true. cbv iota. lia. Qed.

(** The date built from the fields of a date and the clock of a time. *)
Lemma newDate_fields (tz d t : Z) :
  1000 <= YearFromTime (LocalTime tz d) <= 9999 ->
  - msPerDay <= tz <= msPerDay ->
  let l := LocalTime tz d in
  let c := LocalTime tz t in
  newDate tz (JFin (YearFromTime l) 0) (JFin (MonthFromTime l + 1 - 1) 0)
    (JFin (DateFromTime l) 0) (HourFromTime c) (MinFromTime c)
  = Some (Day l * msPerDay + MakeTime (HourFromTime c) (MinFromTime c) - tz).
Proof.
  intros Hy Htz l c. fold l in Hy. clearbody l c.
  unfold newDate. rewrite !truncate_int.
  replace (MonthFromTime l + 1 - 1) with (MonthFromTime l) by lia.
  pose proof (Day_bounds_of_year l Hy) as Hd.
  assert ((0 <=? YearFromTime l) && (YearFromTime l <=? 99) = false) as ->.
  { apply andb_false_iff. right. apply Z.leb_gt. lia. }
  assert (Z.abs (Day l) <= 99999000) as Habs by lia.
  rewrite (MakeDay_fields l Habs).
  unfold TimeClip.
  pose proof (HourFromTime_range c). pose proof (MinFromTime_range c).
  destruct (Z.leb_spec
    (Z.abs (Day l * msPerDay + MakeTime (HourFromTime c) (MinFromTime c) - tz))
    maxTime) as [_|Hbad]; [reflexivity |].
  unfold MakeTime, msPerDay, msPerHour, msPerMinute, maxTime in *. lia.
Qed.

End CalendarFacts.

(** ** The persisted date and time text *)

Module DateFacts.
Import TextFacts CalendarFacts.

Lemma same_day_fields (a b : Z) :
  Day a = Day b ->
  YearFromTime a = YearFromTime b /\ MonthFromTime a = MonthFromTime b
  /\ DateFromTime a = DateFromTime b.
Proof.
  intros H.
  assert (YearFromTime a = YearFromTime b) as Hy
    by (unfold YearFromTime; now rewrite H).
  assert (DayWithinYear a = DayWithinYear b) as Hw
    by (unfold DayWithinYear; now rewrite H, Hy).
  assert (MonthFromTime a = MonthFromTime b) as Hm
    by (unfold MonthFromTime; now rewrite Hy, Hw).
  repeat split; try assumption.
  unfold DateFromTime. now rewrite Hy, Hw, Hm.
Qed.

(** The text written at save time is in the canonical form. *)
Lemma formatted_canonical (tz d t : Z) :
  let l := LocalTime tz d in
  let c := LocalTime tz t in
  toLocaleDateString_enGB tz d +:+ " at " +:+ toLocaleTimeString_enUS tz t
  = canonical (padStart 2 "0" (StringZ (DateFromTime l)))
      (padStart 2 "0" (StringZ (MonthFromTime l + 1)))
      (StringZ (YearFromTime l))
      (StringZ (if HourFromTime c mod 12 =? 0 then 12 else HourFromTime c mod 12))
      (padStart 2 "0" (StringZ (MinFromTime c)))
      (negb (HourFromTime c <? 12)).
Proof.
  intros l c. rewrite canonical_assoc.
  unfold toLocaleDateString_enGB, toLocaleTimeString_enUS. fold l c.
  now destruct (HourFromTime c <? 12).
Qed.












End DateFacts.

(** ** The order form *)

Module FormFacts.
Import TextFacts CalendarFacts OrderForm.

(** ** Order blocks *)

Lemma filter_other_length (i : string) (bs : list OrderBlock) :
  List.NoDup (List.map b_id bs) ->
  (length bs <= S (length (List.filter (fun b => negb (String.eqb (b_id b) i)) bs)))%nat.
Proof.
  induction bs as [|b bs IH]; intros Hnd; simpl; [lia |].
  inversion Hnd as [|? ? Hnotin Hnd']; subst.
  destruct (String.eqb_spec (b_id b) i) as [Heq|Hne]; simpl.
  - assert (List.filter (fun b0 => negb (String.eqb (b_id b0) i)) bs = bs) as ->; [| lia].
    clear IH Hnd Hnd'. induction bs as [|x bs IHbs]; simpl; [reflexivity |].
    simpl in Hnotin.
    destruct (String.eqb_spec (b_id x) i) as [Hx|Hx]; simpl.
    + exfalso. apply Hnotin. left. congruence.
    + f_equal. apply IHbs. intros Hin. apply Hnotin. now right.
  - specialize (IH Hnd'). lia.
Qed.

Lemma filter_NoDup_ids (p : OrderBlock -> bool) (bs : list OrderBlock) :
  List.NoDup (List.map b_id bs) -> List.NoDup (List.map b_id (List.filter p bs)).
Proof.
  induction bs as [|b bs IH]; intros Hnd; simpl; [constructor |].
  inversion Hnd as [|? ? Hnotin Hnd']; subst.
  destruct (p b); simpl; [| now apply IH].
  constructor; [| now apply IH].
  intros Hin. apply Hnotin.
  apply in_map_iff in Hin as (x & Hx & Hin).
  apply in_map_iff. exists x. split; [exact Hx |].
  now apply filter_In in Hin as [Hin _].
Qed.

Lemma filter_nil_iff {A : Type} (p : A -> bool) (l : list A) :
  List.filter p l = [] <-> Forall (fun x => p x = false) l.
Proof.
  induction l as [|x l IH]; simpl.
  - split; [constructor | reflexivity].
  - destruct (p x) eqn:Hx.
    + split; [discriminate |]. intros H. inversion H; congruence.
    + rewrite IH. split; [now constructor | intros H; now inversion H].
Qed.

(** C9. The list of order blocks can be emptied. A new block is named
    after the reading of the clock, so two blocks added at one reading have
    the same id; [removeBlock] checks that more than one block is there and
    then takes out every block with the given id. Removing empties a list
    exactly when it has at least two blocks and all of them have that id:
    starting from one block, adding two blocks at one reading of the clock,
    removing the original and then removing by the new id leaves no block.
    Adding and updating never empty the list, removing is a no-op on a list
    of one block, and while the ids are distinct removing leaves a block;
    after adding one block to a list of one, whose id differs, removing the
    original leaves exactly the new block. *)
Theorem C9_blocks_can_be_emptied (e : Env) (f : Form) (i : string) :
  orderBlocks (addOrderBlock e (addOrderBlock e f))
  = orderBlocks f ++ [mkBlock (StringZ (clock e)) "" "" "";
                      mkBlock (StringZ (clock e)) "" "" ""]
  /\ (orderBlocks (removeBlock i f) = []
      <-> orderBlocks f = []
          \/ ((1 < length (orderBlocks f))%nat
              /\ Forall (fun b => b_id b = i) (orderBlocks f)))
  /\ (forall b : OrderBlock,
        orderBlocks f = [b] -> b_id b <> StringZ (clock e) ->
        orderBlocks
          (removeBlock (StringZ (clock e))
             (removeBlock (b_id b) (addOrderBlock e (addOrderBlock e f))))
        = [])
  /\ orderBlocks
       (removeBlock "1762000000000"
          (removeBlock "1"
             (addOrderBlock env_quiet
                (addOrderBlock env_quiet (initialForm 1762000000000)))))
     = []
  /\ orderBlocks (addOrderBlock e f) <> []
  /\ (forall fd v, length (orderBlocks (updateBlock i fd v f))
                   = length (orderBlocks f))
  /\ (length (orderBlocks f) = 1%nat -> removeBlock i f = f)
  /\ (List.NoDup (blockIds f) -> orderBlocks f <> [] ->
      orderBlocks (removeBlock i f) <> []
      /\ List.NoDup (blockIds (removeBlock i f)))
  /\ (forall b : OrderBlock,
        orderBlocks f = [b] -> b_id b <> StringZ (clock e) ->
        orderBlocks (removeBlock (b_id b) (addOrderBlock e f))
        = [mkBlock (StringZ (clock e)) "" "" ""]).
Proof.
  split.
  { unfold addOrderBlock, setOrderBlocks. simpl.
    now rewrite <- List.app_assoc. }
  split.
  { unfold removeBlock.
    destruct (Nat.ltb_spec 1 (length (orderBlocks f))) as [Hlt|Hge].
    - unfold setOrderBlocks. simpl. rewrite filter_nil_iff. split.
      + intros H. right. split; [exact Hlt |].
        eapply Forall_impl; [exact H |]. simpl. intros b Hb.
        apply negb_false_iff in Hb. now apply String.eqb_eq.
      + intros [H|[_ H]]; [rewrite H in Hlt; simpl in Hlt; lia |].
        eapply Forall_impl; [exact H |]. simpl. intros b ->.
        now rewrite String.eqb_refl.
    - split; [now left |]. intros [H|[H _]]; [exact H | lia]. }
  split.
  { intros b Hb Hne. unfold removeBlock, addOrderBlock, setOrderBlocks.
    simpl. rewrite Hb. simpl. rewrite String.eqb_refl. simpl.
    destruct (String.eqb_spec (StringZ (clock e)) (b_id b)) as [Heq|_];
      [congruence |].
    simpl. now rewrite String.eqb_refl. }
  split; [reflexivity |].
  split.
  { unfold addOrderBlock, setOrderBlocks. simpl. now destruct (orderBlocks f). }
  split.
  { intros fd v. unfold updateBlock, setOrderBlocks. simpl.
    apply List.length_map. }
  split.
  { intros Hlen. unfold removeBlock. now rewrite Hlen. }
  split.
  { intros Hnd Hne. unfold removeBlock, blockIds.
    destruct (Nat.ltb_spec 1 (length (orderBlocks f))) as [Hlt|Hge];
      [| now split].
    unfold setOrderBlocks. simpl. split; [| now apply filter_NoDup_ids].
    intros Hnil.
    pose proof (filter_other_length i (orderBlocks f) Hnd) as Hlen.
    rewrite Hnil in Hlen. simpl in Hlen. lia. }
  intros b Hb Hne. unfold removeBlock, addOrderBlock, setOrderBlocks. simpl.
  rewrite Hb. simpl. rewrite String.eqb_refl. simpl.
  destruct (String.eqb_spec (StringZ (clock e)) (b_id b)) as [Heq|_];
    [congruence | reflexivity].
Qed.

Ltac unfold_m :=
  unfold mbind, M_bind, bind, mret, M_ret, ret, throw, tryCatch, getForm,
    getWorld, putWorld, putForm in *.

(** ** Mobile check *)

Lemma ten_digits_accepted (m : string) :
  String.length m = 10%nat -> allChars isDigit m = true ->
  mobileRejected m = false.
Proof.
  intros Hl Hd. unfold mobileRejected. rewrite Hl. simpl.
  rewrite Number_digits; [reflexivity | exact Hd |].
  now destruct m.
Qed.

Lemma rejected_mobile_blocks (e : Env) (f : Form) (w : World) :
  truthy (orderId f) = true -> truthy (clientName f) = true ->
  truthy (mobile f) = true -> truthy (address f) = true ->
  truthy (quotationAmount f) = true ->
  mobileRejected (mobile f) = true ->
  generateAndSavePDF e (mkSt f w)
  = (Ok None, mkSt (showing "Mobile must be 10 digits." f) w).
Proof.
  intros H1 H2 H3 H4 H5 H6. unfold generateAndSavePDF, setSnackbar. unfold_m.
  simpl. rewrite H1, H2, H3, H4, H5, H6. reflexivity.
Qed.

(** C3. The check of the mobile field at the examples of the
    specification, and at a value of ten characters that are not all
    digits: ["+123456789"] passes the check, and the order is saved. *)
Theorem C3_mobile_check_accepts_signed_number :
  mobileRejected "98765432" = true
  /\ mobileRejected "98765432ab" = true
  /\ mobileRejected "9876543210" = false
  /\ String.length "+123456789" = 10%nat
  /\ allChars isDigit "+123456789" = false
  /\ mobileRejected "+123456789" = false
  /\ fst (generateAndSavePDF env_quiet (mkSt form_plus world_empty))
     = Ok (Some "doc/BBN_Quotations/RAJ05032025Q001.pdf")
  /\ writes (world (snd (generateAndSavePDF env_quiet (mkSt form_plus world_empty))))
     = [KClients; KOrders].
Proof. repeat split; vm_compute; reflexivity. Qed.

(** ** Quotation id *)

Lemma zrange_check (P : Z -> bool) (lo : Z) (n : nat) :
  forallb P (zrange lo n) = true ->
  forall z, lo <= z < lo + Z.of_nat n -> P z = true.
Proof.
  intros Hall z Hz. rewrite forallb_forall in Hall. apply Hall.
  unfold zrange. apply in_map_iff. exists (Z.to_nat (z - lo)).
  split; [lia |]. apply in_seq. lia.
Qed.

Lemma width2 (z : Z) :
  0 <= z < 100 -> String.length (padStart 2 "0" (StringZ z)) = 2%nat.
Proof.
  intros Hz. apply Nat.eqb_eq.
  apply (zrange_check
           (fun z => String.length (padStart 2 "0" (StringZ z)) =? 2)%nat 0 100);
    [vm_compute; reflexivity | lia].
Qed.

Lemma width3 (z : Z) :
  0 <= z < 1000 -> String.length (padStart 3 "0" (StringZ z)) = 3%nat.
Proof.
  intros Hz. apply Nat.eqb_eq.
  apply (zrange_check
           (fun z => String.length (padStart 3 "0" (StringZ z)) =? 3)%nat 0 1000);
    [vm_compute; reflexivity | lia].
Qed.

Lemma width4 (z : Z) :
  1000 <= z <= 9999 -> String.length (StringZ z) = 4%nat.
Proof.
  intros Hz. apply Nat.eqb_eq.
  apply (zrange_check (fun z => String.length (StringZ z) =? 4)%nat 1000 (Z.to_nat 9000));
    [vm_compute; reflexivity | lia].
Qed.

Lemma DateFromTime_le (t : Z) : DateFromTime t <= 31.
Proof.
  unfold DateFromTime, MonthFromTime.
  pose proof (DayWithinYear_range t) as Hr.
  revert Hr. generalize (DayWithinYear t) as doy.
  generalize (InLeapYear (YearFromTime t)) as leap.
  intros leap doy Hr. unfold MonthFromDayInYear.
  destruct leap;
  repeat match goal with
         | |- context [if ?a <? ?b then _ else _] => destruct (Z.ltb_spec a b)
         end; unfold daysBeforeMonth; cbn; lia.
Qed.

Lemma sameBase_filter (base : string) (os : list Entry) (s : St) :
  forallb notNull os = true ->
  sameBase base os s = (Ok (List.filter (idStartsWith base) os), s).
Proof.
  induction os as [|o os IH]; intros Hnn; simpl; [reflexivity |].
  simpl in Hnn. apply andb_true_iff in Hnn as [Ho Hos].
  destruct o as [so|]; [| discriminate].
  unfold_m. rewrite (IH Hos). simpl.
  destruct (o_id so) as [i|]; [| reflexivity].
  now destruct (startsWith base i).
Qed.

(** C1 (amended). When client name and event date are both present and the
    stored orders can be read, the quotation id is the client name in upper
    case without white space, the day and the month of the event date each
    on two digits, the year in decimal (four digits for the years 1000 to
    9999), the letter Q, and one plus the number of stored order ids that
    start with that base, written in decimal and filled with zeros to at
    least three digits (exactly three up to 999). For ["Test User"],
    5 March 2025 and no stored order the id is ["TESTUSER05032025Q001"]. When
    the client name or the date is absent the id is the empty string. *)
Theorem C1_generateOrderId (e : Env) (f : Form) (w : World) :
  (date f = None \/ clientName f = "" ->
   generateOrderId e (mkSt f w) = (Ok "", mkSt f w))
  /\ (forall (d : Z) (os : list Entry),
        date f = Some d -> clientName f <> "" ->
        fails e (GetItem KOrders) = false ->
        storedList (orders w) = Some os ->
        forallb notNull os = true ->
        let l := LocalTime (tz e) d in
        let dd := padStart 2 "0" (StringZ (DateFromTime l)) in
        let mm := padStart 2 "0" (StringZ (MonthFromTime l + 1)) in
        let yyyy := StringZ (YearFromTime l) in
        let base := removeSpaces (toUpperCase (clientName f))
                    +:+ dd +:+ mm +:+ yyyy +:+ "Q" in
        let n := Z.of_nat (length (List.filter (idStartsWith base) os)) in
        exists seq : string,
          generateOrderId e (mkSt f w) = (Ok (base +:+ seq), mkSt f w)
          /\ allChars isDigit seq = true /\ digitsVal seq = n + 1
          /\ (3 <= String.length seq)%nat
          /\ (n + 1 <= 999 -> String.length seq = 3%nat)
          /\ String.length dd = 2%nat /\ digitsVal dd = DateFromTime l
          /\ String.length mm = 2%nat /\ digitsVal mm = MonthFromTime l + 1
          /\ (1000 <= YearFromTime l <= 9999 -> String.length yyyy = 4%nat)
          /\ (0 <= YearFromTime l -> digitsVal yyyy = YearFromTime l))
  /\ (forall (d : Z),
        clientName f = "Test User" -> date f = Some d ->
        DateFromTime (LocalTime (tz e) d) = 5 ->
        MonthFromTime (LocalTime (tz e) d) = 2 ->
        YearFromTime (LocalTime (tz e) d) = 2025 ->
        fails e (GetItem KOrders) = false ->
        orders w = Items [] \/ orders w = Absent ->
        generateOrderId e (mkSt f w) = (Ok "TESTUSER05032025Q001", mkSt f w)).
Proof.
  assert (forall (d : Z) (os : list Entry),
        date f = Some d -> clientName f <> "" ->
        fails e (GetItem KOrders) = false ->
        storedList (orders w) = Some os ->
        forallb notNull os = true ->
        generateOrderId e (mkSt f w)
        = (Ok (baseOf e (clientName f) d
               +:+ padStart 3 "0"
                     (StringZ (Z.of_nat (length (List.filter
                        (idStartsWith (baseOf e (clientName f) d)) os)) + 1))),
           mkSt f w)) as Hrun.
  { intros d os Hd Hn Hf Hs Hnn.
    unfold generateOrderId, getOrders, step, parseItems. unfold_m. simpl.
    rewrite Hd, Hf. destruct (clientName f) as [|c r] eqn:Hname; [congruence |].
    simpl negb. cbv iota.
    destruct (orders w) as [| |l] eqn:Hw; simpl in Hs; try discriminate;
      injection Hs as <-; simpl; rewrite Hw.
    - reflexivity.
    - now rewrite sameBase_filter. }
  split; [| split].
  - intros [Hd|Hn]; unfold generateOrderId; unfold_m; simpl.
    + now rewrite Hd.
    + rewrite Hn. now destruct (date f).
  - intros d os Hd Hn Hf Hs Hnn l dd mm yyyy base n.
    exists (padStart 3 "0" (StringZ (n + 1))).
    pose proof (DateFromTime_pos l) as Hd1.
    pose proof (DateFromTime_le l) as Hd2.
    pose proof (MonthFromTime_range l) as Hm.
    assert (0 <= n + 1) as Hn1 by lia.
    split; [exact (Hrun d os Hd Hn Hf Hs Hnn) |].
    split; [apply padStart_digits, StringZ_digits; lia |].
    split; [rewrite padStart_value; apply StringZ_value; lia |].
    split; [rewrite padStart_length; lia |].
    split; [intros Hle; apply width3; lia |].
    split; [apply width2; lia |].
    split; [unfold dd; rewrite padStart_value; apply StringZ_value; lia |].
    split; [apply width2; lia |].
    split; [unfold mm; rewrite padStart_value; apply StringZ_value; lia |].
    split; [apply width4 | apply StringZ_value].
  - intros d Hname Hd H5 H2 H2025 Hf Hw.
    assert (storedList (orders w) = Some []) as Hs
      by (destruct Hw as [-> | ->]; reflexivity).
    rewrite (Hrun d [] Hd); try assumption; try reflexivity.
    + unfold baseOf. rewrite Hname, H5, H2, H2025. reflexivity.
    + rewrite Hname. discriminate.
Qed.

Lemma C1_generateOrderId_witness :
  generateOrderId env_quiet (mkSt form_test world_empty)
  = (Ok "TESTUSER05032025Q001", mkSt form_test world_empty)
  /\ exists seq : string,
       generateOrderId env_quiet (mkSt form_test world_empty)
       = (Ok ("TESTUSER05032025Q" +:+ seq), mkSt form_test world_empty)
       /\ digitsVal seq = 1 /\ String.length seq = 3%nat.
Proof.
  destruct (C1_generateOrderId env_quiet form_test world_empty) as (_ & H2 & H3).
  split.
  - apply (H3 1741132800000); try reflexivity. now right.
  - destruct (H2 1741132800000 []) as (seq & Hrun & _ & Hv & _ & Hl & _);
      try reflexivity; [discriminate |].
    exists seq. split; [exact Hrun |]. split; [exact Hv |].
    apply Hl. vm_compute. discriminate.
Defined.

(** With 999 stored ids on the same base the sequence number has four
    digits, and for an event date in the year 999 the year has three. *)
Lemma C1_counterexample :
  (exists seq : string,
     fst (generateOrderId env_quiet
            (mkSt (form_A 1741132800000)
               (world_with_orders orders_001_to_999)))
     = Ok ("A05032025Q" +:+ seq)
     /\ digitsVal seq = 1000 /\ String.length seq = 4%nat)
  /\ (exists yyyy : string,
        fst (generateOrderId env_quiet
               (mkSt (form_A (-30641779800000)) world_empty))
        = Ok ("A" +:+ "01" +:+ "01" +:+ yyyy +:+ "Q" +:+ "001")
        /\ String.length yyyy = 3%nat).
Proof.
  split.
  - exists "1000". repeat split; vm_compute; reflexivity.
  - exists "999". repeat split; vm_compute; reflexivity.
Qed.

(** ** Failures while saving *)

Lemma submittable_fields (f : Form) :
  submittable f = true ->
  truthy (orderId f) = true /\ truthy (clientName f) = true
  /\ truthy (mobile f) = true /\ truthy (address f) = true
  /\ truthy (quotationAmount f) = true
  /\ mobileRejected (mobile f) = false
  /\ noMenuItem (orderBlocks f) = false
  /\ exists d, date f = Some d.
Proof.
  unfold submittable. rewrite !andb_true_iff, !negb_true_iff.
  intros (((((((H1 & H2) & H3) & H4) & H5) & H6) & H7) & H8).
  repeat split; try assumption.
  destruct (date f) as [d|]; [now exists d | discriminate].
Qed.

Lemma submittable_runs (e : Env) (f : Form) (w : World) :
  submittable f = true ->
  generateAndSavePDF e (mkSt f w) = saving e f (mkSt f w).
Proof.
  intros Hs. apply submittable_fields in Hs
    as (H1 & H2 & H3 & H4 & H5 & H6 & H7 & d & H8).
  unfold generateAndSavePDF, saving. unfold_m. simpl.
  rewrite H1, H2, H3, H4, H5, H6, H7, H8. reflexivity.
Qed.

Lemma noMenuItem_nonempty (bs : list OrderBlock) :
  noMenuItem bs = false -> exists b r, bs = b :: r.
Proof. destruct bs as [|b r]; [discriminate | eauto]. Qed.

Ltac failed :=
  split; [intros _; repeat split; reflexivity | intros Hf; discriminate Hf].

Ltac fault b := destruct b eqn:?; simpl; [failed |].

(** C2 (amended). Once the form has passed the checks: if a step up to and
    including the write of the orders fails (folder lookup or creation,
    printing, copying, reading or parsing the stored orders, writing them),
    the operation yields no result, shows ["Failed to generate PDF"], and
    leaves the orders and the clients exactly as they were. If instead the
    write of the clients fails, the operation also yields no result and
    shows the message, and the clients are as they were, but the order has
    already been added to the stored orders. *)
Theorem C2_failure_while_saving (e : Env) (f : Form) (w : World) :
  submittable f = true ->
  let r := fst (generateAndSavePDF e (mkSt f w)) in
  let s' := snd (generateAndSavePDF e (mkSt f w)) in
  (failsBeforeOrderSaved e w = true ->
   r = Ok None
   /\ form s' = showing "Failed to generate PDF" f
   /\ orders (world s') = orders w /\ clients (world s') = clients w
   /\ writes (world s') = writes w)
  /\ (failsBeforeOrderSaved e w = false -> fails e (SetItem KClients) = true ->
      r = Ok None
      /\ form s' = showing "Failed to generate PDF" f
      /\ clients (world s') = clients w
      /\ exists (l : list Entry) (dt : string),
           storedList (orders w) = Some l
           /\ formatDateTime e (mkSt f w) = (Ok dt, mkSt f w)
           /\ orders (world s')
              = Items (l ++ [orderOf f dt (BBN_DIR e +:+ orderId f +:+ ".pdf")])
           /\ writes (world s') = KOrders :: writes w).
Proof.
  intros Hs r s'. unfold r, s'. rewrite (submittable_runs e f w Hs).
  apply submittable_fields in Hs
    as (H1 & H2 & H3 & H4 & H5 & H6 & H7 & d & H8).
  destruct (noMenuItem_nonempty _ H7) as (b0 & bs & Hbs).
  destruct f as [oid cn mob addr dte tm blocks qa sv sm].
  destruct w as [cl ord fol fls wr].
  simpl in H1, H2, H3, H4, H5, H6, H7, H8, Hbs. subst dte blocks.
  unfold failsBeforeOrderSaved.
  unfold saving, ensureFolder, formatDateTime, getOrders, setOrders, saveClient,
    loadClients, getClients, setClients, addFile, parseItems, setSnackbar, step,
    showing.
  unfold_m. simpl.
  fault (fails e GetInfo).
  destruct fol; simpl; [| fault (fails e MakeDirectory)].
  all: fault (fails e PrintToFile).
  all: fault (fails e CopyFile).
  all: fault (fails e (GetItem KOrders)).
  all: destruct ord as [| |l]; simpl; [| failed |].
  all: fault (fails e (SetItem KOrders)).
  all: split; [intros Hf; discriminate Hf | intros _ Hc].
  all: rewrite H2, H3; simpl.
  all: destruct (fails e (GetItem KClients)), cl as [| |cs];
    simpl; rewrite ?Hc; simpl.
  all: repeat split; try reflexivity.
  all: eexists _, _; repeat split; reflexivity.
Qed.

Lemma C2_failure_while_saving_witness :
  (let s' := snd (generateAndSavePDF (env_failing PrintToFile)
                    (mkSt form_ready world_empty)) in
   orders (world s') = Absent /\ clients (world s') = Absent)
  /\ (let s' := snd (generateAndSavePDF (env_failing (SetItem KClients))
                       (mkSt form_ready world_empty)) in
      clients (world s') = Absent /\ writes (world s') = [KOrders]).
Proof.
  split.
  - destruct (C2_failure_while_saving (env_failing PrintToFile) form_ready
                world_empty eq_refl) as [H _].
    destruct (H eq_refl) as (_ & _ & Ho & Hc & _). split; assumption.
  - destruct (C2_failure_while_saving (env_failing (SetItem KClients)) form_ready
                world_empty eq_refl) as [_ H].
    destruct (H eq_refl eq_refl) as (_ & _ & Hc & l & dt & _ & _ & _ & Hw).
    split; assumption.
Defined.

(** The write of the clients fails after the order has been written: no
    result, the failure message, and yet the order is persisted. *)
Lemma C2_counterexample :
  let out := generateAndSavePDF (env_failing (SetItem KClients))
               (mkSt form_ready world_empty) in
  fst out = Ok None
  /\ snackbarMessage (form (snd out)) = "Failed to generate PDF"
  /\ orders world_empty = Absent
  /\ orders (world (snd out)) = Items [saved_order].
Proof. repeat split; vm_compute; reflexivity. Qed.

(** ** Client upsert *)

Lemma find_mobile_None (m : string) (cs : list Client) :
  List.find (fun c => String.eqb (c_mobile c) m) cs = None
  <-> ~ In m (List.map c_mobile cs).
Proof.
  induction cs as [|x cs IH]; simpl; [tauto |].
  destruct (String.eqb_spec (c_mobile x) m) as [Heq|Hne].
  - split; [discriminate | intros H; exfalso; apply H; now left].
  - rewrite IH. tauto.
Qed.

Lemma assignFirst_mobiles (c : Client) (cs : list Client) :
  List.map c_mobile (assignFirst (c_mobile c) c cs) = List.map c_mobile cs.
Proof.
  induction cs as [|x cs IH]; simpl; [reflexivity |].
  destruct (String.eqb_spec (c_mobile x) (c_mobile c)) as [Heq|Hne]; simpl.
  - now rewrite Heq.
  - now rewrite IH.
Qed.

Lemma filter_absent (m : string) (cs : list Client) :
  ~ In m (List.map c_mobile cs) -> List.filter (hasMobile m) cs = [].
Proof.
  induction cs as [|x cs IH]; simpl; [reflexivity |]. intros Hn.
  unfold hasMobile at 1.
  destruct (String.eqb_spec (c_mobile x) m) as [Heq|Hne]; [tauto |].
  apply IH. tauto.
Qed.

Lemma assignFirst_lookup (c : Client) (cs : list Client) :
  List.NoDup (List.map c_mobile cs) ->
  forall (i : nat) (x : Client),
    cs !! i = Some x ->
    assignFirst (c_mobile c) c cs !! i
    = Some (if hasMobile (c_mobile c) x then c else x).
Proof.
  induction cs as [|y cs IH]; intros Hnd i x Hi; [discriminate |].
  inversion Hnd as [|? ? Hnotin Hnd']; subst. simpl. unfold hasMobile.
  destruct (String.eqb_spec (c_mobile y) (c_mobile c)) as [Heq|Hne].
  - destruct i as [|i]; simpl in *.
    + injection Hi as <-. now rewrite Heq, String.eqb_refl.
    + rewrite Hi. f_equal.
      destruct (String.eqb_spec (c_mobile x) (c_mobile c)) as [Hx|]; [| reflexivity].
      exfalso. apply Hnotin. rewrite Heq, <- Hx.
      apply in_map. apply list_elem_of_In. eapply list_elem_of_lookup_2. exact Hi.
  - destruct i as [|i]; simpl in *.
    + injection Hi as <-.
      now destruct (String.eqb_spec (c_mobile y) (c_mobile c)).
    + now apply IH.
Qed.

Lemma assignFirst_filter (c : Client) (cs : list Client) :
  List.NoDup (List.map c_mobile cs) ->
  In (c_mobile c) (List.map c_mobile cs) ->
  List.filter (hasMobile (c_mobile c)) (assignFirst (c_mobile c) c cs) = [c].
Proof.
  induction cs as [|y cs IH]; intros Hnd Hin; [destruct Hin |].
  inversion Hnd as [|? ? Hnotin Hnd']; subst. simpl.
  destruct (String.eqb_spec (c_mobile y) (c_mobile c)) as [Heq|Hne]; simpl.
  - unfold hasMobile at 1. rewrite String.eqb_refl. f_equal.
    apply filter_absent. now rewrite <- Heq.
  - unfold hasMobile at 1.
    destruct (String.eqb_spec (c_mobile y) (c_mobile c)); [contradiction |].
    apply IH; [assumption |]. destruct Hin; [contradiction | assumption].
Qed.

Lemma append_filter (c : Client) (cs : list Client) :
  ~ In (c_mobile c) (List.map c_mobile cs) ->
  List.filter (hasMobile (c_mobile c)) (cs ++ [c]) = [c].
Proof.
  intros Hn. rewrite List.filter_app, (filter_absent _ _ Hn). simpl.
  unfold hasMobile. now rewrite String.eqb_refl.
Qed.

Lemma append_NoDup (c : Client) (cs : list Client) :
  List.NoDup (List.map c_mobile cs) ->
  ~ In (c_mobile c) (List.map c_mobile cs) ->
  List.NoDup (List.map c_mobile (cs ++ [c])).
Proof.
  intros Hnd Hn. rewrite List.map_app. simpl.
  apply List.NoDup_app; [assumption | | ].
  - apply List.NoDup_cons; [intros [] | apply List.NoDup_nil].
  - intros x Hx [<-|[]]. contradiction.
Qed.

Lemma upserted_NoDup (c : Client) (cs : list Client) :
  List.NoDup (List.map c_mobile cs) ->
  List.NoDup (List.map c_mobile (upserted c cs)).
Proof.
  intros Hnd. unfold upserted.
  destruct (List.find _ cs) eqn:Hf.
  - now rewrite assignFirst_mobiles.
  - apply append_NoDup; [assumption |]. now apply find_mobile_None.
Qed.

Lemma upserted_filter (c : Client) (cs : list Client) :
  List.NoDup (List.map c_mobile cs) ->
  List.filter (hasMobile (c_mobile c)) (upserted c cs) = [c].
Proof.
  intros Hnd. unfold upserted.
  destruct (List.find _ cs) eqn:Hf.
  - apply assignFirst_filter; [assumption |].
    destruct (in_dec string_dec (c_mobile c) (List.map c_mobile cs)) as [|Hn];
      [assumption |].
    apply find_mobile_None in Hn. congruence.
  - apply append_filter. now apply find_mobile_None.
Qed.

Lemma saveClient_runs (e : Env) (f : Form) (w : World) (b0 : OrderBlock)
    (bs : list OrderBlock) :
  mobile f <> "" -> clientName f <> "" -> orderBlocks f = b0 :: bs ->
  fails e (SetItem KClients) = false ->
  let cs := match (if fails e (GetItem KClients) then None
                   else storedList (clients w)) with
            | Some l => l
            | None => []
            end in
  saveClient e (mkSt f w)
  = (Ok tt,
     mkSt f {| clients := Items (upserted (clientOf f b0) cs);
               orders := orders w; folder := folder w; files := files w;
               writes := KClients :: writes w |}).
Proof.
  intros Hm Hn Hb Hs cs. unfold cs.
  unfold saveClient, loadClients, getClients, setClients, parseItems, step,
    upserted, clientOf.
  unfold_m. simpl.
  destruct (mobile f) as [|c1 r1] eqn:Em; [congruence |].
  destruct (clientName f) as [|c2 r2] eqn:En; [congruence |].
  simpl. rewrite Hb.
  destruct (fails e (GetItem KClients)); simpl.
  - rewrite Hs. reflexivity.
  - destruct (clients w) as [| |l]; simpl; rewrite ?Hs; reflexivity.
Qed.

(** C6. The client upsert keeps at most one record for each mobile in the
    clients. When the clients (none yet, or an array) are read and written
    without fault: if a record with the mobile of the form exists, it is
    overwritten in place with the name, address and notes of the form, the
    other records and the order of the records being untouched; otherwise
    the new record is added at the end. Hence two saves for the same
    mobile, with different names and addresses, leave exactly one record for
    that mobile, holding the values of the second save. *)
Theorem C6_client_upsert (e : Env) (f : Form) (w : World) :
  (uniqueMobiles (clients w) ->
   uniqueMobiles (clients (world (snd (saveClient e (mkSt f w))))))
  /\ (forall (cs : list Client) (b0 : OrderBlock) (bs : list OrderBlock),
        storedList (clients w) = Some cs -> List.NoDup (List.map c_mobile cs) ->
        mobile f <> "" -> clientName f <> "" -> orderBlocks f = b0 :: bs ->
        fails e (GetItem KClients) = false ->
        fails e (SetItem KClients) = false ->
        exists cs' : list Client,
          clients (world (snd (saveClient e (mkSt f w)))) = Items cs'
          /\ (In (mobile f) (List.map c_mobile cs) ->
              List.map c_mobile cs' = List.map c_mobile cs
              /\ forall (i : nat) (x : Client),
                   cs !! i = Some x ->
                   cs' !! i = Some (if hasMobile (mobile f) x
                                    then clientOf f b0 else x))
          /\ (~ In (mobile f) (List.map c_mobile cs) ->
              cs' = cs ++ [clientOf f b0])
          /\ List.filter (hasMobile (mobile f)) cs' = [clientOf f b0])
  /\ (forall (e2 : Env) (f2 : Form) (b0 b2 : OrderBlock)
             (bs bs2 : list OrderBlock),
        uniqueMobiles (clients w) ->
        mobile f <> "" -> clientName f <> "" -> orderBlocks f = b0 :: bs ->
        mobile f2 = mobile f -> clientName f2 <> "" ->
        orderBlocks f2 = b2 :: bs2 ->
        fails e (SetItem KClients) = false ->
        fails e2 (GetItem KClients) = false ->
        fails e2 (SetItem KClients) = false ->
        exists cs2 : list Client,
          clients (world (snd (saveClient e2
                     (mkSt f2 (world (snd (saveClient e (mkSt f w)))))))) 
          = Items cs2
          /\ List.NoDup (List.map c_mobile cs2)
          /\ List.filter (hasMobile (mobile f)) cs2 = [clientOf f2 b2]).
Proof.
  assert (forall (e : Env) (f : Form) (w : World),
            uniqueMobiles (clients w) ->
            uniqueMobiles (clients (world (snd (saveClient e (mkSt f w))))))
    as Hinv.
  { clear. intros e f w Hu.
    destruct (string_dec (mobile f) "") as [Hm|Hm].
    { unfold saveClient. unfold_m. simpl. now rewrite Hm. }
    destruct (string_dec (clientName f) "") as [Hn|Hn].
    { unfold saveClient. unfold_m. simpl. rewrite Hn.
      now destruct (mobile f). }
    destruct (orderBlocks f) as [|b0 bs] eqn:Hb.
    { unfold saveClient, loadClients, getClients, parseItems, step.
      unfold_m. simpl. rewrite Hb.
      destruct (mobile f); [congruence |].
      destruct (clientName f); [congruence |]. simpl.
      destruct (fails e (GetItem KClients)); simpl; [exact Hu |].
      destruct (clients w) eqn:E; simpl; rewrite ?E; exact Hu. }
    destruct (fails e (SetItem KClients)) eqn:Hs.
    { unfold saveClient, loadClients, getClients, setClients, parseItems, step.
      unfold_m. simpl. rewrite Hb.
      destruct (mobile f); [congruence |].
      destruct (clientName f); [congruence |]. simpl.
      destruct (fails e (GetItem KClients)); simpl; rewrite ?Hs; [exact Hu |].
      destruct (clients w) eqn:E; simpl; rewrite ?Hs; simpl; rewrite ?E;
        exact Hu. }
    rewrite (saveClient_runs e f w b0 bs Hm Hn Hb Hs). simpl.
    apply upserted_NoDup.
    destruct (fails e (GetItem KClients)); [apply List.NoDup_nil |].
    destruct (clients w); simpl; try apply List.NoDup_nil. exact Hu. }
  split; [apply Hinv |]. split.
  - intros cs b0 bs Hc Hnd Hm Hn Hb Hg Hs.
    rewrite (saveClient_runs e f w b0 bs Hm Hn Hb Hs). simpl.
    rewrite Hg, Hc.
    exists (upserted (clientOf f b0) cs). split; [reflexivity |].
    change (mobile f) with (c_mobile (clientOf f b0)).
    split; [| split].
    + intros Hin. unfold upserted.
      destruct (List.find _ cs) eqn:Hf.
      * split; [apply assignFirst_mobiles | now apply assignFirst_lookup].
      * apply find_mobile_None in Hf. contradiction.
    + intros Hnin. unfold upserted.
      apply find_mobile_None in Hnin. now rewrite Hnin.
    + now apply upserted_filter.
  - intros e2 f2 b0 b2 bs bs2 Hu Hm Hn Hb Hm2 Hn2 Hb2 Hs Hg2 Hs2.
    pose proof (Hinv e f w Hu) as Hu1.
    assert (mobile f2 <> "") as Hm2' by congruence.
    rewrite (saveClient_runs e2 f2 _ b2 bs2 Hm2' Hn2 Hb2 Hs2). simpl.
    rewrite Hg2.
    rewrite (saveClient_runs e f w b0 bs Hm Hn Hb Hs) in Hu1 |- *. simpl in *.
    eexists. split; [reflexivity |].
    split; [now apply upserted_NoDup |].
    rewrite <- Hm2. change (mobile f2) with (c_mobile (clientOf f2 b2)).
    now apply upserted_filter.
Qed.

Lemma C6_client_upsert_witness :
  (exists cs' : list Client,
     clients (world (snd (saveClient env_quiet (mkSt form_second world_known))))
     = Items cs'
     /\ List.map c_mobile cs' = ["9000000001"; "9876543210"; "9000000002"]
     /\ List.filter (hasMobile "9876543210") cs'
        = [mkClient "9876543210" "Test User Junior" "Noida" "less spicy"])
  /\ (exists cs2 : list Client,
        clients (world (snd (saveClient env_quiet
                   (mkSt form_second
                      (world (snd (saveClient env_quiet
                                     (mkSt form_ready world_empty))))))))
        = Items cs2
        /\ List.filter (hasMobile "9876543210") cs2
           = [mkClient "9876543210" "Test User Junior" "Noida" "less spicy"]).
Proof.
  split.
  - destruct (C6_client_upsert env_quiet form_second world_known) as (_ & H & _).
    destruct (H _ (mkBlock "1" "Chole bhature" "less spicy" "20") []
                eq_refl) as (cs' & Hc & Hin & _ & Hf);
      try reflexivity; try discriminate.
    { simpl.
      repeat (apply List.NoDup_cons; [simpl; intuition discriminate |]).
      apply List.NoDup_nil. }
    exists cs'. split; [exact Hc |]. split; [| exact Hf].
    apply Hin. simpl. tauto.
  - destruct (C6_client_upsert env_quiet form_ready world_empty) as (_ & _ & H).
    destruct (H env_quiet form_second
                (mkBlock "1" "Paneer tikka" "no onion" "50")
                (mkBlock "1" "Chole bhature" "less spicy" "20") [] [])
      as (cs2 & Hc & _ & Hf);
      try reflexivity; try discriminate; try exact I.
    exists cs2. split; assumption.
Defined.

(** A second save for a known mobile rewrites its record where it stands. *)
Example upsert_in_place :
  clients (world (snd (saveClient env_quiet (mkSt form_second world_known))))
  = Items [mkClient "9000000001" "Asha" "Rohini" "";
           mkClient "9876543210" "Test User Junior" "Noida" "less spicy";
           mkClient "9000000002" "Vikram" "Dwarka" "jain food"].
Proof. reflexivity. Qed.

(** A failed read of the clients is absorbed by [loadClients]: the save
    goes through and the stored clients are replaced by the new record. *)
Example clients_read_failure_absorbed :
  let out := generateAndSavePDF (env_failing (GetItem KClients))
               (mkSt form_ready world_known) in
  fst out = Ok (Some "doc/BBN_Quotations/TESTUSER05032025Q001.pdf")
  /\ clients (world (snd out))
     = Items [mkClient "9876543210" "Test User" "Delhi" "no onion"].
Proof. split; vm_compute; reflexivity. Qed.

End FormFacts.

(** ** The history screen *)

Module HistoryFacts.
Import TextFacts CalendarFacts History.

(** ** Load and repair *)

Lemma present_nonEmpty (x : option string) : present x = true <-> nonEmpty x.
Proof.
  unfold present, nonEmpty. destruct x as [s|].
  - destruct s; simpl; split.
    + discriminate.
    + intros (s & [= <-] & Hs). congruence.
    + intros _. eexists. split; [reflexivity | discriminate].
    + reflexivity.
  - split; [discriminate | intros (s & Hs & _); discriminate].
Qed.

Lemma isValid_spec (en : Entry) :
  isValid en = true
  <-> exists so, en = Some so /\ nonEmpty (o_id so)
                 /\ nonEmpty (o_dateTime so) /\ nonEmpty (o_pdfUri so).
Proof.
  destruct en as [so|]; simpl.
  - rewrite !andb_true_iff, !present_nonEmpty. split.
    + intros [[H1 H2] H3]. now exists so.
    + intros (so' & [= <-] & H1 & H2 & H3). tauto.
  - split; [discriminate | intros (so & Hso & _); discriminate].
Qed.

Lemma validOrders_spec (os : list Entry) (o : Order) :
  In o (validOrders os)
  <-> exists so, In (Some so) os /\ nonEmpty (o_id so)
                 /\ nonEmpty (o_dateTime so) /\ nonEmpty (o_pdfUri so)
                 /\ o = normalize (Some so).
Proof.
  unfold validOrders. rewrite in_map_iff. split.
  - intros (en & <- & Hin). apply filter_In in Hin as [Hin Hv].
    apply isValid_spec in Hv as (so & -> & H1 & H2 & H3). now exists so.
  - intros (so & Hin & H1 & H2 & H3 & ->). exists (Some so).
    split; [reflexivity |]. apply filter_In. split; [assumption |].
    apply isValid_spec. now exists so.
Qed.

Lemma validOrders_complete (os : list Entry) (o : Order) :
  In o (validOrders os) -> complete o.
Proof.
  intros (so & _ & (i & Hi & Hi') & (d & Hd & Hd') & (u & Hu & Hu') & ->)
    %validOrders_spec.
  unfold complete, normalize. simpl. now rewrite Hi, Hd, Hu.
Qed.

Lemma normalize_toEntry (o : Order) : normalize (toEntry o) = o.
Proof. now destruct o. Qed.

Lemma isValid_toEntry (o : Order) : complete o -> isValid (toEntry o) = true.
Proof.
  intros (H1 & H2 & H3). simpl.
  destruct (id o), (dateTime o), (pdfUri o); simpl; congruence.
Qed.

Lemma validOrders_toEntry (l : list Order) :
  Forall complete l -> validOrders (List.map toEntry l) = l.
Proof.
  unfold validOrders. induction l as [|o l IH]; intros Hc; [reflexivity |].
  inversion Hc as [|? ? Ho Hl]; subst.
  change (List.filter isValid (List.map toEntry (o :: l)))
    with (if isValid (toEntry o)
          then toEntry o :: List.filter isValid (List.map toEntry l)
          else List.filter isValid (List.map toEntry l)).
  rewrite (isValid_toEntry o Ho).
  change (List.map normalize (toEntry o :: List.filter isValid (List.map toEntry l)))
    with (normalize (toEntry o)
          :: List.map normalize (List.filter isValid (List.map toEntry l))).
  now rewrite normalize_toEntry, (IH Hl).
Qed.

(** *** Deduplication *)

Lemma dedupeFrom_sublist (seen : gset string) (l : list Order) :
  sublist (dedupeFrom seen l) l.
Proof.
  revert seen. induction l as [|o l IH]; intros seen; simpl; [constructor |].
  destruct (bool_decide (id o ∈ seen)); [apply sublist_cons | apply sublist_skip];
    apply IH.
Qed.

Lemma dedupeFrom_fresh (seen : gset string) (l : list Order) (o : Order) :
  In o (dedupeFrom seen l) -> id o ∉ seen.
Proof.
  revert seen. induction l as [|x l IH]; intros seen; simpl; [tauto |].
  destruct (bool_decide_reflect (id x ∈ seen)) as [Hin|Hout].
  - apply IH.
  - intros [<-|Hin]; [assumption |].
    specialize (IH _ Hin). set_solver.
Qed.

Lemma dedupeFrom_NoDup (seen : gset string) (l : list Order) :
  List.NoDup (List.map id (dedupeFrom seen l)).
Proof.
  revert seen. induction l as [|x l IH]; intros seen; simpl; [constructor |].
  destruct (bool_decide (id x ∈ seen)); [apply IH |].
  simpl. constructor; [| apply IH].
  intros (y & Hy & Hin)%in_map_iff.
  apply dedupeFrom_fresh in Hin. set_solver.
Qed.

(** Every id not seen before is kept at its first occurrence. *)
Lemma dedupeFrom_first (seen : gset string) (l : list Order) (o : Order) :
  In o l -> id o ∉ seen ->
  exists (l1 l2 : list Order) (o' : Order),
    l = l1 ++ o' :: l2 /\ id o' = id o /\ ~ In (id o) (List.map id l1)
    /\ In o' (dedupeFrom seen l).
Proof.
  revert seen. induction l as [|x l IH]; intros seen Hin Hout; [destruct Hin |].
  destruct (string_dec (id x) (id o)) as [Heq|Hne].
  - exists [], l, x. simpl. repeat split; try tauto.
    rewrite Heq. destruct (bool_decide_reflect (id o ∈ seen)); [contradiction |].
    now left.
  - destruct Hin as [->|Hin]; [congruence |].
    simpl. destruct (bool_decide_reflect (id x ∈ seen)) as [Hx|Hx].
    + destruct (IH seen Hin Hout) as (l1 & l2 & o' & -> & Ho' & Hn & Hk).
      exists (x :: l1), l2, o'. simpl. repeat split; try assumption.
      intros [H|H]; contradiction.
    + destruct (IH ({[ id x ]} ∪ seen) Hin) as (l1 & l2 & o' & -> & Ho' & Hn & Hk).
      { intros [Hs%elem_of_singleton|Hs]%elem_of_union;
          [congruence | contradiction]. }
      exists (x :: l1), l2, o'. simpl. repeat split; try assumption.
      * intros [H|H]; contradiction.
      * now right.
Qed.

Lemma dedupeFrom_clean (seen : gset string) (l : list Order) :
  List.NoDup (List.map id l) ->
  (forall o, In o l -> id o ∉ seen) ->
  dedupeFrom seen l = l.
Proof.
  revert seen. induction l as [|x l IH]; intros seen Hnd Hout; [reflexivity |].
  inversion Hnd as [|? ? Hnotin Hnd']; subst. simpl.
  destruct (bool_decide_reflect (id x ∈ seen)) as [Hx|Hx].
  - exfalso. apply (Hout x); [now left | assumption].
  - f_equal. apply IH; [assumption |].
    intros o Hin. specialize (Hout o (or_intror Hin)).
    assert (id o <> id x) as Hne.
    { intros Heq. apply Hnotin. rewrite <- Heq. now apply in_map. }
    intros [Hs%elem_of_singleton|Hs]%elem_of_union;
      [congruence | contradiction].
Qed.

Lemma dedupe_clean (l : list Order) :
  List.NoDup (List.map id l) -> dedupe l = l.
Proof. intros Hnd. apply dedupeFrom_clean; [assumption | set_solver]. Qed.


Lemma sublist_same_length {A : Type} (l1 l2 : list A) :
  sublist l1 l2 -> length l1 = length l2 -> l1 = l2.
Proof.
  induction 1 as [|x l1 l2 Hs IH|x l1 l2 Hs IH]; intros Hlen.
  - reflexivity.
  - f_equal. apply IH. simpl in Hlen. lia.
  - apply sublist_length in Hs. simpl in Hlen. lia.
Qed.

Lemma dedupe_same_length (l : list Order) :
  length (dedupe l) = length l -> dedupe l = l.
Proof.
  intros Hlen. apply sublist_same_length; [apply dedupeFrom_sublist | exact Hlen].
Qed.

Lemma load_runs (e : Env) (w : World) (os : list Entry) :
  orders w = Items os -> fails e (GetItem KOrders) = false ->
  load e w
  = let valid := validOrders os in
    let deduped := dedupe valid in
    if negb (length deduped =? length valid)%nat then
      if fails e (SetItem KOrders) then ([], w)
      else (sectionsOf (tz e) (clock e) deduped, writeOrders deduped w)
    else (sectionsOf (tz e) (clock e) deduped, w).
Proof. intros Hw Hf. unfold load. now rewrite Hf, Hw. Qed.

(** ** Sorting *)

Lemma insertBy_perm (cmp : Order -> Order -> Z) (a : Order) (l : list Order) :
  Permutation (insertBy cmp a l) (a :: l).
Proof.
  induction l as [|x l IH]; simpl; [reflexivity |].
  destruct (cmp a x <=? 0); [reflexivity |].
  rewrite IH. apply perm_swap.
Qed.

Lemma sortBy_perm (cmp : Order -> Order -> Z) (l : list Order) :
  Permutation (sortBy cmp l) l.
Proof.
  induction l as [|a l IH]; simpl; [reflexivity |].
  rewrite insertBy_perm. now constructor.
Qed.

Lemma compare_valid (tz now : Z) (a b : Order) :
  validDate tz now a -> validDate tz now b ->
  compareOrders tz now a b = sortKey tz now b - sortKey tz now a.
Proof.
  unfold validDate, compareOrders, sortKey.
  destruct (timeOf tz now a), (timeOf tz now b); congruence.
Qed.

Lemma insertBy_sorted (tz now : Z) (a : Order) (l : list Order) :
  validDate tz now a -> List.Forall (validDate tz now) l ->
  StronglySorted (newerFirst tz now) l ->
  StronglySorted (newerFirst tz now) (insertBy (compareOrders tz now) a l).
Proof.
  intros Ha Hl Hs. induction Hs as [|x l Hs IH Hx]; simpl.
  - repeat constructor.
  - inversion Hl as [|? ? Hvx Hvl]; subst.
    rewrite (compare_valid tz now a x Ha Hvx).
    destruct (Z.leb_spec (sortKey tz now x - sortKey tz now a) 0) as [Hle|Hgt].
    + constructor; [now constructor |].
      constructor; [unfold newerFirst; lia |].
      eapply List.Forall_impl; [| exact Hx].
      unfold newerFirst. intros y Hy. lia.
    + constructor; [now apply IH |].
      eapply Permutation_Forall; [symmetry; apply insertBy_perm |].
      constructor; [unfold newerFirst; lia | exact Hx].
Qed.

Lemma sortBy_sorted (tz now : Z) (l : list Order) :
  List.Forall (validDate tz now) l ->
  StronglySorted (newerFirst tz now) (sortBy (compareOrders tz now) l).
Proof.
  induction l as [|a l IH]; intros Hl; simpl; [constructor |].
  inversion Hl as [|? ? Ha Hl']; subst.
  apply insertBy_sorted; [assumption | | now apply IH].
  eapply Permutation_Forall; [symmetry; apply sortBy_perm | assumption].
Qed.

(** The sort is stable: orders with the same time keep their order. *)
Lemma insertBy_keeps (tz now t : Z) (a : Order) (l : list Order) :
  validDate tz now a -> List.Forall (validDate tz now) l ->
  List.filter (sameTime tz now t) (insertBy (compareOrders tz now) a l)
  = List.filter (sameTime tz now t) (a :: l).
Proof.
  intros Ha Hl. induction l as [|x l IH]; [reflexivity |].
  inversion Hl as [|? ? Hx Hl']; subst.
  change (insertBy (compareOrders tz now) a (x :: l))
    with (if compareOrders tz now a x <=? 0 then a :: x :: l
          else x :: insertBy (compareOrders tz now) a l).
  rewrite (compare_valid tz now a x Ha Hx).
  destruct (Z.leb_spec (sortKey tz now x - sortKey tz now a) 0) as [Hle|Hgt];
    [reflexivity |].
  simpl. rewrite (IH Hl'). simpl. unfold sameTime.
  destruct (Z.eqb_spec (sortKey tz now a) t) as [Hat|Hat];
    destruct (Z.eqb_spec (sortKey tz now x) t) as [Hxt|Hxt];
    try reflexivity; lia.
Qed.

Lemma sortBy_stable (tz now t : Z) (l : list Order) :
  List.Forall (validDate tz now) l ->
  List.filter (sameTime tz now t) (sortBy (compareOrders tz now) l)
  = List.filter (sameTime tz now t) l.
Proof.
  induction l as [|a l IH]; intros Hl; [reflexivity |].
  inversion Hl as [|? ? Ha Hl']; subst.
  change (sortBy (compareOrders tz now) (a :: l))
    with (insertBy (compareOrders tz now) a (sortBy (compareOrders tz now) l)).
  rewrite insertBy_keeps; [| assumption |].
  - simpl. now rewrite (IH Hl').
  - eapply Permutation_Forall; [symmetry; apply sortBy_perm | assumption].
Qed.

(** ** Grouping *)

Lemma inb_In (k : string) (ks : list string) : inb k ks = true <-> In k ks.
Proof.
  unfold inb. rewrite existsb_exists. split.
  - intros (x & Hx & ->%String.eqb_eq). assumption.
  - intros Hin. exists k. split; [assumption | apply String.eqb_refl].
Qed.

Lemma firstSeen_In (k : string) (ks : list string) :
  In k (firstSeen ks) <-> In k ks.
Proof.
  induction ks as [|x ks IH]; simpl; [tauto |].
  rewrite filter_In, IH, negb_true_iff, String.eqb_neq.
  destruct (string_dec x k); [tauto |]. split; [tauto |].
  intros [H|H]; [contradiction |]. right. split; [assumption | congruence].
Qed.

Lemma firstSeen_NoDup (ks : list string) : List.NoDup (firstSeen ks).
Proof.
  induction ks as [|x ks IH]; simpl; constructor.
  - rewrite filter_In, negb_true_iff, String.eqb_neq. tauto.
  - now apply List.NoDup_filter.
Qed.

Lemma firstSeen_snoc (ks : list string) (k : string) :
  firstSeen (ks ++ [k]) = firstSeen ks ++ (if inb k ks then [] else [k]).
Proof.
  induction ks as [|x ks IH]; simpl; [reflexivity |].
  rewrite IH, List.filter_app. f_equal. f_equal.
  unfold inb. simpl.
  destruct (String.eqb_spec k x) as [->|Hne]; simpl.
  - destruct (existsb (String.eqb x) ks); simpl; [reflexivity |].
    now rewrite String.eqb_refl.
  - destruct (existsb (String.eqb k) ks); simpl; [reflexivity |].
    destruct (String.eqb_spec k x); [contradiction | reflexivity].
Qed.

Lemma addToGroup_pairs (F : string -> list Order) (ks : list string)
    (k0 : string) (o : Order) :
  List.NoDup ks -> (~ In k0 ks -> F k0 = []) ->
  addToGroup k0 o (pairsOf F ks)
  = pairsOf (fun k => F k ++ (if String.eqb k k0 then [o] else []))
      (ks ++ (if inb k0 ks then [] else [k0])).
Proof.
  induction ks as [|k ks IH]; intros Hnd Hempty; simpl.
  - rewrite String.eqb_refl, Hempty; [reflexivity | tauto].
  - inversion Hnd as [|? ? Hnotin Hnd']; subst. unfold inb. simpl.
    rewrite (String.eqb_sym k0 k).
    destruct (String.eqb_spec k k0) as [->|Hne]; simpl.
    + rewrite List.app_nil_r. f_equal. unfold pairsOf.
      apply List.map_ext_in. intros k Hk.
      destruct (String.eqb_spec k k0) as [->|]; [contradiction |].
      now rewrite List.app_nil_r.
    + rewrite List.app_nil_r. f_equal.
      apply IH; [assumption |]. intros Hn. apply Hempty.
      intros [H|H]; contradiction.
Qed.

Lemma filter_inGroup_nil (tz now : Z) (k : string) (l : list Order) :
  ~ In k (List.map (groupKey tz now) l) -> List.filter (inGroup tz now k) l = [].
Proof.
  induction l as [|x l IH]; simpl; [reflexivity |]. intros Hn.
  unfold inGroup at 1.
  destruct (String.eqb_spec (groupKey tz now x) k); [tauto |].
  apply IH. tauto.
Qed.

Lemma fold_groups (tz now : Z) (l l0 : list Order) :
  List.fold_left (fun g o => addToGroup (groupKey tz now o) o g) l
    (pairsOf (fun k => List.filter (inGroup tz now k) l0)
       (firstSeen (List.map (groupKey tz now) l0)))
  = pairsOf (fun k => List.filter (inGroup tz now k) (l0 ++ l))
      (firstSeen (List.map (groupKey tz now) (l0 ++ l))).
Proof.
  revert l0. induction l as [|o l IH]; intros l0; simpl.
  - now rewrite List.app_nil_r.
  - rewrite addToGroup_pairs.
    + replace (l0 ++ o :: l) with ((l0 ++ [o]) ++ l)
        by (now rewrite <- List.app_assoc).
      rewrite <- IH. f_equal.
      rewrite List.map_app. simpl. rewrite firstSeen_snoc.
      assert (inb (groupKey tz now o) (firstSeen (List.map (groupKey tz now) l0))
              = inb (groupKey tz now o) (List.map (groupKey tz now) l0)) as ->.
      { apply eq_true_iff_eq. rewrite !inb_In. apply firstSeen_In. }
      unfold pairsOf. apply List.map_ext. intros k.
      rewrite List.filter_app. simpl. unfold inGroup at 3.
      now rewrite String.eqb_sym.
    + apply firstSeen_NoDup.
    + rewrite firstSeen_In. apply filter_inGroup_nil.
Qed.

Lemma groupOrders_spec (tz now : Z) (l : list Order) :
  groupOrders tz now l
  = pairsOf (fun k => List.filter (inGroup tz now k) l)
      (firstSeen (List.map (groupKey tz now) l)).
Proof. apply (fold_groups tz now l []). Qed.

Lemma sections_groups (tz now : Z) (l : list Order) :
  sectionsOf tz now l = groupsOf tz now (sortBy (compareOrders tz now) l).
Proof.
  unfold sectionsOf, groupsOf. rewrite groupOrders_spec. unfold pairsOf.
  rewrite List.map_map. reflexivity.
Qed.

(** C7 (amended). For every list of loaded orders whose date texts parse
    to valid dates, the history view sorts the orders by their parsed date
    and time, newest first, orders with the same time keeping their order;
    for every list the result is a rearrangement of it. The view then
    groups the sorted orders by their label, which for a valid date is the
    month name, a space and the year of the parsed date: the groups come in
    the order in which their labels are first seen in the sorted list, each
    holds the orders with its label in sorted order, and its count is the
    number of its members. Four orders dated in March, January, March and
    February of 2025 give the three groups March, February, January, the
    March group counting 2. *)
Theorem C7_sort_and_group (tz now : Z) (l : list Order) :
  let sorted := sortBy (compareOrders tz now) l in
  Permutation sorted l
  /\ (List.Forall (validDate tz now) l ->
      StronglySorted (newerFirst tz now) sorted
      /\ forall t : Z,
           List.filter (sameTime tz now t) sorted
           = List.filter (sameTime tz now t) l)
  /\ sectionsOf tz now l = groupsOf tz now sorted
  /\ List.map title (sectionsOf tz now l)
     = firstSeen (List.map (groupKey tz now) sorted)
  /\ (forall s : Section,
        In s (sectionsOf tz now l) ->
        count s = length (data s) /\ data s <> []
        /\ data s = List.filter (inGroup tz now (title s)) sorted
        /\ forall o : Order,
             In o (data s) <-> In o l /\ groupKey tz now o = title s)
  /\ (forall (o : Order) (t : Z),
        timeOf tz now o = Some t ->
        groupKey tz now o
        = monthName (MonthFromTime (LocalTime tz t)) +:+ " "
          +:+ StringZ (YearFromTime (LocalTime tz t)))
  /\ (forall now' : Z,
        List.map summary (sectionsOf IST now' four_orders)
        = [("March 2025", ["C"; "A"], 2%nat);
           ("February 2025", ["D"], 1%nat);
           ("January 2025", ["B"], 1%nat)]).
Proof.
  intros sorted.
  pose proof (sortBy_perm (compareOrders tz now) l) as Hperm. fold sorted in Hperm.
  split; [exact Hperm |].
  split.
  { intros Hv. split; [now apply sortBy_sorted |].
    intros t. now apply sortBy_stable. }
  split; [apply sections_groups |].
  split.
  { rewrite sections_groups. unfold groupsOf. fold sorted.
    rewrite List.map_map. simpl. apply List.map_id. }
  split.
  { intros s. rewrite sections_groups. unfold groupsOf. fold sorted.
    intros (k & <- & Hk)%in_map_iff. simpl.
    apply firstSeen_In, in_map_iff in Hk as (o0 & Hkey & Hin0).
    split; [reflexivity |]. split; [| split; [reflexivity |]].
    - intros Hnil.
      assert (In o0 (List.filter (inGroup tz now k) sorted)) as Hin.
      { apply filter_In. split; [assumption |].
        unfold inGroup. rewrite Hkey. apply String.eqb_refl. }
      rewrite Hnil in Hin. destruct Hin.
    - intros o. rewrite filter_In. unfold inGroup. rewrite String.eqb_eq.
      split; intros [Hin Heq]; (split; [| exact Heq]).
      + eapply Permutation_in; [exact Hperm | exact Hin].
      + eapply Permutation_in; [symmetry; exact Hperm | exact Hin]. }
  split.
  { intros o t Ht. unfold groupKey. unfold timeOf, getTime in Ht.
    now rewrite Ht. }
  intros now'. vm_compute. reflexivity.
Qed.

Lemma C7_sort_and_group_witness :
  StronglySorted (newerFirst IST 0)
    (sortBy (compareOrders IST 0) four_orders).
Proof.
  destruct (C7_sort_and_group IST 0 four_orders) as (_ & H & _).
  apply H. repeat constructor; vm_compute; discriminate.
Defined.

(** A date text with a year beyond the range of dates has the structure, so
    it is not replaced by the current moment; its date is invalid and its
    group is not a month of a year. *)
Lemma C7_counterexample :
  parseDate IST 1762000000000 (Some "01/01/999999 at 1:00 PM") = None
  /\ List.map summary
       (sectionsOf IST 1762000000000
          [dated "X" "01/01/999999 at 1:00 PM"])
     = [("Invalid Date NaN", ["X"], 1%nat)].
Proof. split; vm_compute; reflexivity. Qed.

End HistoryFacts.

(** ** Lists and text, continued *)

Module ListFacts.
Import TextFacts JSText ScreenSpec.

Lemma filter_sublist {A : Type} (p : A -> bool) (l : list A) :
  sublist (List.filter p l) l.
Proof.
  induction l as [|x l IH]; simpl; [constructor |].
  destruct (p x); [now apply sublist_skip | now apply sublist_cons].
Qed.

Lemma firstn_sublist {A : Type} (n : nat) (l : list A) :
  sublist (firstn n l) l.
Proof.
  revert n. induction l as [|x l IH]; intros [|n]; simpl; try constructor.
  - apply sublist_nil_l.
  - apply IH.
Qed.

Lemma sublist_In {A : Type} (l1 l2 : list A) (x : A) :
  sublist l1 l2 -> In x l1 -> In x l2.
Proof.
  intros Hs Hin. apply list_elem_of_In.
  eapply (elem_of_sublist _ _ _); [| exact Hs]. now apply list_elem_of_In.
Qed.

Lemma append_inv_head (a x y : string) : a +:+ x = a +:+ y -> x = y.
Proof.
  induction a as [|c a IH]; simpl; [trivial |]. intros [= H]. now apply IH.
Qed.

Lemma truthy_app_r (a b : string) : truthy b = true -> truthy (a +:+ b) = true.
Proof. destruct a; [now simpl | reflexivity]. Qed.

Lemma truthy_not_empty (s : string) : truthy s = true <-> s <> "".
Proof. destruct s; simpl; split; congruence. Qed.

Lemma includes_nil (q : string) :
  includes "" q = String.prefix q "" || false.
Proof. reflexivity. Qed.

Lemma includes_cons (c : ascii) (s q : string) :
  includes (String c s) q = String.prefix q (String c s) || includes s q.
Proof. reflexivity. Qed.

(** [includes] finds exactly the texts that occur. *)
Lemma includes_contains (s q : string) :
  includes s q = true <-> contains s q.
Proof.
  unfold contains. split.
  - induction s as [|c s IH].
    + rewrite includes_nil, orb_false_r.
      intros (r & Hr)%prefix_cut. now exists "", r.
    + rewrite includes_cons.
      intros [(r & Hr)%prefix_cut | (pre & post & ->)%IH]%orb_true_iff.
      * exists "", r. exact Hr.
      * now exists (String c pre), post.
  - intros (pre & post & ->). induction pre as [|c pre IH].
    + change ("" +:+ q +:+ post) with (q +:+ post).
      destruct (q +:+ post) as [|c r] eqn:E.
      * rewrite includes_nil, <- E, prefix_app. reflexivity.
      * rewrite includes_cons, <- E, prefix_app. reflexivity.
    + change (String c pre +:+ q +:+ post) with (String c (pre +:+ q +:+ post)).
      rewrite includes_cons, IH. apply orb_true_r.
Qed.

Lemma includes_itself (s : string) : includes s s = true.
Proof.
  apply includes_contains. exists "", "". simpl. now rewrite app_nil_r.
Qed.

End ListFacts.

(** ** Saving a quotation *)

Module SavingFacts.
Import TextFacts CalendarFacts DateFacts FormFacts JSText OrderForm OrderScreen
  ScreenSpec.

(** *** Clients *)

Lemma loadClients_runs (e : Env) (s : St) :
  loadClients e s = (Ok (readableClients e (world s)), s).
Proof.
  unfold loadClients, getClients, parseItems, step, readableClients. unfold_m.
  destruct (fails e (GetItem KClients)); simpl; [reflexivity |].
  destruct (clients (world s)); reflexivity.
Qed.

(** X1. Reading the clients never rejects and changes nothing: the stored
    array is handed over when it can be read, and the empty array when the
    key is missing, the text is not JSON or the read fails. *)
Theorem loadClients_never_rejects (e : Env) (s : St) :
  loadClients e s = (Ok (readableClients e (world s)), s)
  /\ (fails e (GetItem KClients) = true \/ clients (world s) = Absent
      \/ clients (world s) = Garbled ->
      readableClients e (world s) = [])
  /\ (forall l : list Client,
        fails e (GetItem KClients) = false -> clients (world s) = Items l ->
        readableClients e (world s) = l).
Proof.
  split; [apply loadClients_runs |]. unfold readableClients. split.
  - intros [-> | [-> | ->]]; [reflexivity | |];
      now destruct (fails e (GetItem KClients)).
  - now intros l -> ->.
Qed.

Lemma loadClients_never_rejects_witness :
  readableClients (env_failing (GetItem KClients)) world_known = []
  /\ readableClients env_quiet world_known
     = [mkClient "9000000001" "Asha" "Rohini" "";
        mkClient "9876543210" "Test User" "Delhi" "no onion";
        mkClient "9000000002" "Vikram" "Dwarka" "jain food"].
Proof.
  split.
  - destruct (loadClients_never_rejects (env_failing (GetItem KClients))
                (mkSt form_ready world_known)) as (_ & H & _).
    apply H. left. reflexivity.
  - destruct (loadClients_never_rejects env_quiet
                (mkSt form_ready world_known)) as (_ & _ & H).
    apply H; reflexivity.
Defined.

Lemma saveClient_reads (e : Env) (f : Form) (w : World) (b0 : OrderBlock)
    (bs : list OrderBlock) :
  mobile f <> "" -> clientName f <> "" -> orderBlocks f = b0 :: bs ->
  fails e (SetItem KClients) = false ->
  saveClient e (mkSt f w)
  = (Ok tt,
     mkSt f {| clients := Items (upserted (clientOf f b0) (readableClients e w));
               orders := orders w; folder := folder w; files := files w;
               writes := KClients :: writes w |}).
Proof.
  intros Hm Hn Hb Hs. rewrite (saveClient_runs e f w b0 bs Hm Hn Hb Hs).
  cbv zeta. unfold readableClients.
  destruct (fails e (GetItem KClients)); [reflexivity |].
  now destruct (clients w).
Qed.

(** X2. Saving the client does nothing while the mobile or the client name
    is empty. When the stored clients cannot be read (the read fails or the
    text is not JSON) and the write goes through, the stored clients are
    replaced by the single record of the form. *)
Theorem saveClient_unreadable_clients (e : Env) (f : Form) (w : World) :
  (mobile f = "" \/ clientName f = "" ->
   saveClient e (mkSt f w) = (Ok tt, mkSt f w))
  /\ (forall (b0 : OrderBlock) (bs : list OrderBlock),
        mobile f <> "" -> clientName f <> "" -> orderBlocks f = b0 :: bs ->
        fails e (GetItem KClients) = true \/ clients w = Garbled ->
        fails e (SetItem KClients) = false ->
        fst (saveClient e (mkSt f w)) = Ok tt
        /\ clients (world (snd (saveClient e (mkSt f w))))
           = Items [clientOf f b0]).
Proof.
  split.
  - intros [Hm | Hn]; unfold saveClient; unfold_m; simpl.
    + now rewrite Hm.
    + rewrite Hn. now destruct (mobile f).
  - intros b0 bs Hm Hn Hb Hr Hs.
    rewrite (saveClient_reads e f w b0 bs Hm Hn Hb Hs). simpl.
    split; [reflexivity |].
    assert (readableClients e w = []) as ->; [| reflexivity].
    unfold readableClients.
    destruct Hr as [-> | ->]; [reflexivity |].
    now destruct (fails e (GetItem KClients)).
Qed.

Lemma saveClient_unreadable_clients_witness :
  saveClient env_quiet (mkSt (initialForm 0) world_known)
  = (Ok tt, mkSt (initialForm 0) world_known)
  /\ clients (world (snd (saveClient (env_failing (GetItem KClients))
                            (mkSt form_ready world_known))))
     = Items [mkClient "9876543210" "Test User" "Delhi" "no onion"].
Proof.
  split.
  - destruct (saveClient_unreadable_clients env_quiet (initialForm 0)
                world_known) as (H & _).
    apply H. left. reflexivity.
  - destruct (saveClient_unreadable_clients (env_failing (GetItem KClients))
                form_ready world_known) as (_ & H).
    destruct (H (mkBlock "1" "Paneer tikka" "no onion" "50") []
                ltac:(discriminate) ltac:(discriminate) eq_refl
                (or_introl eq_refl) eq_refl) as (_ & Hc).
    exact Hc.
Defined.

(** *** The checks of submission *)

Lemma trimStart_blank (s : string) :
  allChars isSpace s = true -> trimStart s = "".
Proof.
  induction s as [|c s IH]; simpl; [reflexivity |].
  intros [Hc Hs]%andb_true_iff. rewrite Hc. now apply IH.
Qed.

Lemma trimStart_head (s : string) :
  allChars isSpace s = false ->
  exists (c : ascii) (r : string), trimStart s = String c r /\ isSpace c = false.
Proof.
  induction s as [|c s IH]; simpl; [discriminate |].
  destruct (isSpace c) eqn:Hc; simpl; [exact IH |].
  intros _. now exists c, s.
Qed.

Lemma trimEnd_head (c : ascii) (r : string) :
  isSpace c = false -> truthy (trimEnd (String c r)) = true.
Proof.
  intros Hc. simpl. rewrite Hc. now destruct (trimEnd r).
Qed.

(** Trimming leaves nothing exactly of the texts made of white space. *)
Lemma trim_blank (s : string) : truthy (trim s) = negb (allChars isSpace s).
Proof.
  unfold trim. destruct (allChars isSpace s) eqn:Hs.
  - now rewrite (trimStart_blank s Hs).
  - destruct (trimStart_head s Hs) as (c & r & -> & Hc).
    now apply trimEnd_head.
Qed.

Lemma noMenuItem_blank (bs : list OrderBlock) :
  noMenuItem bs = forallb (fun b => allChars isSpace (b_description b)) bs.
Proof.
  unfold noMenuItem. induction bs as [|b bs IH]; simpl; [reflexivity |].
  now rewrite IH, trim_blank, negb_involutive.
Qed.

(** X3. The menu check asks for a block whose description has a character
    that is not white space: a form passes it exactly when some block has
    one, so a form without blocks, and one whose descriptions are empty or
    blank, do not pass. *)
Theorem menu_check_wants_text (bs : list OrderBlock) :
  noMenuItem bs = forallb (fun b => allChars isSpace (b_description b)) bs
  /\ noMenuItem [] = true
  /\ (noMenuItem bs = false
      <-> exists b : OrderBlock,
            In b bs /\ allChars isSpace (b_description b) = false).
Proof.
  split; [apply noMenuItem_blank |]. split; [reflexivity |].
  rewrite noMenuItem_blank. split.
  - induction bs as [|b bs IH]; simpl; [discriminate |].
    intros [Hb | Hbs]%andb_false_iff.
    + exists b. split; [now left | exact Hb].
    + destruct (IH Hbs) as (b' & Hin & Hb').
      exists b'. split; [now right | exact Hb'].
  - intros (b & Hin & Hb).
    destruct (forallb _ bs) eqn:Hall; [| reflexivity].
    rewrite forallb_forall in Hall. rewrite (Hall b Hin) in Hb. discriminate.
Qed.

Lemma menu_check_wants_text_witness :
  noMenuItem [mkBlock "1" "  " "" ""; mkBlock "2" "Dal makhani" "" "40"]
  = false.
Proof.
  destruct (menu_check_wants_text
              [mkBlock "1" "  " "" ""; mkBlock "2" "Dal makhani" "" "40"])
    as (_ & _ & H).
  apply H. exists (mkBlock "2" "Dal makhani" "" "40").
  split; [simpl; tauto | reflexivity].
Defined.

(** X4. A form that fails a check of submission gets the message of the
    first check it fails (required fields, then the mobile, then the menu),
    no result, and nothing on the device is touched: no folder, no file, no
    write. *)
Theorem rejected_form_untouched (e : Env) (f : Form) (w : World) :
  (requiredFilled f = false ->
   generateAndSavePDF e (mkSt f w)
   = (Ok None, mkSt (showing "Fill all required fields." f) w))
  /\ (requiredFilled f = true -> mobileRejected (mobile f) = true ->
      generateAndSavePDF e (mkSt f w)
      = (Ok None, mkSt (showing "Mobile must be 10 digits." f) w))
  /\ (requiredFilled f = true -> mobileRejected (mobile f) = false ->
      noMenuItem (orderBlocks f) = true ->
      generateAndSavePDF e (mkSt f w)
      = (Ok None, mkSt (showing "Add at least one menu item." f) w)).
Proof.
  unfold requiredFilled, generateAndSavePDF, setSnackbar, showing. unfold_m.
  simpl. repeat split.
  - intros Hr.
    destruct (truthy (orderId f)), (truthy (clientName f)),
      (truthy (mobile f)), (truthy (address f)),
      (truthy (quotationAmount f)); try discriminate Hr; reflexivity.
  - intros Hr Hm.
    repeat (apply andb_true_iff in Hr as [Hr ?]).
    repeat match goal with H : truthy _ = true |- _ => rewrite H; clear H end.
    simpl. now rewrite Hm.
  - intros Hr Hm Hn.
    repeat (apply andb_true_iff in Hr as [Hr ?]).
    repeat match goal with H : truthy _ = true |- _ => rewrite H; clear H end.
    simpl. now rewrite Hm, Hn.
Qed.

Lemma rejected_form_untouched_witness :
  generateAndSavePDF env_quiet (mkSt (initialForm 0) world_known)
  = (Ok None,
     mkSt (showing "Fill all required fields." (initialForm 0)) world_known)
  /\ generateAndSavePDF env_quiet
       (mkSt (setOrderBlocks (fun _ => []) form_ready) world_known)
     = (Ok None,
        mkSt (showing "Add at least one menu item."
                (setOrderBlocks (fun _ => []) form_ready)) world_known).
Proof.
  split.
  - destruct (rejected_form_untouched env_quiet (initialForm 0) world_known)
      as (H & _).
    apply H. reflexivity.
  - destruct (rejected_form_untouched env_quiet
                (setOrderBlocks (fun _ => []) form_ready) world_known)
      as (_ & _ & H).
    apply H; reflexivity.
Defined.

(** *** A save that goes through *)

Lemma submittable_parts (f : Form) :
  submittable f = true ->
  mobile f <> "" /\ clientName f <> "" /\ orderId f <> ""
  /\ exists (d : Z) (b0 : OrderBlock) (bs : list OrderBlock),
       date f = Some d /\ orderBlocks f = b0 :: bs.
Proof.
  intros (H1 & H2 & H3 & _ & _ & _ & H7 & d & H8)%submittable_fields.
  destruct (noMenuItem_nonempty _ H7) as (b0 & bs & Hb).
  repeat split.
  - intros E. now rewrite E in H3.
  - intros E. now rewrite E in H2.
  - intros E. now rewrite E in H1.
  - now exists d, b0, bs.
Qed.

Lemma saving_goes_through (e : Env) (f : Form) (w : World) (d : Z)
    (b0 : OrderBlock) (bs : list OrderBlock) (l : list Entry) :
  submittable f = true -> (forall st : Step, fails e st = false) ->
  date f = Some d -> orderBlocks f = b0 :: bs ->
  storedList (orders w) = Some l ->
  generateAndSavePDF e (mkSt f w)
  = (Ok (Some (finalUriOf e f)),
     mkSt f
       {| clients := Items (upserted (clientOf f b0) (readableClients e w));
          orders := Items (l ++ [orderOf f (dateTimeText e d (time f))
                                   (finalUriOf e f)]);
          folder := true;
          files := finalUriOf e f :: tmpUri e :: files w;
          writes := KClients :: KOrders :: writes w |}).
Proof.
  intros Hs Hq Hd Hb Hl. rewrite (submittable_runs e f w Hs).
  destruct (submittable_parts f Hs) as (Hm & Hn & _ & _).
  unfold saving.
  unfold ensureFolder, formatDateTime, getOrders, setOrders, addFile,
    parseItems, step, finalUriOf, dateTimeText.
  unfold_m. simpl. rewrite !Hq. simpl.
  assert (forall w1 : World,
             saveClient e (mkSt f w1)
             = (Ok tt,
                mkSt f {| clients := Items (upserted (clientOf f b0)
                                              (readableClients e w1));
                          orders := orders w1; folder := folder w1;
                          files := files w1;
                          writes := KClients :: writes w1 |})) as Hsave.
  { intros w1. apply (saveClient_reads e f w1 b0 bs Hm Hn Hb (Hq _)). }
  destruct (folder w) eqn:Hfo; simpl; rewrite Hd; simpl;
    destruct (orders w) as [| |l0] eqn:Ho; try discriminate Hl;
    injection Hl as <-; simpl; rewrite Hsave; simpl;
    unfold readableClients; simpl; rewrite ?Hfo; reflexivity.
Qed.

(** X5. A form that passes the checks, on a device where no step fails and
    the stored orders can be read: the result is the path of the PDF in the
    quotations folder, the folder exists, the printed file and its copy are
    written, exactly one order is added at the end of the stored orders
    (with the fields of the form, the text of the event date and time, and
    that path), the client is saved, and the form is left as it was. *)
Theorem save_goes_through (e : Env) (f : Form) (w : World) :
  submittable f = true -> (forall st : Step, fails e st = false) ->
  orders w <> Garbled ->
  exists (d : Z) (b0 : OrderBlock) (bs : list OrderBlock) (l : list Entry),
    date f = Some d /\ orderBlocks f = b0 :: bs
    /\ storedList (orders w) = Some l
    /\ generateAndSavePDF e (mkSt f w)
       = (Ok (Some (BBN_DIR e +:+ orderId f +:+ ".pdf")),
          mkSt f
            {| clients := Items (upserted (clientOf f b0) (readableClients e w));
               orders :=
                 Items (l ++ [Some
                   {| o_id := Some (orderId f);
                      o_clientName := Some (clientName f);
                      o_mobile := Some (mobile f);
                      o_address := Some (address f);
                      o_dateTime :=
                        Some (toLocaleDateString_enGB (tz e) d +:+ " at "
                              +:+ toLocaleTimeString_enUS (tz e) (time f));
                      o_orderBlocks := Some (orderBlocks f);
                      o_quotationAmount := Some (quotationAmount f);
                      o_pdfUri := Some (BBN_DIR e +:+ orderId f +:+ ".pdf") |}]);
               folder := true;
               files := (BBN_DIR e +:+ orderId f +:+ ".pdf")
                        :: tmpUri e :: files w;
               writes := KClients :: KOrders :: writes w |}).
Proof.
  intros Hs Hq Hg.
  destruct (submittable_parts f Hs) as (_ & _ & _ & d & b0 & bs & Hd & Hb).
  assert (exists l, storedList (orders w) = Some l) as (l & Hl).
  { destruct (orders w) as [| |l]; [now exists [] | congruence | now exists l]. }
  exists d, b0, bs, l. repeat split; try assumption.
  apply (saving_goes_through e f w d b0 bs l Hs Hq Hd Hb Hl).
Qed.

Lemma save_goes_through_witness :
  exists (d : Z) (b0 : OrderBlock) (bs : list OrderBlock) (l : list Entry),
    date form_ready = Some d /\ orderBlocks form_ready = b0 :: bs
    /\ storedList (orders world_known) = Some l
    /\ generateAndSavePDF env_quiet (mkSt form_ready world_known)
       = (Ok (Some "doc/BBN_Quotations/TESTUSER05032025Q001.pdf"),
          mkSt form_ready
            {| clients := Items (upserted (clientOf form_ready b0)
                                   (readableClients env_quiet world_known));
               orders :=
                 Items (l ++ [Some
                   {| o_id := Some "TESTUSER05032025Q001";
                      o_clientName := Some "Test User";
                      o_mobile := Some "9876543210";
                      o_address := Some "Delhi";
                      o_dateTime :=
                        Some (toLocaleDateString_enGB IST d +:+ " at "
                              +:+ toLocaleTimeString_enUS IST 1741170600000);
                      o_orderBlocks := Some (orderBlocks form_ready);
                      o_quotationAmount := Some "25000";
                      o_pdfUri :=
                        Some "doc/BBN_Quotations/TESTUSER05032025Q001.pdf" |}]);
               folder := true;
               files := ["doc/BBN_Quotations/TESTUSER05032025Q001.pdf";
                         "tmp/print.pdf"];
               writes := [KClients; KOrders] |}).
Proof.
  apply (save_goes_through env_quiet form_ready world_known);
    [reflexivity | reflexivity | discriminate].
Defined.

(** *** What a save leaves behind *)

Ltac added_files :=
  first [ now exists [] | now eexists [_] | now eexists [_; _] ].

Ltac outcome :=
  simpl; repeat split;
  try solve [ reflexivity | discriminate | left; reflexivity
            | right; reflexivity | added_files | now left | now right; left
            | intros Hx; discriminate Hx
            | right; eexists _, _; repeat split; try reflexivity;
              simpl; tauto
            | eexists _, _; repeat split; try reflexivity; simpl; tauto ].

Ltac branch b := destruct b eqn:?; simpl; [outcome |].

(** The outcomes of a save, whatever fails. *)
Lemma saving_outcome (e : Env) (f : Form) (w : World) :
  submittable f = true ->
  let out := generateAndSavePDF e (mkSt f w) in
  let uri := finalUriOf e f in
  (fst out = Ok (Some uri) \/ fst out = Ok None)
  /\ (form (snd out) = f
      \/ form (snd out) = showing "Failed to generate PDF" f)
  /\ (exists added : list string,
        files (world (snd out)) = added ++ files w)
  /\ (orders (world (snd out)) = orders w
      \/ exists (l : list Entry) (dt : string),
           storedList (orders w) = Some l
           /\ orders (world (snd out)) = Items (l ++ [orderOf f dt uri])
           /\ In uri (files (world (snd out))))
  /\ (fst out = Ok (Some uri) ->
      form (snd out) = f
      /\ exists (l : list Entry) (dt : string),
           storedList (orders w) = Some l
           /\ orders (world (snd out)) = Items (l ++ [orderOf f dt uri])
           /\ In uri (files (world (snd out)))).
Proof.
  intros Hs out uri. unfold out, uri. rewrite (submittable_runs e f w Hs).
  apply submittable_fields in Hs
    as (H1 & H2 & H3 & H4 & H5 & H6 & H7 & d & H8).
  destruct (noMenuItem_nonempty _ H7) as (b0 & bs & Hbs).
  destruct f as [oid cn mob addr dte tm blocks qa sv sm].
  destruct w as [cl ord fol fls wr].
  simpl in H1, H2, H3, H4, H5, H6, H7, H8, Hbs. subst dte blocks.
  unfold saving, ensureFolder, formatDateTime, getOrders, setOrders, saveClient,
    loadClients, getClients, setClients, addFile, parseItems, setSnackbar, step,
    showing, finalUriOf.
  unfold_m. simpl.
  branch (fails e GetInfo).
  destruct fol; simpl; [| branch (fails e MakeDirectory)].
  all: branch (fails e PrintToFile).
  all: branch (fails e CopyFile).
  all: branch (fails e (GetItem KOrders)).
  all: destruct ord as [| |l]; simpl; [| outcome |].
  all: branch (fails e (SetItem KOrders)).
  all: rewrite H2, H3; simpl.
  all: destruct (fails e (GetItem KClients)), cl as [| |cs];
    simpl; destruct (fails e (SetItem KClients)); outcome.
Qed.

(** X6. When the PDF has been printed and copied into the folder and the
    stored orders then cannot be read or written, the save reports the
    failure and stores no order, but the printed file and its copy stay on
    the device: nothing removes them. *)
Theorem pdf_left_behind (e : Env) (f : Form) (w : World) :
  submittable f = true ->
  fails e GetInfo = false ->
  (folder w = false -> fails e MakeDirectory = false) ->
  fails e PrintToFile = false -> fails e CopyFile = false ->
  fails e (GetItem KOrders) = true \/ orders w = Garbled
  \/ fails e (SetItem KOrders) = true ->
  let out := generateAndSavePDF e (mkSt f w) in
  fst out = Ok None
  /\ form (snd out) = showing "Failed to generate PDF" f
  /\ orders (world (snd out)) = orders w
  /\ clients (world (snd out)) = clients w
  /\ folder (world (snd out)) = true
  /\ files (world (snd out))
     = (BBN_DIR e +:+ orderId f +:+ ".pdf") :: tmpUri e :: files w.
Proof.
  intros Hs Hi Hmk Hp Hc Hbad out. unfold out.
  rewrite (submittable_runs e f w Hs).
  apply submittable_fields in Hs
    as (H1 & H2 & H3 & H4 & H5 & H6 & H7 & d & H8).
  destruct f as [oid cn mob addr dte tm blocks qa sv sm].
  destruct w as [cl ord fol fls wr].
  simpl in H1, H2, H3, H4, H5, H6, H7, H8, Hmk, Hbad. subst dte.
  unfold saving, ensureFolder, formatDateTime, getOrders, setOrders, saveClient,
    loadClients, getClients, setClients, addFile, parseItems, setSnackbar, step,
    showing.
  unfold_m. simpl. rewrite Hi. simpl.
  destruct fol; simpl; [| rewrite (Hmk eq_refl); simpl].
  all: rewrite Hp; simpl; rewrite Hc; simpl.
  all: destruct (fails e (GetItem KOrders)) eqn:Hg; simpl;
    [repeat split; reflexivity |].
  all: destruct ord as [| |l]; simpl; [| repeat split; reflexivity |].
  all: destruct Hbad as [Hb | [Hb | Hb]]; try discriminate Hb.
  all: rewrite Hb; simpl; repeat split; reflexivity.
Qed.

Lemma pdf_left_behind_witness :
  let out := generateAndSavePDF (env_failing (SetItem KOrders))
               (mkSt form_ready world_empty) in
  fst out = Ok None
  /\ orders (world (snd out)) = Absent
  /\ files (world (snd out))
     = ["doc/BBN_Quotations/TESTUSER05032025Q001.pdf"; "tmp/print.pdf"].
Proof.
  destruct (pdf_left_behind (env_failing (SetItem KOrders)) form_ready
              world_empty eq_refl eq_refl (fun _ => eq_refl) eq_refl eq_refl
              (or_intror (or_intror eq_refl)))
    as (Hr & _ & Ho & _ & _ & Hf).
  repeat split; assumption.
Defined.

Lemma unsubmittable_world (e : Env) (f : Form) (w : World) :
  submittable f = false ->
  world (snd (generateAndSavePDF e (mkSt f w))) = w.
Proof.
  unfold submittable, generateAndSavePDF, setSnackbar. unfold_m. simpl.
  destruct (truthy (orderId f)), (truthy (clientName f)),
    (truthy (mobile f)), (truthy (address f)),
    (truthy (quotationAmount f)); simpl; try reflexivity.
  destruct (mobileRejected (mobile f)); simpl; [reflexivity |].
  destruct (noMenuItem (orderBlocks f)); simpl; [reflexivity |].
  destruct (date f); [discriminate | reflexivity].
Qed.

Lemma pdfOnDisk_saved (e : Env) (f : Form) (w : World) :
  pdfOnDisk w -> pdfOnDisk (world (snd (generateAndSavePDF e (mkSt f w)))).
Proof.
  intros Hinv. destruct (submittable f) eqn:Hs;
    [| now rewrite unsubmittable_world].
  destruct (saving_outcome e f w Hs) as (_ & _ & (added & Hfiles) & Ho & _).
  unfold pdfOnDisk in *. destruct Ho as [Ho | (l & dt & Hl & Ho & Hin)].
  - rewrite Ho, Hfiles. destruct (orders w) as [| |os]; try exact I.
    intros so u Hso Hu. apply in_or_app. right. now apply (Hinv so u).
  - rewrite Ho. intros so u [Hso | Hso]%in_app_or Hu.
    + rewrite Hfiles. apply in_or_app. right.
      destruct (orders w) as [| |os]; try discriminate Hl.
      * injection Hl as <-. destruct Hso.
      * injection Hl as <-. now apply (Hinv so u).
    + destruct Hso as [Hso | []]. unfold orderOf in Hso.
      injection Hso as <-. simpl in Hu. injection Hu as <-. exact Hin.
Qed.

Lemma pdfOnDisk_loaded (e : Env) (w : World) :
  pdfOnDisk w -> pdfOnDisk (snd (History.load e w)).
Proof.
  intros Hinv. unfold History.load.
  destruct (fails e (GetItem KOrders)); [exact Hinv |].
  destruct (orders w) as [| |os] eqn:Ho; try exact Hinv.
  destruct (negb _); [| exact Hinv].
  destruct (fails e (SetItem KOrders)); [exact Hinv |].
  unfold pdfOnDisk in *. rewrite Ho in Hinv. simpl.
  intros so u (o & Heq & Hin)%in_map_iff Hu.
  assert (In o (History.validOrders os)) as Hv.
  { apply list_elem_of_In.
    eapply (elem_of_sublist _ _ _); [| apply HistoryFacts.dedupeFrom_sublist].
    apply list_elem_of_In. exact Hin. }
  apply HistoryFacts.validOrders_spec in Hv
    as (so0 & Hin0 & _ & _ & (u0 & Hu0 & _) & ->).
  unfold History.toEntry in Heq. injection Heq as <-. simpl in Hu.
  rewrite Hu0 in Hu. simpl in Hu. injection Hu as <-.
  now apply (Hinv so0 u0).
Qed.

(** X7. Every stored order names a PDF that has been written: if this
    holds of the device, it holds after a save, whatever the form holds and
    whichever step fails, and after the history screen has loaded and
    repaired the stored orders. *)
Theorem stored_pdfs_on_disk (e : Env) (f : Form) (w : World) :
  pdfOnDisk w ->
  pdfOnDisk (world (snd (generateAndSavePDF e (mkSt f w))))
  /\ pdfOnDisk (snd (History.load e w))
  /\ pdfOnDisk
       (snd (History.load e (world (snd (generateAndSavePDF e (mkSt f w)))))).
Proof.
  intros Hinv. split; [now apply pdfOnDisk_saved |].
  split; [now apply pdfOnDisk_loaded |].
  now apply pdfOnDisk_loaded, pdfOnDisk_saved.
Qed.

Lemma stored_pdfs_on_disk_witness :
  pdfOnDisk world_empty
  /\ pdfOnDisk
       (world (snd (generateAndSavePDF env_quiet (mkSt form_ready world_empty)))).
Proof.
  split; [exact I |].
  destruct (stored_pdfs_on_disk env_quiet form_ready world_empty I) as (H & _).
  exact H.
Defined.

End SavingFacts.

(** ** The quotation id and the stored orders *)

Module QuotationIdFacts.
Import TextFacts CalendarFacts DateFacts FormFacts JSText OrderForm OrderScreen
  ScreenSpec ListFacts SavingFacts.


Lemma generateOrderId_counts (e : Env) (f : Form) (w : World) (d : Z)
    (os : list Entry) :
  date f = Some d -> clientName f <> "" ->
  fails e (GetItem KOrders) = false ->
  storedList (orders w) = Some os ->
  forallb notNull os = true ->
  generateOrderId e (mkSt f w)
  = (Ok (baseOf e (clientName f) d
         +:+ padStart 3 "0"
               (StringZ (Z.of_nat (length (List.filter
                  (idStartsWith (baseOf e (clientName f) d)) os)) + 1))),
     mkSt f w).
Proof.
  intros Hd Hn Hf Hs Hnn.
  unfold generateOrderId, getOrders, step, parseItems. unfold_m. simpl.
  rewrite Hd, Hf. destruct (clientName f) as [|c r] eqn:Hname; [congruence |].
  simpl negb. cbv iota.
  destruct (orders w) as [| |l] eqn:Hw; simpl in Hs; try discriminate;
    injection Hs as <-; simpl; rewrite Hw.
  - reflexivity.
  - now rewrite sameBase_filter.
Qed.

(** X8. Quotations for the same client and event date are numbered one
    after the other: when the id of the form starts with the base of its
    client name and date, the id generated after a save that went through
    has the number that follows the one generated before it. When the id of
    the form belongs to another name or date, the number does not move. *)
Theorem next_id_after_save (e : Env) (f : Form) (w : World) (d : Z)
    (l : list Entry) :
  submittable f = true -> (forall st : Step, fails e st = false) ->
  date f = Some d -> storedList (orders w) = Some l ->
  forallb notNull l = true ->
  let base := baseOf e (clientName f) d in
  let n := Z.of_nat (length (List.filter (idStartsWith base) l)) in
  let w' := world (snd (generateAndSavePDF e (mkSt f w))) in
  generateOrderId e (mkSt f w)
  = (Ok (base +:+ padStart 3 "0" (StringZ (n + 1))), mkSt f w)
  /\ (startsWith base (orderId f) = true ->
      generateOrderId e (mkSt f w')
      = (Ok (base +:+ padStart 3 "0" (StringZ (n + 2))), mkSt f w'))
  /\ (startsWith base (orderId f) = false ->
      generateOrderId e (mkSt f w')
      = (Ok (base +:+ padStart 3 "0" (StringZ (n + 1))), mkSt f w')).
Proof.
  intros Hs Hq Hd Hl Hnn base n w'.
  destruct (submittable_parts f Hs) as (_ & Hn & _ & d' & b0 & bs & Hd' & Hb).
  assert (d' = d) as -> by congruence.
  split; [exact (generateOrderId_counts e f w d l Hd Hn (Hq _) Hl Hnn) |].
  set (o := orderOf f (dateTimeText e d (time f)) (finalUriOf e f)).
  assert (storedList (orders w') = Some (l ++ [o])) as Hl'.
  { unfold w'. now rewrite (saving_goes_through e f w d b0 bs l Hs Hq Hd Hb Hl). }
  assert (forallb notNull (l ++ [o]) = true) as Hnn'
    by (rewrite forallb_app, Hnn; reflexivity).
  pose proof (generateOrderId_counts e f w' d (l ++ [o]) Hd Hn (Hq _) Hl' Hnn')
    as Hrun.
  fold base in Hrun. rewrite List.filter_app, List.length_app in Hrun.
  simpl in Hrun. split; intros Hp; rewrite Hp in Hrun; simpl in Hrun;
    rewrite Hrun;
    match goal with
    | |- (Ok (_ +:+ padStart _ _ (StringZ ?a)), _) = _ =>
        match goal with
        | |- _ = (Ok (_ +:+ padStart _ _ (StringZ ?b)), _) =>
            replace a with b by (unfold n; lia)
        end
    end; reflexivity.
Qed.

Lemma next_id_after_save_witness :
  let w' := world (snd (generateAndSavePDF env_quiet
                          (mkSt form_ready world_empty))) in
  generateOrderId env_quiet (mkSt form_ready world_empty)
  = (Ok "TESTUSER05032025Q001", mkSt form_ready world_empty)
  /\ generateOrderId env_quiet (mkSt form_ready w')
     = (Ok "TESTUSER05032025Q002", mkSt form_ready w').
Proof.
  destruct (next_id_after_save env_quiet form_ready world_empty
              1741132800000 [] eq_refl (fun _ => eq_refl) eq_refl eq_refl
              eq_refl) as (H1 & H2 & _).
  split; [exact H1 | exact (H2 eq_refl)].
Defined.

Lemma sameBase_null (base : string) (os : list Entry) (s : St) :
  In None os -> sameBase base os s = (Throw, s).
Proof.
  induction os as [|o os IH]; intros Hin; [destruct Hin |].
  destruct o as [so|]; [| reflexivity].
  destruct Hin as [Hin | Hin]; [discriminate |].
  simpl. unfold_m. now rewrite (IH Hin).
Qed.

(** X9. The id needs the stored orders: when client name and date are
    there and the stored orders cannot be read (the read fails, the text is
    not JSON, or the array holds a null), generating the id rejects, the
    effect that refreshes the id leaves the form as it is, and a form whose
    id is still empty is refused with the message about required fields. *)
Theorem id_needs_readable_orders (e : Env) (f : Form) (w : World) :
  clientName f <> "" -> date f <> None ->
  fails e (GetItem KOrders) = true \/ orders w = Garbled
  \/ (exists l : list Entry, orders w = Items l /\ In None l) ->
  generateOrderId e (mkSt f w) = (Throw, mkSt f w)
  /\ refreshOrderId e (mkSt f w) = (Throw, mkSt f w)
  /\ (orderId f = "" ->
      generateAndSavePDF e (mkSt f w)
      = (Ok None, mkSt (showing "Fill all required fields." f) w)).
Proof.
  intros Hn Hd Hbad.
  assert (generateOrderId e (mkSt f w) = (Throw, mkSt f w)) as Hgen.
  { unfold generateOrderId, getOrders, step, parseItems. unfold_m. simpl.
    destruct (date f) as [d|]; [| congruence].
    destruct (clientName f) as [|c r]; [congruence |]. simpl.
    destruct (fails e (GetItem KOrders)) eqn:Hf; [reflexivity |]. simpl.
    destruct Hbad as [Hb | [Hb | (l & Hb & Hin)]]; [discriminate | |];
      rewrite Hb; [reflexivity |].
    simpl. now rewrite (sameBase_null _ l _ Hin). }
  split; [exact Hgen |]. split.
  - unfold refreshOrderId. unfold_m. now rewrite Hgen.
  - intros Hid. unfold generateAndSavePDF, setSnackbar, showing. unfold_m.
    simpl. rewrite Hid. simpl. now rewrite Hid.
Qed.

Lemma id_needs_readable_orders_witness :
  refreshOrderId env_quiet
    (mkSt form_test (mkWorld Absent Garbled false [] []))
  = (Throw, mkSt form_test (mkWorld Absent Garbled false [] []))
  /\ generateAndSavePDF env_quiet
       (mkSt form_test (mkWorld Absent Garbled false [] []))
     = (Ok None,
        mkSt (showing "Fill all required fields." form_test)
          (mkWorld Absent Garbled false [] [])).
Proof.
  destruct (id_needs_readable_orders env_quiet form_test
              (mkWorld Absent Garbled false [] [])
              ltac:(discriminate) ltac:(discriminate)
              (or_intror (or_introl eq_refl))) as (_ & H2 & H3).
  split; [exact H2 | exact (H3 eq_refl)].
Defined.

Lemma padded_value (k : Z) : 0 <= k -> digitsVal (padStart 3 "0" (StringZ k)) = k.
Proof. intros Hk. rewrite padStart_value. now apply StringZ_value. Qed.

(** X10. The generated id is new as long as the numbers under its base
    have no gap: when every stored id that starts with the base of the
    client name and date is the base followed by one of the numbers from 1
    to the count of such ids, the id generated next, which carries the
    count plus one, is the id of no stored order. *)
Theorem generated_id_is_new (e : Env) (f : Form) (w : World) (d : Z)
    (os : list Entry) :
  date f = Some d -> clientName f <> "" ->
  fails e (GetItem KOrders) = false ->
  storedList (orders w) = Some os -> forallb notNull os = true ->
  let base := baseOf e (clientName f) d in
  let n := Z.of_nat (length (List.filter (idStartsWith base) os)) in
  (forall (so : StoredOrder) (i : string),
      In (Some so) os -> o_id so = Some i -> startsWith base i = true ->
      exists k : Z, 1 <= k <= n /\ i = base +:+ padStart 3 "0" (StringZ k)) ->
  exists newId : string,
    generateOrderId e (mkSt f w) = (Ok newId, mkSt f w)
    /\ newId = base +:+ padStart 3 "0" (StringZ (n + 1))
    /\ forall so : StoredOrder, In (Some so) os -> o_id so <> Some newId.
Proof.
  intros Hd Hn Hg Hs Hnn base n Hgap.
  exists (base +:+ padStart 3 "0" (StringZ (n + 1))).
  split; [exact (generateOrderId_counts e f w d os Hd Hn Hg Hs Hnn) |].
  split; [reflexivity |].
  intros so Hin Hid.
  destruct (Hgap so _ Hin Hid) as (k & Hk & E).
  { unfold startsWith. apply prefix_app. }
  apply append_inv_head in E. apply (f_equal digitsVal) in E.
  rewrite !padded_value in E; lia.
Qed.

Lemma generated_id_is_new_witness :
  exists newId : string,
    generateOrderId env_quiet
      (mkSt (form_A 1741132800000) (world_with_orders orders_001_to_999))
    = (Ok newId,
       mkSt (form_A 1741132800000) (world_with_orders orders_001_to_999))
    /\ newId = "A05032025Q1000"
    /\ forall so : StoredOrder,
         In (Some so) orders_001_to_999 -> o_id so <> Some newId.
Proof.
  apply (generated_id_is_new env_quiet (form_A 1741132800000)
           (world_with_orders orders_001_to_999) 1741132800000
           orders_001_to_999);
    try reflexivity; try discriminate.
  intros so i (k & E & Hk)%in_map_iff Hid _. unfold stored_with_id in E.
  injection E as <-. simpl in Hid. injection Hid as <-.
  exists k. split; [| reflexivity].
  unfold zrange in Hk. apply in_map_iff in Hk as (j & <- & Hj%in_seq).
  change (Z.of_nat (length (List.filter _ orders_001_to_999))) with 999.
  lia.
Defined.

Lemma sameBase_result (base : string) (os : list Entry) (s1 s2 : St) :
  fst (sameBase base os s1) = fst (sameBase base os s2).
Proof.
  induction os as [|o os IH]; [reflexivity |].
  destruct o as [so|]; [| reflexivity].
  simpl. unfold_m.
  destruct (sameBase base os s1) as [r1 t1], (sameBase base os s2) as [r2 t2].
  simpl in IH. subst r2. now destruct r1.
Qed.

Lemma generateOrderId_reads (e : Env) (f1 f2 : Form) (w : World) :
  clientName f1 = clientName f2 -> date f1 = date f2 ->
  fst (generateOrderId e (mkSt f1 w)) = fst (generateOrderId e (mkSt f2 w)).
Proof.
  intros Hn Hd. unfold generateOrderId, getOrders, step, parseItems. unfold_m.
  simpl. rewrite Hn, Hd. destruct (date f2) as [d|]; [| reflexivity].
  destruct (truthy (clientName f2)); [| reflexivity]. simpl.
  destruct (fails e (GetItem KOrders)); [reflexivity |]. simpl.
  destruct (orders w) as [| |l]; try reflexivity. simpl.
  pose proof (sameBase_result (baseOf e (clientName f2) d) l
                (mkSt f1 w) (mkSt f2 w)) as H.
  destruct (sameBase _ l (mkSt f1 w)) as [r1 t1],
    (sameBase _ l (mkSt f2 w)) as [r2 t2].
  simpl in H. subst r2. now destruct r1.
Qed.

(** X11. The id follows the client name and the event date, and nothing
    else of the form: two forms with the same name and date get the same
    id on the same device, so the effect that refreshes the id needs to run
    on those two fields only. Picking a time, typing into a block and
    dismissing a picker leave the id as it is; a dismissed picker changes
    nothing of the form. *)
Theorem id_follows_name_and_date (e : Env) (f : Form) (w : World) :
  (forall f2 : Form,
      clientName f2 = clientName f -> date f2 = date f ->
      fst (generateOrderId e (mkSt f2 w)) = fst (generateOrderId e (mkSt f w)))
  /\ (forall (ios : bool) (selected : option Z) (p : Pickers),
        fst (generateOrderId e (mkSt (fst (onChangeTime ios selected f p)) w))
        = fst (generateOrderId e (mkSt f w)))
  /\ (forall (i : string) (fd : Field) (v : string),
        fst (generateOrderId e (mkSt (updateBlock i fd v f) w))
        = fst (generateOrderId e (mkSt f w)))
  /\ (forall (ios : bool) (p : Pickers),
        fst (onChangeDate ios None f p) = f
        /\ fst (onChangeTime ios None f p) = f)
  /\ (forall (ios : bool) (d : Z) (p : Pickers),
        date (fst (onChangeDate ios (Some d) f p)) = Some d
        /\ clientName (fst (onChangeDate ios (Some d) f p)) = clientName f).
Proof.
  split; [intros f2 Hn Hd; now apply generateOrderId_reads |].
  split; [| split; [| split]].
  - intros ios [t|] p; apply generateOrderId_reads; reflexivity.
  - intros i fd v. apply generateOrderId_reads; reflexivity.
  - intros ios p. split; reflexivity.
  - intros ios d p. split; reflexivity.
Qed.

Lemma id_follows_name_and_date_witness :
  fst (generateOrderId env_quiet
         (mkSt (fst (onChangeTime false (Some 0) form_test
                       (mkPickers false true))) world_empty))
  = Ok "TESTUSER05032025Q001".
Proof.
  destruct (id_follows_name_and_date env_quiet form_test world_empty)
    as (_ & H & _).
  rewrite H. reflexivity.
Defined.

End QuotationIdFacts.

(** ** From the order form to the history screen *)

Module JourneyFacts.
Import TextFacts CalendarFacts DateFacts FormFacts HistoryFacts JSText
  OrderScreen ScreenSpec ListFacts SavingFacts.

Lemma validOrders_app (a b : list Entry) :
  History.validOrders (a ++ b) = History.validOrders a ++ History.validOrders b.
Proof. unfold History.validOrders. now rewrite List.filter_app, List.map_app. Qed.

(** The order that a save stores passes the filter of the history screen. *)
Lemma saved_entry_valid (e : Env) (f : OrderForm.Form) (d t : Z) :
  OrderForm.orderId f <> "" ->
  History.isValid
    (OrderForm.orderOf f (dateTimeText e d t) (finalUriOf e f)) = true.
Proof.
  intros Hid. unfold History.isValid, OrderForm.orderOf, History.present.
  simpl. apply truthy_not_empty in Hid. rewrite Hid. simpl.
  apply andb_true_iff. split.
  - unfold dateTimeText. now apply truthy_app_r.
  - unfold finalUriOf. now apply truthy_app_r, truthy_app_r.
Qed.

(** An order that is loaded is shown, under its label. *)
Lemma listed (tz now : Z) (l : list History.Order) (o : History.Order) :
  In o l ->
  exists s : History.Section,
    In s (History.sectionsOf tz now l) /\ In o (History.data s)
    /\ History.title s = History.groupKey tz now o.
Proof.
  intros Hin. rewrite sections_groups. unfold groupsOf.
  set (sorted := History.sortBy (History.compareOrders tz now) l).
  assert (In o sorted) as Hs
    by (eapply Permutation_in; [symmetry; apply sortBy_perm | exact Hin]).
  set (k := History.groupKey tz now o).
  exists (History.mkSection k (List.filter (inGroup tz now k) sorted)
            (length (List.filter (inGroup tz now k) sorted))).
  split; [| split; [| reflexivity]].
  - apply in_map_iff. exists k. split; [reflexivity |].
    apply firstSeen_In. now apply in_map.
  - simpl. apply filter_In. split; [exact Hs |].
    unfold inGroup. apply String.eqb_refl.
Qed.

Lemma loaded_sections (e : Env) (w : World) (os : list Entry) :
  orders w = Items os -> fails e (GetItem KOrders) = false ->
  fails e (SetItem KOrders) = false ->
  fst (History.load e w)
  = History.sectionsOf (tz e) (clock e)
      (History.dedupe (History.validOrders os)).
Proof.
  intros Hw Hg Hs. rewrite (load_runs e w os Hw Hg). cbv zeta. rewrite Hs.
  now destruct (negb _).
Qed.

(** X12. An order saved by the form is shown by the history screen: after a
    save that went through, a load that reads and writes without fault
    lists, in one of its sections, an order under the id of the form; when
    no stored order had that id, it is the order just saved, with the
    fields of the form, its date and time text and the path of its PDF. *)
Theorem saved_order_is_listed (e : Env) (f : OrderForm.Form) (w : World)
    (d : Z) (l : list Entry) :
  submittable f = true -> (forall st : Step, fails e st = false) ->
  OrderForm.date f = Some d -> storedList (orders w) = Some l ->
  forall e2 : Env,
    fails e2 (GetItem KOrders) = false -> fails e2 (SetItem KOrders) = false ->
    let w1 := OrderForm.world
                (snd (OrderForm.generateAndSavePDF e (OrderForm.mkSt f w))) in
    exists (s : History.Section) (o : History.Order),
      In s (fst (History.load e2 w1)) /\ In o (History.data s)
      /\ History.id o = OrderForm.orderId f
      /\ (~ In (OrderForm.orderId f)
            (List.map History.id (History.validOrders l)) ->
          o = {| History.id := OrderForm.orderId f;
                 History.clientName := OrderForm.clientName f;
                 History.mobile := OrderForm.mobile f;
                 History.address := OrderForm.address f;
                 History.dateTime :=
                   toLocaleDateString_enGB (tz e) d +:+ " at "
                   +:+ toLocaleTimeString_enUS (tz e) (OrderForm.time f);
                 History.orderBlocks := OrderForm.orderBlocks f;
                 History.quotationAmount := OrderForm.quotationAmount f;
                 History.pdfUri :=
                   OrderForm.BBN_DIR e +:+ OrderForm.orderId f +:+ ".pdf" |}).
Proof.
  intros Hs Hq Hd Hl e2 Hg2 Hs2 w1.
  destruct (submittable_parts f Hs) as (_ & _ & Hid & d' & b0 & bs & Hd' & Hb).
  assert (d' = d) as -> by congruence.
  set (en := OrderForm.orderOf f (dateTimeText e d (OrderForm.time f))
               (finalUriOf e f)).
  assert (orders w1 = Items (l ++ [en])) as Hw1.
  { unfold w1. now rewrite (saving_goes_through e f w d b0 bs l Hs Hq Hd Hb Hl). }
  rewrite (loaded_sections e2 w1 _ Hw1 Hg2 Hs2).
  rewrite validOrders_app.
  assert (History.validOrders [en] = [History.normalize en]) as Hen.
  { pose proof (saved_entry_valid e f d (OrderForm.time f) Hid) as Hvalid.
    fold en in Hvalid. unfold History.validOrders. cbn [List.filter].
    now rewrite Hvalid. }
  rewrite Hen.
  set (n := History.normalize en). set (valid := History.validOrders l ++ [n]).
  destruct (dedupeFrom_first ∅ valid n) as (l1 & l2 & o & Hv & Ho & Hn1 & Hk).
  { unfold valid. apply in_or_app. right. now left. }
  { apply not_elem_of_empty. }
  destruct (listed (tz e2) (clock e2) (History.dedupe valid) o Hk)
    as (s & Hin & Hdata & _).
  exists s, o. split; [exact Hin |]. split; [exact Hdata |].
  split; [exact Ho |]. intros Hfresh.
  assert (In o valid) as Hov by (rewrite Hv; apply in_or_app; right; now left).
  unfold valid in Hov. apply in_app_or in Hov as [Hold | [<- | []]].
  - exfalso. apply Hfresh. change (OrderForm.orderId f) with (History.id n).
    rewrite <- Ho. now apply in_map.
  - reflexivity.
Qed.

Lemma saved_order_is_listed_witness :
  exists (s : History.Section) (o : History.Order),
    In s (fst (History.load env_quiet
                 (OrderForm.world
                    (snd (OrderForm.generateAndSavePDF env_quiet
                            (OrderForm.mkSt form_ready world_empty))))))
    /\ In o (History.data s)
    /\ History.id o = "TESTUSER05032025Q001"
    /\ History.dateTime o = "05/03/2025 at 4:00 PM".
Proof.
  destruct (saved_order_is_listed env_quiet form_ready world_empty
              1741132800000 [] eq_refl (fun _ => eq_refl) eq_refl eq_refl
              env_quiet eq_refl eq_refl) as (s & o & H1 & H2 & H3 & H4).
  exists s, o. split; [exact H1 |]. split; [exact H2 |]. split; [exact H3 |].
  rewrite H4; [reflexivity |]. intros [].
Defined.




(** The text stored with an order parses to the event day, at the hour and
    minute of the event time. *)
Lemma stored_text_parses (tz now d t : Z) :
  1000 <= YearFromTime (LocalTime tz d) <= 9999 ->
  - msPerDay <= tz <= msPerDay ->
  History.parseDate tz now
    (Some (toLocaleDateString_enGB tz d +:+ " at "
           +:+ toLocaleTimeString_enUS tz t))
  = Some (Day (LocalTime tz d) * msPerDay
          + MakeTime (HourFromTime (LocalTime tz t))
              (MinFromTime (LocalTime tz t)) - tz).
Proof.
  intros Hy Htz.
  remember (LocalTime tz d) as l eqn:El.
  remember (LocalTime tz t) as c eqn:Ec.
  pose proof (HourFromTime_range c) as Hh.
  pose proof (MinFromTime_range c) as Hmi.
  pose proof (MonthFromTime_range l) as Hm.
  pose proof (DateFromTime_pos l) as Hdd.
  rewrite formatted_canonical. cbv zeta. rewrite <- El, <- Ec.
  assert (0 <= (if HourFromTime c mod 12 =? 0 then 12 else HourFromTime c mod 12))
    as Hh12
    by (pose proof (Z.mod_pos_bound (HourFromTime c) 12);
        destruct (HourFromTime c mod 12 =? 0); lia).
  rewrite parseDate_canonical by
    first [ apply padStart_digits, StringZ_digits; lia
          | apply StringZ_digits; lia
          | apply padStart_truthy, StringZ_truthy
          | apply StringZ_truthy ].
  rewrite !padStart_value, !StringZ_value by lia.
  rewrite (to24_of_12 _ Hh).
  rewrite El, Ec. apply newDate_fields; [now rewrite <- El | exact Htz].
Qed.

(** X14. An order saved by the form is filed by the history screen under
    the month and the year of its event date, whatever the clock reads at
    load time: for an event date with a four-digit year, the label of the
    stored order is the name of that month, a space and that year. *)
Theorem saved_order_month (e : Env) (f : OrderForm.Form) (w : World) (d : Z) :
  OrderForm.date f = Some d ->
  1000 <= YearFromTime (LocalTime (tz e) d) <= 9999 ->
  - msPerDay <= tz e <= msPerDay ->
  exists dt : string,
    OrderForm.formatDateTime e (OrderForm.mkSt f w)
    = (OrderForm.Ok dt, OrderForm.mkSt f w)
    /\ forall (now : Z) (o : History.Order),
         History.dateTime o = dt ->
         History.groupKey (tz e) now o
         = monthName (MonthFromTime (LocalTime (tz e) d)) +:+ " "
           +:+ StringZ (YearFromTime (LocalTime (tz e) d)).
Proof.
  intros Hd Hy Htz.
  exists (toLocaleDateString_enGB (tz e) d +:+ " at "
          +:+ toLocaleTimeString_enUS (tz e) (OrderForm.time f)).
  split.
  { unfold OrderForm.formatDateTime, mbind, OrderForm.M_bind, OrderForm.bind,
      OrderForm.getForm. simpl. now rewrite Hd. }
  intros now o Ho. unfold History.groupKey. rewrite Ho.
  rewrite (stored_text_parses (tz e) now d _ Hy Htz).
  set (l := LocalTime (tz e) d).
  set (c := LocalTime (tz e) (OrderForm.time f)).
  pose proof (HourFromTime_range c) as Hh.
  pose proof (MinFromTime_range c) as Hmi.
  assert (LocalTime (tz e)
            (Day l * msPerDay + MakeTime (HourFromTime c) (MinFromTime c) - tz e)
          = Day l * msPerDay + MakeTime (HourFromTime c) (MinFromTime c)) as ->
    by (unfold LocalTime; lia).
  destruct (same_day_fields _ l (rebuilt_Day (Day l) _ _ Hh Hmi))
    as (-> & -> & _).
  reflexivity.
Qed.

Lemma saved_order_month_witness :
  exists dt : string,
    OrderForm.formatDateTime env_quiet (OrderForm.mkSt form_ready world_empty)
    = (OrderForm.Ok dt, OrderForm.mkSt form_ready world_empty)
    /\ forall now : Z, History.groupKey IST now (dated "A" dt) = "March 2025".
Proof.
  destruct (saved_order_month env_quiet form_ready world_empty 1741132800000
              eq_refl) as (dt & Hf & Hk).
  - vm_compute. split; discriminate.
  - vm_compute. split; discriminate.
  - exists dt. split; [exact Hf |]. intros now.
    etransitivity; [exact (Hk now (dated "A" dt) eq_refl) |].
    vm_compute. reflexivity.
Defined.

End JourneyFacts.

(** ** Editing the order blocks *)

Module BlockFacts.
Import OrderForm ScreenSpec ListFacts.

Lemma setOrderBlocks_same (g : list OrderBlock -> list OrderBlock) (f : Form) :
  g (orderBlocks f) = orderBlocks f -> setOrderBlocks g f = f.
Proof. intros H. unfold setOrderBlocks. rewrite H. now destruct f. Qed.

Lemma map_unless_absent (i : string) (g : OrderBlock -> OrderBlock)
    (bs : list OrderBlock) :
  ~ In i (List.map b_id bs) ->
  List.map (fun b => if String.eqb (b_id b) i then g b else b) bs = bs.
Proof.
  induction bs as [|b bs IH]; intros Hn; [reflexivity |]. simpl.
  destruct (String.eqb_spec (b_id b) i) as [Heq | Hne].
  - exfalso. apply Hn. now left.
  - f_equal. apply IH. intros H. apply Hn. now right.
Qed.

Lemma filter_unless_absent (i : string) (bs : list OrderBlock) :
  ~ In i (List.map b_id bs) ->
  List.filter (fun b => negb (String.eqb (b_id b) i)) bs = bs.
Proof.
  induction bs as [|b bs IH]; intros Hn; [reflexivity |]. simpl.
  destruct (String.eqb_spec (b_id b) i) as [Heq | Hne]; simpl.
  - exfalso. apply Hn. now left.
  - f_equal. apply IH. intros H. apply Hn. now right.
Qed.

Lemma setField_id (fd : Field) (v : string) (b : OrderBlock) :
  b_id (setField fd v b) = b_id b.
Proof. now destruct fd. Qed.

(** X15. Typing into a field of a block changes that field, and nothing
    else, of every block with the id of the card: the blocks keep their
    number, order and ids, the blocks with another id and the other fields
    are untouched, and an id that no block has changes nothing. *)
Theorem updateBlock_sets_one_field (i : string) (fd : Field) (v : string)
    (f : Form) :
  blockIds (updateBlock i fd v f) = blockIds f
  /\ (forall (n : nat) (b : OrderBlock),
        orderBlocks f !! n = Some b ->
        orderBlocks (updateBlock i fd v f) !! n
        = Some (if String.eqb (b_id b) i then setField fd v b else b))
  /\ (forall b : OrderBlock,
        fieldOf fd (setField fd v b) = v
        /\ forall fd' : Field,
             fd' <> fd -> fieldOf fd' (setField fd v b) = fieldOf fd' b)
  /\ (forall b' : OrderBlock,
        In b' (orderBlocks (updateBlock i fd v f)) -> b_id b' = i ->
        fieldOf fd b' = v)
  /\ (~ In i (blockIds f) -> updateBlock i fd v f = f).
Proof.
  unfold blockIds, updateBlock. simpl. repeat split.
  - rewrite List.map_map. apply List.map_ext. intros b.
    destruct (String.eqb (b_id b) i); [apply setField_id | reflexivity].
  - intros n b Hn. rewrite list_lookup_fmap, Hn. reflexivity.
  - now destruct fd.
  - intros fd' Hne. destruct fd, fd'; try reflexivity; contradiction.
  - intros b' (b & Hb & Hin)%in_map_iff Hid.
    destruct (String.eqb_spec (b_id b) i) as [Heq | Hne].
    + subst b'. now destruct fd.
    + subst b'. contradiction.
  - intros Hn. apply setOrderBlocks_same. now apply map_unless_absent.
Qed.

Lemma updateBlock_sets_one_field_witness :
  updateBlock "7" Notes "no onion" form_ready = form_ready.
Proof.
  destruct (updateBlock_sets_one_field "7" Notes "no onion" form_ready)
    as (_ & _ & _ & _ & H).
  apply H. simpl. intros [H1 | []]. discriminate H1.
Defined.

(** X16. Removing a card, while there is more than one block, takes away
    every block with its id and no other: the other blocks stay, in their
    order; with distinct ids exactly one block goes. An id that no block
    has removes nothing. *)
Theorem removeBlock_takes_that_block (i : string) (f : Form) :
  (~ In i (blockIds f) -> removeBlock i f = f)
  /\ ((1 < length (orderBlocks f))%nat ->
      ~ In i (blockIds (removeBlock i f))
      /\ sublist (orderBlocks (removeBlock i f)) (orderBlocks f)
      /\ forall b : OrderBlock,
           In b (orderBlocks f) -> b_id b <> i ->
           In b (orderBlocks (removeBlock i f)))
  /\ (List.NoDup (blockIds f) -> In i (blockIds f) ->
      (1 < length (orderBlocks f))%nat ->
      S (length (orderBlocks (removeBlock i f))) = length (orderBlocks f)).
Proof.
  unfold blockIds, removeBlock. split; [| split].
  - intros Hn. destruct (1 <? length (orderBlocks f))%nat; [| reflexivity].
    apply setOrderBlocks_same. now apply filter_unless_absent.
  - intros Hlen. apply Nat.ltb_lt in Hlen. rewrite Hlen. simpl.
    split; [| split].
    + intros (b & Hb & Hin)%in_map_iff. apply filter_In in Hin as [_ Hne].
      rewrite Hb, String.eqb_refl in Hne. discriminate.
    + apply filter_sublist.
    + intros b Hin Hne. apply filter_In. split; [exact Hin |].
      now destruct (String.eqb_spec (b_id b) i).
  - intros Hnd Hin Hlen. apply Nat.ltb_lt in Hlen. rewrite Hlen. simpl.
    clear Hlen. induction (orderBlocks f) as [|b bs IH]; [destruct Hin |].
    inversion Hnd as [|? ? Hnotin Hnd']; subst. simpl.
    destruct (String.eqb_spec (b_id b) i) as [Heq | Hne]; simpl.
    + f_equal. f_equal. apply filter_unless_absent. now rewrite <- Heq.
    + f_equal. apply IH; [exact Hnd' |].
      destruct Hin as [Hin | Hin]; [contradiction | exact Hin].
Qed.

Lemma removeBlock_takes_that_block_witness :
  let f := addOrderBlock env_quiet (initialForm 0) in
  removeBlock "7" f = f
  /\ ~ In "1" (blockIds (removeBlock "1" f))
  /\ S (length (orderBlocks (removeBlock "1" f))) = 2%nat.
Proof.
  intros f.
  destruct (removeBlock_takes_that_block "7" f) as (H1 & _).
  destruct (removeBlock_takes_that_block "1" f) as (_ & H2 & H3).
  split; [| split].
  - apply H1. simpl. intros [E | [E | []]]; discriminate E.
  - destruct H2 as (H2 & _); [simpl; lia | exact H2].
  - apply H3.
    + simpl. repeat (apply List.NoDup_cons; [simpl; intuition discriminate |]).
      apply List.NoDup_nil.
    + simpl. now left.
    + simpl. lia.
Defined.

End BlockFacts.

(** ** Client suggestions *)

Module SuggestionFacts.
Import TextFacts FormFacts JSText OrderForm OrderScreen ScreenSpec ListFacts
  SavingFacts.

Lemma isMatch_fits (query : string) (c : Client) :
  isMatch query c = true <-> fits query c.
Proof.
  unfold isMatch, fits. now rewrite orb_true_iff, !includes_contains.
Qed.

Lemma suggest_runs (e : Env) (f : Form) (sr : Search) (w : World) :
  suggest e sr (mkSt f w)
  = (Ok (if (2 <=? String.length (queryOf f sr))%nat
         then
           let found := List.filter (isMatch (queryOf f sr))
                          (readableClients e w) in
           mkSearch (firstn 5 found) (0 <? length found)%nat (searchField sr)
         else mkSearch (clientSuggestions sr) false (searchField sr)),
     mkSt f w).
Proof.
  unfold suggest. unfold_m. cbn [form].
  destruct (2 <=? String.length (queryOf f sr))%nat; [| reflexivity].
  now rewrite loadClients_runs.
Qed.

(** X17. The suggestions: the effect never rejects and touches neither the
    form nor the device. With a query of fewer than two characters the
    list is hidden and kept as it was. Otherwise the suggestions are the
    first five stored clients, in stored order, whose name holds the query
    (whatever the case of the letters) or whose mobile holds it; the list
    is shown exactly when some stored client fits, and is empty and hidden
    when the stored clients cannot be read. *)
Theorem suggestions_fit_the_query (e : Env) (f : Form) (sr : Search)
    (w : World) :
  exists sr' : Search,
    suggest e sr (mkSt f w) = (Ok sr', mkSt f w)
    /\ searchField sr' = searchField sr
    /\ ((String.length (queryOf f sr) < 2)%nat ->
        showSuggestions sr' = false
        /\ clientSuggestions sr' = clientSuggestions sr)
    /\ ((2 <= String.length (queryOf f sr))%nat ->
        let q := queryOf f sr in
        let stored := readableClients e w in
        clientSuggestions sr' = firstn 5 (List.filter (isMatch q) stored)
        /\ (length (clientSuggestions sr') <= 5)%nat
        /\ sublist (clientSuggestions sr') stored
        /\ (forall c : Client, In c (clientSuggestions sr') -> fits q c)
        /\ (showSuggestions sr' = true
            <-> exists c : Client, In c stored /\ fits q c)
        /\ (stored = [] ->
            clientSuggestions sr' = [] /\ showSuggestions sr' = false)).
Proof.
  eexists. split; [apply suggest_runs |].
  destruct (Nat.leb_spec 2 (String.length (queryOf f sr))) as [Hlen | Hlen].
  - split; [reflexivity |]. split; [lia |]. intros _ q stored. simpl.
    fold q stored. split; [reflexivity |].
    split; [apply List.firstn_le_length |].
    split.
    { etransitivity; [apply firstn_sublist | apply filter_sublist]. }
    split.
    { intros c Hin. apply isMatch_fits.
      apply (sublist_In _ _ _ (firstn_sublist 5 _)) in Hin.
      now apply filter_In in Hin as [_ Hm]. }
    split.
    { rewrite Nat.ltb_lt. split.
      - destruct (List.filter (isMatch q) stored) as [|c r] eqn:E;
          [simpl; lia |]. intros _.
        assert (In c (List.filter (isMatch q) stored)) as Hin
          by (rewrite E; now left).
        apply filter_In in Hin as [Hin Hm]. exists c.
        split; [exact Hin | now apply isMatch_fits].
      - intros (c & Hin & Hfit).
        assert (In c (List.filter (isMatch q) stored)) as Hc
          by (apply filter_In; split; [exact Hin | now apply isMatch_fits]).
        destruct (List.filter (isMatch q) stored); [destruct Hc | simpl; lia]. }
    intros ->. split; reflexivity.
  - split; [reflexivity |]. split; [| lia]. intros _. split; reflexivity.
Qed.

Lemma suggestions_fit_the_query_witness :
  exists sr' : Search,
    suggest env_quiet (mkSearch [] false ByName)
      (mkSt (form_named "vik") world_known)
    = (Ok sr', mkSt (form_named "vik") world_known)
    /\ clientSuggestions sr'
       = [mkClient "9000000002" "Vikram" "Dwarka" "jain food"]
    /\ showSuggestions sr' = true.
Proof.
  destruct (suggestions_fit_the_query env_quiet (form_named "vik")
              (mkSearch [] false ByName) world_known)
    as (sr' & Hrun & _ & _ & H).
  exists sr'. split; [exact Hrun |].
  destruct H as (Hs & _ & _ & _ & Hshow & _); [simpl; lia |].
  split; [rewrite Hs; reflexivity |].
  apply Hshow. exists (mkClient "9000000002" "Vikram" "Dwarka" "jain food").
  split; [simpl; tauto |]. left. now exists "", "ram".
Defined.

(** X18. Choosing a suggestion hides the list, and the effect that the
    change of the name or the mobile then sets off shows it again: the
    client just chosen fits the query made of its own name (or mobile), so
    a list that holds a fitting client is shown once more. *)
Theorem choosing_reopens_the_list (e : Env) (f : Form) (sr : Search)
    (w : World) (c : Client) :
  In c (readableClients e w) ->
  (2 <= String.length (match searchField sr with
                       | ByName => c_name c
                       | ByMobile => c_mobile c
                       end))%nat ->
  let f' := fst (selectClient c f sr) in
  let sr' := snd (selectClient c f sr) in
  showSuggestions sr' = false
  /\ exists sr'' : Search,
       suggest e sr' (mkSt f' w) = (Ok sr'', mkSt f' w)
       /\ showSuggestions sr'' = true
       /\ clientSuggestions sr'' <> [].
Proof.
  intros Hin Hlen f' sr'. split; [reflexivity |].
  eexists. split; [apply suggest_runs |].
  assert (queryOf f' sr' = match searchField sr with
                           | ByName => c_name c
                           | ByMobile => c_mobile c
                           end) as Hq by reflexivity.
  rewrite Hq. apply Nat.leb_le in Hlen. rewrite Hlen. clear Hlen. simpl.
  assert (In c (List.filter
                  (isMatch match searchField sr with
                           | ByName => c_name c
                           | ByMobile => c_mobile c
                           end) (readableClients e w))) as Hc.
  { apply filter_In. split; [exact Hin |]. unfold isMatch.
    destruct (searchField sr); rewrite includes_itself;
      [reflexivity | apply orb_true_r]. }
  destruct (List.filter _ (readableClients e w)) as [|x r]; [destruct Hc |].
  split; [reflexivity | discriminate].
Qed.

Lemma choosing_reopens_the_list_witness :
  let c := mkClient "9000000002" "Vikram" "Dwarka" "jain food" in
  let f' := fst (selectClient c (initialForm 0) initialSearch) in
  let sr' := snd (selectClient c (initialForm 0) initialSearch) in
  exists sr'' : Search,
    suggest env_quiet sr' (mkSt f' world_known) = (Ok sr'', mkSt f' world_known)
    /\ showSuggestions sr'' = true.
Proof.
  intros c f' sr'.
  destruct (choosing_reopens_the_list env_quiet (initialForm 0) initialSearch
              world_known c) as (_ & sr'' & Hrun & Hshow & _).
  - simpl. tauto.
  - simpl. lia.
  - exists sr''. split; [exact Hrun | exact Hshow].
Defined.

(** X19. Saving for a client chosen from the suggestions, on a device
    whose clients are read and written without fault and hold one record
    for each mobile: no record is added, the records keep their places and
    mobiles, and the record of the chosen client now holds the notes of the
    first block of the form in place of the notes it had. *)
Theorem chosen_client_is_overwritten (e : Env) (f : Form) (sr : Search)
    (w : World) (c : Client) (cs : list Client) (b0 : OrderBlock)
    (bs : list OrderBlock) :
  fails e (GetItem KClients) = false -> fails e (SetItem KClients) = false ->
  clients w = Items cs -> List.NoDup (List.map c_mobile cs) -> In c cs ->
  c_mobile c <> "" -> c_name c <> "" -> orderBlocks f = b0 :: bs ->
  let f' := fst (selectClient c f sr) in
  exists cs' : list Client,
    saveClient e (mkSt f' w)
    = (Ok tt,
       mkSt f' {| clients := Items cs'; orders := orders w;
                  folder := folder w; files := files w;
                  writes := KClients :: writes w |})
    /\ List.map c_mobile cs' = List.map c_mobile cs
    /\ forall (i : nat) (x : Client),
         cs !! i = Some x ->
         cs' !! i
         = Some (if String.eqb (c_mobile x) (c_mobile c)
                 then mkClient (c_mobile c) (c_name c) (c_address c)
                        (b_notes b0)
                 else x).
Proof.
  intros Hg Hs Hw Hnd Hin Hm Hn Hb f'.
  set (c' := mkClient (c_mobile c) (c_name c) (c_address c) (b_notes b0)).
  exists (assignFirst (c_mobile c') c' cs).
  split; [| split].
  - rewrite (saveClient_reads e f' w b0 bs Hm Hn Hb Hs).
    do 3 f_equal. unfold readableClients. rewrite Hg, Hw.
    change (clientOf f' b0) with c'. unfold upserted.
    destruct (List.find _ cs) eqn:Hf; [reflexivity |].
    apply find_mobile_None in Hf. exfalso. apply Hf.
    now apply (in_map c_mobile) in Hin.
  - apply assignFirst_mobiles.
  - intros i x Hi. exact (assignFirst_lookup c' cs Hnd i x Hi).
Qed.

Lemma chosen_client_is_overwritten_witness :
  let c := mkClient "9000000002" "Vikram" "Dwarka" "jain food" in
  let f' := fst (selectClient c (initialForm 0) initialSearch) in
  exists cs' : list Client,
    clients (world (snd (saveClient env_quiet (mkSt f' world_known))))
    = Items cs'
    /\ cs' !! 2%nat = Some (mkClient "9000000002" "Vikram" "Dwarka" "").
Proof.
  intros c f'.
  destruct (chosen_client_is_overwritten env_quiet (initialForm 0)
              initialSearch world_known c
              [mkClient "9000000001" "Asha" "Rohini" "";
               mkClient "9876543210" "Test User" "Delhi" "no onion";
               mkClient "9000000002" "Vikram" "Dwarka" "jain food"]
              (mkBlock "1" "" "" "") [] eq_refl eq_refl eq_refl)
    as (cs' & Hrun & _ & Hl); try discriminate; try reflexivity.
  - simpl. repeat (apply List.NoDup_cons; [simpl; intuition discriminate |]).
    apply List.NoDup_nil.
  - simpl. tauto.
  - exists cs'. split.
    + fold c f' in Hrun. now rewrite Hrun.
    + apply (Hl 2%nat c). reflexivity.
Defined.

End SuggestionFacts.

(** ** Messages and sharing *)

Module SharingFacts.
Import TextFacts FormFacts JSText OrderForm OrderScreen ScreenSpec ListFacts
  SavingFacts.

Ltac unfold_act :=
  unfold mbind, Act_bind, mret, Act_ret, lift, askCanOpen, openLink, share in *.

(** A form that fails a check, or has no date: three messages or a
    rejection, and nothing else. *)
Lemma unsubmittable_cases (e : Env) (f : Form) (w : World) :
  submittable f = false ->
  generateAndSavePDF e (mkSt f w) = (Throw, mkSt f w)
  \/ exists msg : string,
       In msg ["Fill all required fields."; "Mobile must be 10 digits.";
               "Add at least one menu item."]
       /\ generateAndSavePDF e (mkSt f w) = (Ok None, mkSt (showing msg f) w).
Proof.
  unfold submittable, generateAndSavePDF, setSnackbar, showing. unfold_m. simpl.
  destruct (truthy (orderId f)), (truthy (clientName f)),
    (truthy (mobile f)), (truthy (address f)),
    (truthy (quotationAmount f)); simpl;
    try (intros _; right; eexists; split; [left; reflexivity | reflexivity]).
  destruct (mobileRejected (mobile f)); simpl;
    [intros _; right; eexists; split; [right; left; reflexivity | reflexivity] |].
  destruct (noMenuItem (orderBlocks f)); simpl;
    [intros _; right; eexists; split;
       [right; right; left; reflexivity | reflexivity] |].
  destruct (date f); [discriminate | now left].
Qed.

Lemma saved_result (e : Env) (f : Form) (w : World) (u : string) :
  fst (generateAndSavePDF e (mkSt f w)) = Ok (Some u) ->
  u = finalUriOf e f
  /\ form (snd (generateAndSavePDF e (mkSt f w))) = f
  /\ In u (files (world (snd (generateAndSavePDF e (mkSt f w)))))
  /\ exists (l : list Entry) (dt : string),
       storedList (orders w) = Some l
       /\ orders (world (snd (generateAndSavePDF e (mkSt f w))))
          = Items (l ++ [orderOf f dt u]).
Proof.
  intros Hr. destruct (submittable f) eqn:Hs.
  - destruct (saving_outcome e f w Hs) as ([Hok | Hno] & _ & _ & _ & Hsome).
    + rewrite Hok in Hr. injection Hr as <-.
      destruct (Hsome Hok) as (Hf & l & dt & Hl & Ho & Hin).
      repeat split; try assumption. now exists l, dt.
    + rewrite Hno in Hr. discriminate.
  - destruct (unsubmittable_cases e f w Hs) as [H | (msg & _ & H)];
      rewrite H in Hr; discriminate.
Qed.

(** X20. Send PDF shares a file only after the save has gone through, and
    then the very file that was written and that the order stored last
    refers to. When the save yields nothing, nothing is shared and the
    message of the save stays. When the share itself is rejected, the order
    is stored all the same and no message says so. No link is opened. *)
Theorem sendPDFOnly_shares_the_saved_file (e : Env) (a : Apps) (x : Screen) :
  let f := form (st x) in
  let saved := generateAndSavePDF e (st x) in
  let out := sendPDFOnly e a x in
  opened (snd out) = opened x
  /\ (fst saved = Ok None ->
      out = (Ok tt, mkScreen (snd saved) (opened x) (shared x)))
  /\ (forall u : string,
        fst saved = Ok (Some u) ->
        u = BBN_DIR e +:+ orderId f +:+ ".pdf"
        /\ In u (files (world (st (snd out))))
        /\ (exists (l : list Entry) (dt : string),
              orders (world (st (snd out))) = Items (l ++ [orderOf f dt u]))
        /\ (shareAsync a u = true ->
            fst out = Ok tt /\ shared (snd out) = u :: shared x
            /\ form (st (snd out)) = showing "PDF shared" f)
        /\ (shareAsync a u = false ->
            out = (Throw, mkScreen (snd saved) (opened x) (shared x)))).
Proof.
  intros f saved out. unfold out, saved, f, sendPDFOnly. clear f saved out.
  unfold_act. destruct x as [[f0 w] op sh].
  simpl st. simpl opened. simpl shared. simpl form.
  pose proof (saved_result e f0 w) as Hres.
  destruct (generateAndSavePDF e (mkSt f0 w)) as [r s'] eqn:Es.
  simpl in Hres. simpl fst. simpl snd.
  destruct r as [[u | ] | ]; simpl.
  - destruct (Hres u eq_refl) as (Hu & Hf & Hin & l & dt & _ & Ho).
    destruct s' as [f1 w1]. simpl in Hf, Hin, Ho. subst f1.
    unfold setSnackbar. unfold_m.
    split; [now destruct (shareAsync a u) |].
    split; [discriminate |].
    intros u' [= <-]. split; [exact Hu |].
    destruct (shareAsync a u) eqn:Hsh; simpl.
    + split; [exact Hin |]. split; [now exists l, dt |].
      split; [now repeat split | discriminate].
    + split; [exact Hin |]. split; [now exists l, dt |].
      split; [discriminate | reflexivity].
  - split; [reflexivity |]. split; [reflexivity |]. intros u [=].
  - split; [reflexivity |]. split; [discriminate |]. intros u [=].
Qed.

Lemma sendPDFOnly_shares_the_saved_file_witness :
  let out := sendPDFOnly env_quiet apps_ok (screen_of form_ready world_empty) in
  shared (snd out) = ["doc/BBN_Quotations/TESTUSER05032025Q001.pdf"]
  /\ form (st (snd out)) = showing "PDF shared" form_ready.
Proof.
  intros out.
  destruct (sendPDFOnly_shares_the_saved_file env_quiet apps_ok
              (screen_of form_ready world_empty)) as (_ & _ & H).
  destruct (H "doc/BBN_Quotations/TESTUSER05032025Q001.pdf" eq_refl)
    as (_ & _ & _ & Hshare & _).
  destruct (Hshare eq_refl) as (_ & Hs & Hf). split; assumption.
Defined.

(** X21. Send Message asks for nothing but a mobile: with an empty mobile
    it only says so; otherwise it asks whether the WhatsApp link for that
    mobile, with the fixed text, can be opened, opens it if so, and reports
    the outcome. The mobile goes into the link as typed, unchecked. The
    stored clients and orders and the files are never touched, and nothing
    is shared. *)
Theorem sendMessageOnly_opens_one_link (a : Apps) (x : Screen) :
  let f := form (st x) in
  let w := world (st x) in
  let out := sendMessageOnly a x in
  let url := "whatsapp://send?phone=91" +:+ mobile f
             +:+ "&text=Please%20review%20the%20menu%20and%20let%20us%20know%20if%20any%20further%20arrangements%20need%20to%20be%20done." in
  world (st (snd out)) = w /\ shared (snd out) = shared x
  /\ (mobile f = "" ->
      out = (Ok tt, mkScreen (mkSt (showing "Enter mobile number" f) w)
                      (opened x) (shared x)))
  /\ (mobile f <> "" -> canOpenURL a url = Some true -> openURL a url = true ->
      out = (Ok tt, mkScreen (mkSt (showing "Message sent" f) w)
                      (url :: opened x) (shared x)))
  /\ (mobile f <> "" -> canOpenURL a url = Some false ->
      out = (Ok tt, mkScreen (mkSt (showing "WhatsApp not installed" f) w)
                      (opened x) (shared x)))
  /\ (mobile f <> "" ->
      canOpenURL a url = None
      \/ (canOpenURL a url = Some true /\ openURL a url = false) ->
      out = (Throw, x)).
Proof.
  intros f w out url.
  assert (whatsappURL (mobile f) = url) as Hurl by reflexivity.
  unfold out, sendMessageOnly. unfold_act. unfold setSnackbar. unfold_m.
  destruct x as [[f0 w0] op sh]. simpl in f, w. subst f w. simpl.
  rewrite Hurl.
  destruct (mobile f0) as [|c r] eqn:Hm; simpl.
  { repeat split; try reflexivity; intros H; now contradiction H. }
  destruct (canOpenURL a url) as [[|]|] eqn:Hcan; simpl;
    [destruct (openURL a url) eqn:Hop; simpl | |].
  all: repeat split; try reflexivity; try discriminate.
  all: try (intros _ H; discriminate H).
  all: try (intros _ H1 H2; discriminate).
  all: try (intros _ [H | [H1 H2]]; discriminate).
  all: try (intros _ _ H; discriminate H).
Qed.

Lemma sendMessageOnly_opens_one_link_witness :
  let x := screen_of form_ready world_known in
  sendMessageOnly apps_ok x
  = (Ok tt,
     mkScreen (mkSt (showing "Message sent" form_ready) world_known)
       ["whatsapp://send?phone=919876543210&text=Please%20review%20the%20menu%20and%20let%20us%20know%20if%20any%20further%20arrangements%20need%20to%20be%20done."]
       [])
  /\ sendMessageOnly apps_without_whatsapp x
     = (Ok tt,
        mkScreen (mkSt (showing "WhatsApp not installed" form_ready) world_known)
          [] []).
Proof.
  intros x. split.
  - destruct (sendMessageOnly_opens_one_link apps_ok x) as (_ & _ & _ & H & _).
    apply H; [discriminate | reflexivity | reflexivity].
  - destruct (sendMessageOnly_opens_one_link apps_without_whatsapp x)
      as (_ & _ & _ & _ & H & _).
    apply H; [discriminate | reflexivity].
Defined.

Lemma saved_form_cases (e : Env) (f : Form) (w : World) :
  form (snd (generateAndSavePDF e (mkSt f w))) = f
  \/ exists msg : string,
       In msg ["Fill all required fields."; "Mobile must be 10 digits.";
               "Add at least one menu item."; "Failed to generate PDF"]
       /\ form (snd (generateAndSavePDF e (mkSt f w))) = showing msg f.
Proof.
  destruct (submittable f) eqn:Hs.
  - destruct (saving_outcome e f w Hs) as (_ & [Hf | Hf] & _); [now left |].
    right. eexists. split; [| exact Hf]. simpl. tauto.
  - destruct (unsubmittable_cases e f w Hs) as [H | (msg & Hin & H)];
      rewrite H; [now left |].
    right. exists msg. split; [| reflexivity]. simpl in *. tauto.
Qed.

(** X22. The snackbar is never orange: its background is orange only for a
    message that holds the word saved, and no message that the screen sets
    does. Starting from the fresh form, saving, Send PDF and Send Message
    all leave the background green. *)
Theorem snackbar_is_never_orange (e : Env) (a : Apps) (x : Screen) :
  (forall now : Z, snackbarColor (initialForm now) = "#51CF66")
  /\ (snackbarColor (form (st x)) = "#51CF66" ->
      snackbarColor (form (snd (generateAndSavePDF e (st x)))) = "#51CF66"
      /\ snackbarColor (form (st (snd (sendPDFOnly e a x)))) = "#51CF66"
      /\ snackbarColor (form (st (snd (sendMessageOnly a x)))) = "#51CF66").
Proof.
  split; [reflexivity |]. intros Hg.
  destruct x as [[f w] op sh]. simpl in Hg. simpl st.
  assert (snackbarColor (form (snd (generateAndSavePDF e (mkSt f w))))
          = "#51CF66") as Hsave.
  { destruct (saved_form_cases e f w) as [-> | (msg & Hin & ->)];
      [exact Hg |].
    simpl in Hin. destruct Hin as [<- | [<- | [<- | [<- | []]]]]; reflexivity. }
  split; [exact Hsave |]. split.
  - unfold sendPDFOnly. unfold_act. simpl st.
    destruct (generateAndSavePDF e (mkSt f w)) as [r s']. simpl in Hsave.
    destruct r as [[u | ] | ]; simpl; try exact Hsave.
    destruct (shareAsync a u); simpl; [reflexivity | exact Hsave].
  - unfold sendMessageOnly. unfold_act. unfold setSnackbar. unfold_m. simpl.
    destruct (truthy (mobile f)); simpl; [| reflexivity].
    destruct (canOpenURL a _) as [[|]|]; simpl;
      [destruct (openURL a _); simpl | |]; try reflexivity; exact Hg.
Qed.

Lemma snackbar_is_never_orange_witness :
  snackbarColor
    (form (st (snd (sendPDFOnly (env_failing PrintToFile) apps_ok
                      (screen_of form_ready world_empty)))))
  = "#51CF66".
Proof.
  destruct (snackbar_is_never_orange (env_failing PrintToFile) apps_ok
              (screen_of form_ready world_empty)) as (_ & H).
  destruct (H eq_refl) as (_ & H2 & _). exact H2.
Defined.

End SharingFacts.

(** ** The history screen: loading and cards *)

Module HistoryScreenFacts.
Import TextFacts CalendarFacts HistoryFacts History HistoryScreen ScreenSpec
  ListFacts.

(** *** Loads that stop early *)

Lemma dedupe_shorter (l : list Order) :
  ~ List.NoDup (List.map id l) -> (length (dedupe l) =? length l)%nat = false.
Proof.
  intros Hdup. apply Nat.eqb_neq. intros Heq. apply Hdup.
  rewrite <- (dedupe_same_length l Heq). apply dedupeFrom_NoDup.
Qed.

Lemma dedupe_as_long (l : list Order) :
  List.NoDup (List.map id l) -> (length (dedupe l) =? length l)%nat = true.
Proof. intros Hnd. rewrite (dedupe_clean l Hnd). apply Nat.eqb_refl. Qed.

(** X23. The load of the history screen shows nothing and leaves the
    device as it is when the orders cannot be read (the key is missing, the
    text is not JSON, the read fails), and also when two stored orders
    share an id and the write of the repaired orders fails. Over orders
    with distinct ids nothing is written, so a failing write does not
    matter: the sections are shown. *)
Theorem load_stops_quietly (e : Env) (w : World) :
  (fails e (GetItem KOrders) = true \/ orders w = Absent
   \/ orders w = Garbled ->
   load e w = ([], w))
  /\ (forall os : list Entry,
        orders w = Items os -> fails e (GetItem KOrders) = false ->
        ~ List.NoDup (List.map id (validOrders os)) ->
        fails e (SetItem KOrders) = true ->
        load e w = ([], w))
  /\ (forall os : list Entry,
        orders w = Items os -> fails e (GetItem KOrders) = false ->
        List.NoDup (List.map id (validOrders os)) ->
        load e w = (sectionsOf (tz e) (clock e) (validOrders os), w)).
Proof.
  split; [| split].
  - unfold load. intros [-> | [-> | ->]]; [reflexivity | |];
      now destruct (fails e (GetItem KOrders)).
  - intros os Hw Hg Hdup Hs. rewrite (load_runs e w os Hw Hg). cbv zeta.
    now rewrite (dedupe_shorter _ Hdup), Hs.
  - intros os Hw Hg Hnd. rewrite (load_runs e w os Hw Hg). cbv zeta.
    now rewrite (dedupe_as_long _ Hnd), (dedupe_clean _ Hnd).
Qed.

Lemma load_stops_quietly_witness :
  load (env_failing (GetItem KOrders)) world_dirty = ([], world_dirty)
  /\ load (env_failing (SetItem KOrders)) world_dirty = ([], world_dirty).
Proof.
  split.
  - destruct (load_stops_quietly (env_failing (GetItem KOrders)) world_dirty)
      as (H & _).
    apply H. left. reflexivity.
  - destruct (load_stops_quietly (env_failing (SetItem KOrders)) world_dirty)
      as (_ & H & _).
    eapply H; [reflexivity | reflexivity | | reflexivity].
    intros Hnd. cbn in Hnd. apply List.NoDup_cons_iff in Hnd as [Hn _].
    apply Hn. now left.
Defined.

(** X24. Loading again shows the same: after a load that read and wrote
    without fault, a second load in the same surroundings gives the same
    sections and leaves the device as the first load left it. *)
Theorem reload_shows_the_same (e : Env) (w : World) (os : list Entry) :
  orders w = Items os -> fails e (GetItem KOrders) = false ->
  fails e (SetItem KOrders) = false ->
  load e (snd (load e w)) = load e w.
Proof.
  intros Hw Hg Hs. rewrite (load_runs e w os Hw Hg). cbv zeta. rewrite Hs.
  set (valid := validOrders os). set (deduped := dedupe valid).
  destruct (length deduped =? length valid)%nat eqn:Hlen; simpl.
  - rewrite (load_runs e w os Hw Hg). cbv zeta. fold valid deduped.
    now rewrite Hlen.
  - assert (validOrders (List.map toEntry deduped) = deduped) as Hv.
    { apply validOrders_toEntry. apply List.Forall_forall. intros o Hin.
      apply (validOrders_complete os).
      apply (sublist_In _ _ _ (dedupeFrom_sublist ∅ valid)), Hin. }
    assert (dedupe deduped = deduped) as Hd
      by apply dedupe_clean, dedupeFrom_NoDup.
    rewrite (load_runs e (writeOrders deduped w) (List.map toEntry deduped)
               eq_refl Hg).
    cbv zeta. now rewrite Hv, Hd, Nat.eqb_refl.
Qed.

Lemma reload_shows_the_same_witness :
  load env_quiet (snd (load env_quiet world_dirty)) = load env_quiet world_dirty.
Proof.
  apply (reload_shows_the_same env_quiet world_dirty
           [raw_order "X1" "05/03/2025 at 4:00 PM" "doc/x1.pdf" "first";
            raw_order "X2" "06/03/2025 at 4:00 PM" "" "no file";
            raw_order "X1" "07/03/2025 at 4:00 PM" "doc/x1b.pdf" "second";
            None]); reflexivity.
Defined.

(** *** Sections *)

Lemma filter_split {A : Type} (p q : A -> bool) (s : list A) :
  (forall x : A, p x = true -> q x = true -> False) ->
  Permutation (List.filter p s ++ List.filter q s)
    (List.filter (fun x => p x || q x) s).
Proof.
  intros Hpq. induction s as [|x s IH]; simpl; [constructor |].
  destruct (p x) eqn:Hp, (q x) eqn:Hq; simpl.
  - destruct (Hpq x Hp Hq).
  - now constructor.
  - rewrite <- IH. symmetry. apply Permutation_middle.
  - exact IH.
Qed.

Lemma filter_none {A : Type} (p : A -> bool) (s : list A) :
  (forall x : A, In x s -> p x = false) -> List.filter p s = [].
Proof.
  induction s as [|x s IH]; intros H; simpl; [reflexivity |].
  rewrite (H x (or_introl eq_refl)). apply IH. intros y Hy. apply H. now right.
Qed.

Lemma filter_every {A : Type} (p : A -> bool) (s : list A) :
  (forall x : A, In x s -> p x = true) -> List.filter p s = s.
Proof.
  induction s as [|x s IH]; intros H; simpl; [reflexivity |].
  rewrite (H x (or_introl eq_refl)). f_equal. apply IH.
  intros y Hy. apply H. now right.
Qed.

(** The groups of distinct labels hold the orders under these labels. *)
Lemma groups_perm (tz now : Z) (ks : list string) (s : list Order) :
  List.NoDup ks ->
  Permutation
    (concat (List.map (fun k => List.filter (inGroup tz now k) s) ks))
    (List.filter (fun o => inb (groupKey tz now o) ks) s).
Proof.
  induction ks as [|k ks IH]; intros Hnd; simpl.
  - rewrite filter_none; [constructor | reflexivity].
  - inversion Hnd as [|? ? Hnotin Hnd']; subst.
    rewrite (IH Hnd').
    change (fun o => inb (groupKey tz now o) (k :: ks))
      with (fun o => inGroup tz now k o || inb (groupKey tz now o) ks).
    apply filter_split. intros o Hk Hin. apply Hnotin.
    apply inb_In in Hin. unfold inGroup in Hk.
    apply String.eqb_eq in Hk. now rewrite <- Hk.
Qed.

Lemma sections_data (tz now : Z) (l : list Order) :
  Permutation (concat (List.map data (sectionsOf tz now l))) l.
Proof.
  rewrite sections_groups. unfold groupsOf.
  set (sorted := sortBy (compareOrders tz now) l).
  rewrite List.map_map. simpl.
  rewrite groups_perm by apply firstSeen_NoDup.
  rewrite filter_every; [apply sortBy_perm |].
  intros o Hin. apply inb_In, firstSeen_In. now apply in_map.
Qed.

Lemma sections_titles (tz now : Z) (l : list Order) :
  List.map title (sectionsOf tz now l)
  = firstSeen (List.map (groupKey tz now) (sortBy (compareOrders tz now) l)).
Proof.
  rewrite sections_groups. unfold groupsOf. rewrite List.map_map. simpl.
  apply List.map_id.
Qed.

Lemma sections_counts (tz now : Z) (l : list Order) :
  List.map count (sectionsOf tz now l)
  = List.map (@length Order) (List.map data (sectionsOf tz now l)).
Proof.
  rewrite sections_groups. unfold groupsOf. now rewrite !List.map_map.
Qed.

(** X25. The sections split the loaded orders: their titles are pairwise
    distinct, every loaded order is in exactly one section (the sections
    together are a rearrangement of the orders), the counts add up to the
    number of orders, and, the ids being distinct, no id is shown twice. *)
Theorem sections_hold_each_order_once (tz now : Z) (l : list Order) :
  let ss := sectionsOf tz now l in
  List.NoDup (List.map title ss)
  /\ Permutation (concat (List.map data ss)) l
  /\ list_sum (List.map count ss) = length l
  /\ (List.NoDup (List.map id l) ->
      List.NoDup (List.map id (concat (List.map data ss)))).
Proof.
  intros ss. unfold ss.
  split; [rewrite sections_titles; apply firstSeen_NoDup |].
  split; [apply sections_data |]. split.
  - rewrite sections_counts, <- List.length_concat.
    apply Permutation_length, sections_data.
  - intros Hnd. eapply Permutation_NoDup; [| exact Hnd].
    apply Permutation_map. symmetry. apply sections_data.
Qed.

Lemma sections_hold_each_order_once_witness :
  List.NoDup
    (List.map id (concat (List.map data (sectionsOf IST 0 four_orders)))).
Proof.
  destruct (sections_hold_each_order_once IST 0 four_orders) as (_ & _ & _ & H).
  apply H. simpl.
  repeat (apply List.NoDup_cons; [simpl; intuition discriminate |]).
  apply List.NoDup_nil.
Defined.

(** *** Cards *)

(** X26. A tap on a card flips that card and no other: the card is
    expanded after the tap exactly when it was not before, cards with
    another id stay as they were, a second tap undoes the first, and taps
    on two cards can be made in either order. *)
Theorem toggleExpand_flips_one_card (i : string) (expanded : gset string) :
  toggleExpand i (toggleExpand i expanded) = expanded
  /\ (forall o : Order,
        id o = i ->
        isExpanded (toggleExpand i expanded) o = negb (isExpanded expanded o))
  /\ (forall o : Order,
        id o <> i ->
        isExpanded (toggleExpand i expanded) o = isExpanded expanded o)
  /\ (forall j : string,
        toggleExpand i (toggleExpand j expanded)
        = toggleExpand j (toggleExpand i expanded)).
Proof.
  assert (forall (k j : string) (s : gset string),
             j ∈ toggleExpand k s <-> (j ∈ s /\ j <> k) \/ (j = k /\ k ∉ s))
    as Hmem.
  { intros k j s. unfold toggleExpand.
    destruct (bool_decide_reflect (k ∈ s)) as [Hin | Hout].
    - rewrite elem_of_difference, elem_of_singleton. tauto.
    - rewrite elem_of_union, elem_of_singleton.
      split; [intros [-> | Hj] | intros [[Hj _] | [-> _]]]; try tauto.
      left. split; [exact Hj |]. intros ->. contradiction. }
  repeat split.
  - apply set_eq. intros j. rewrite !Hmem.
    destruct (decide (j = i)) as [-> | Hne], (decide (i ∈ expanded)); tauto.
  - intros o <-. unfold isExpanded.
    destruct (bool_decide_reflect (id o ∈ expanded)) as [Hin | Hout]; simpl.
    + apply bool_decide_eq_false. rewrite Hmem. tauto.
    + apply bool_decide_eq_true. rewrite Hmem. tauto.
  - intros o Hne. unfold isExpanded. apply bool_decide_ext.
    rewrite Hmem. tauto.
  - intros j. apply set_eq. intros k. rewrite !Hmem.
    destruct (decide (i ∈ expanded)), (decide (j ∈ expanded)),
      (decide (k ∈ expanded)), (decide (k = i)), (decide (k = j));
      subst; tauto.
Qed.

Lemma toggleExpand_flips_one_card_witness :
  isExpanded (toggleExpand "A" ∅) (dated "A" "05/03/2025 at 3:30 PM") = true
  /\ isExpanded (toggleExpand "A" ∅) (dated "B" "10/01/2025 at 1:00 PM")
     = false.
Proof.
  destruct (toggleExpand_flips_one_card "A" ∅) as (_ & H1 & H2 & _).
  split.
  - apply (H1 (dated "A" "05/03/2025 at 3:30 PM")). reflexivity.
  - apply (H2 (dated "B" "10/01/2025 at 1:00 PM")). discriminate.
Defined.

Lemma digits_after_dash (a b x y : string) :
  allChars isDigit x = true -> allChars isDigit y = true ->
  a +:+ "-" +:+ x = b +:+ "-" +:+ y -> x = y.
Proof.
  intros Hx Hy. revert b. induction a as [|c a IH]; intros [|c' b] H.
  - now injection H.
  - injection H as _ H. rewrite H, allChars_app in Hx.
    apply andb_true_iff in Hx as [_ Hx]. discriminate Hx.
  - injection H as _ H. rewrite <- H, allChars_app in Hy.
    apply andb_true_iff in Hy as [_ Hy]. discriminate Hy.
  - injection H as _ H. now apply (IH b).
Qed.

(** X27. The keys of the cards: two cards at different places of a
    section never get the same key, whatever their ids, and be they equal.
    So the keys of the cards of a section are pairwise distinct. *)
Theorem card_keys_differ (items : list Order) :
  (forall (a b : Order) (i j : nat),
      keyExtractor a i = keyExtractor b j -> i = j)
  /\ List.NoDup (imap (fun i o => keyExtractor o i) items).
Proof.
  assert (forall (a b : Order) (i j : nat),
             keyExtractor a i = keyExtractor b j -> i = j) as Hinj.
  { intros a b i j H. unfold keyExtractor in H.
    apply digits_after_dash in H; try (apply StringZ_digits; lia).
    apply (f_equal digitsVal) in H. rewrite !StringZ_value in H; lia. }
  split; [exact Hinj |].
  apply NoDup_ListNoDup, NoDup_alt. intros i j k Hi Hj.
  rewrite list_lookup_imap in Hi, Hj.
  destruct (items !! i) as [a|]; [| discriminate].
  destruct (items !! j) as [b|]; [| discriminate].
  simpl in Hi, Hj. injection Hi as Hi. injection Hj as Hj.
  apply (Hinj a b). congruence.
Qed.

Lemma card_keys_differ_witness :
  List.NoDup
    (imap (fun i o => keyExtractor o i)
       [dated "A" "05/03/2025 at 3:30 PM"; dated "A" "05/03/2025 at 3:30 PM"]).
Proof.
  destruct (card_keys_differ
              [dated "A" "05/03/2025 at 3:30 PM";
               dated "A" "05/03/2025 at 3:30 PM"]) as (_ & H).
  exact H.
Defined.

Lemma listed_is_stored (e : Env) (w : World) (s : Section) (o : Order) :
  In s (fst (load e w)) -> In o (data s) ->
  exists (os : list Entry) (so : StoredOrder),
    orders w = Items os /\ In (Some so) os /\ o = normalize (Some so)
    /\ nonEmpty (o_id so) /\ nonEmpty (o_dateTime so) /\ nonEmpty (o_pdfUri so).
Proof.
  unfold load. destruct (fails e (GetItem KOrders)); [intros [] |].
  destruct (orders w) as [| |os]; try (intros []).
  intros Hs Ho.
  assert (In s (sectionsOf (tz e) (clock e) (dedupe (validOrders os)))) as Hin.
  { destruct (negb _); [| exact Hs].
    destruct (fails e (SetItem KOrders)); [destruct Hs | exact Hs]. }
  assert (In o (dedupe (validOrders os))) as Hd.
  { eapply Permutation_in; [apply (sections_data (tz e) (clock e)) |].
    apply in_concat. exists (data s). split; [now apply in_map | exact Ho]. }
  apply (sublist_In _ _ _ (dedupeFrom_sublist ∅ _)) in Hd.
  apply validOrders_spec in Hd as (so & Hso & H1 & H2 & H3 & ->).
  exists os, so. repeat split; assumption.
Qed.

(** X28. Share PDF on a card of the history screen hands over the path
    stored with its order, or nothing when the share is rejected, and never
    fails. Where every stored order names a file that has been written,
    every card that the load shows names such a file, before and after the
    repair. *)
Theorem shared_from_history_is_on_disk (e : Env) (w : World)
    (a : OrderScreen.Apps) (s : Section) (o : Order) :
  pdfOnDisk w -> In s (fst (load e w)) -> In o (data s) ->
  In (pdfUri o) (files w) /\ In (pdfUri o) (files (snd (load e w)))
  /\ forall shared : list string,
       sharePDF a (pdfUri o) shared
       = if OrderScreen.shareAsync a (pdfUri o) then pdfUri o :: shared
         else shared.
Proof.
  intros Hinv Hs Ho.
  destruct (listed_is_stored e w s o Hs Ho)
    as (os & so & Hw & Hso & -> & _ & _ & (u & Hu & _)).
  assert (In (pdfUri (normalize (Some so))) (files w)) as Hfile.
  { unfold pdfOnDisk in Hinv. rewrite Hw in Hinv.
    unfold normalize. simpl. rewrite Hu. simpl. now apply (Hinv so u). }
  split; [exact Hfile |]. split; [| reflexivity].
  assert (files (snd (load e w)) = files w) as ->; [| exact Hfile].
  unfold load. destruct (fails e (GetItem KOrders)); [reflexivity |].
  rewrite Hw. destruct (negb _); [| reflexivity].
  now destruct (fails e (SetItem KOrders)).
Qed.

Lemma shared_from_history_is_on_disk_witness :
  Forall
    (fun s : Section =>
       Forall
         (fun o : Order =>
            In (pdfUri o) ["doc/BBN_Quotations/TESTUSER05032025Q001.pdf"])
         (data s))
    (fst (load env_quiet
            (mkWorld Absent (Items [saved_order]) true
               ["doc/BBN_Quotations/TESTUSER05032025Q001.pdf"] []))).
Proof.
  apply List.Forall_forall. intros s Hs.
  apply List.Forall_forall. intros o Ho.
  destruct (shared_from_history_is_on_disk env_quiet
              (mkWorld Absent (Items [saved_order]) true
                 ["doc/BBN_Quotations/TESTUSER05032025Q001.pdf"] [])
              apps_ok s o) as (H & _); try assumption.
  intros so u [E | []] Hu. injection E as <-. simpl in Hu.
  injection Hu as <-. now left.
Defined.

End HistoryScreenFacts.

(** ** The order of the sections *)

Module ChronologyFacts.
Import TextFacts CalendarFacts HistoryFacts History ScreenSpec ListFacts.

(** *** Months go up with time *)

Lemma DayFromYear_mono (y1 y2 : Z) :
  y1 <= y2 -> DayFromYear y1 <= DayFromYear y2.
Proof.
  intros H. unfold DayFromYear. Z.to_euclidean_division_equations. lia.
Qed.

Lemma YearFromDay_mono (d1 d2 : Z) :
  d1 <= d2 -> YearFromDay d1 <= YearFromDay d2.
Proof.
  intros H.
  pose proof (YearFromDay_lower d1) as L1.
  pose proof (YearFromDay_upper d2) as U2.
  destruct (Z_le_gt_dec (YearFromDay d1) (YearFromDay d2)) as [|Hgt];
    [assumption |].
  pose proof (DayFromYear_mono (YearFromDay d2 + 1) (YearFromDay d1)). lia.
Qed.

Lemma MonthFromDayInYear_mono (leap : bool) (a b : Z) :
  a <= b -> MonthFromDayInYear leap a <= MonthFromDayInYear leap b.
Proof.
  intros H. unfold MonthFromDayInYear.
  destruct leap;
    repeat match goal with
           | |- context [if ?x <? ?y then _ else _] =>
               destruct (Z.ltb_spec x y)
           end; lia.
Qed.

Lemma monthIndex_mono (a b : Z) : a <= b -> monthIndex a <= monthIndex b.
Proof.
  intros H. unfold monthIndex.
  assert (Day a <= Day b) as HD
    by (unfold Day, msPerDay; apply Z.div_le_mono; lia).
  pose proof (YearFromDay_mono _ _ HD) as HY.
  pose proof (MonthFromTime_range a). pose proof (MonthFromTime_range b).
  unfold YearFromTime.
  destruct (Z.eq_dec (YearFromDay (Day a)) (YearFromDay (Day b))) as [E | N];
    [| lia].
  rewrite E. apply Z.add_le_mono_l.
  unfold MonthFromTime, DayWithinYear, YearFromTime. rewrite E.
  apply MonthFromDayInYear_mono. lia.
Qed.

(** *** Labels tell the months apart *)

Lemma to_int_proper (z : Z) : Z.to_int z <> Pos Nil /\ Z.to_int z <> Neg Nil.
Proof.
  destruct z as [|p|p]; simpl; split; try discriminate;
    intros [= H]; now apply DecimalPos.Unsigned.to_uint_nonnil in H.
Qed.

Lemma StringZ_inj (a b : Z) : StringZ a = StringZ b -> a = b.
Proof.
  unfold StringZ. intros H. apply DecimalZ.to_int_inj.
  apply (f_equal NilZero.int_of_string) in H.
  destruct (to_int_proper a) as [Ha1 Ha2], (to_int_proper b) as [Hb1 Hb2].
  rewrite !NilZero.isi in H by assumption. now injection H.
Qed.

Lemma label_inj (m1 m2 y1 y2 : Z) :
  0 <= m1 <= 11 -> 0 <= m2 <= 11 ->
  monthName m1 +:+ " " +:+ StringZ y1 = monthName m2 +:+ " " +:+ StringZ y2 ->
  m1 = m2 /\ y1 = y2.
Proof.
  intros H1 H2 H.
  remember (StringZ y1) as s1 eqn:E1. remember (StringZ y2) as s2 eqn:E2.
  assert (m1 = m2) as ->.
  { assert (m1 = 0 \/ m1 = 1 \/ m1 = 2 \/ m1 = 3 \/ m1 = 4 \/ m1 = 5 \/ m1 = 6
            \/ m1 = 7 \/ m1 = 8 \/ m1 = 9 \/ m1 = 10 \/ m1 = 11) as C1 by lia.
    assert (m2 = 0 \/ m2 = 1 \/ m2 = 2 \/ m2 = 3 \/ m2 = 4 \/ m2 = 5 \/ m2 = 6
            \/ m2 = 7 \/ m2 = 8 \/ m2 = 9 \/ m2 = 10 \/ m2 = 11) as C2 by lia.
    clear H1 H2.
    repeat (destruct C1 as [-> | C1]); try subst m1;
      repeat (destruct C2 as [-> | C2]); try subst m2;
      try reflexivity; simpl in H; discriminate H. }
  split; [reflexivity |].
  apply StringZ_inj. rewrite <- E1, <- E2.
  apply (append_inv_head (monthName m2 +:+ " ")).
  now rewrite !app_assoc.
Qed.

Lemma monthOfOrder_label (tz now : Z) (a b : Order) :
  validDate tz now a -> validDate tz now b ->
  (groupKey tz now a = groupKey tz now b
   <-> monthOfOrder tz now a = monthOfOrder tz now b).
Proof.
  unfold validDate, monthOfOrder, sortKey, groupKey, timeOf, getTime, monthIndex.
  destruct (parseDate tz now (Some (dateTime a))) as [ta|]; [| congruence].
  destruct (parseDate tz now (Some (dateTime b))) as [tb|]; [| congruence].
  intros _ _.
  pose proof (MonthFromTime_range (LocalTime tz ta)) as Ha.
  pose proof (MonthFromTime_range (LocalTime tz tb)) as Hb.
  split.
  - intros H. apply label_inj in H as [-> ->]; [reflexivity | lia | lia].
  - intros H.
    assert (YearFromTime (LocalTime tz ta) = YearFromTime (LocalTime tz tb)
            /\ MonthFromTime (LocalTime tz ta) = MonthFromTime (LocalTime tz tb))
      as [-> ->] by lia.
    reflexivity.
Qed.

Lemma monthOfOrder_mono (tz now : Z) (a b : Order) :
  sortKey tz now a <= sortKey tz now b ->
  monthOfOrder tz now a <= monthOfOrder tz now b.
Proof.
  intros H. unfold monthOfOrder. apply monthIndex_mono. unfold LocalTime. lia.
Qed.

(** *** Sections follow the months *)

Lemma sorted_map_filter {A B : Type} (R : B -> B -> Prop) (g : A -> B)
    (p : A -> bool) (l : list A) :
  StronglySorted R (List.map g l) ->
  StronglySorted R (List.map g (List.filter p l)).
Proof.
  induction l as [|x l IH]; simpl; intros Hs; [constructor |].
  apply StronglySorted_inv in Hs as [Hs Hx].
  destruct (p x); simpl; [| now apply IH].
  constructor; [now apply IH |].
  rewrite List.Forall_forall in *. intros y (z & <- & Hz)%in_map_iff.
  apply Hx, in_map. now apply filter_In in Hz as [Hz _].
Qed.

Lemma groups_sorted (tz now : Z) (s : list Order) :
  List.Forall (validDate tz now) s ->
  StronglySorted (newerFirst tz now) s ->
  StronglySorted (allNewer tz now) (groupsOf tz now s).
Proof.
  induction s as [|o r IH]; intros Hv Hs; [constructor |].
  inversion Hv as [|? ? Ho Hr]; subst.
  apply StronglySorted_inv in Hs as [Hs Hhead].
  unfold groupsOf. cbn [List.map firstSeen].
  set (others := List.filter (fun x => negb (String.eqb x (groupKey tz now o)))
                   (firstSeen (List.map (groupKey tz now) r))).
  assert (forall k, In k others ->
            List.filter (inGroup tz now k) (o :: r)
            = List.filter (inGroup tz now k) r) as Hother.
  { intros k [_ Hk]%filter_In. cbn [List.filter]. unfold inGroup at 1.
    rewrite String.eqb_sym. apply negb_true_iff in Hk. now rewrite Hk. }
  constructor.
  - rewrite (List.map_ext_in _
               (fun k => mkSection k (List.filter (inGroup tz now k) r)
                           (length (List.filter (inGroup tz now k) r)))).
    + apply sorted_map_filter. apply (IH Hr Hs).
    + intros k Hk. now rewrite (Hother k Hk).
  - apply List.Forall_forall. intros s' (k & <- & Hk)%in_map_iff.
    unfold allNewer. cbn [data]. rewrite (Hother k Hk).
    apply filter_In in Hk as [_ Hne]. apply negb_true_iff, String.eqb_neq in Hne.
    intros a b [Ha Hka]%filter_In [Hb Hkb]%filter_In.
    unfold inGroup in Hka, Hkb. apply String.eqb_eq in Hka, Hkb.
    rewrite List.Forall_forall in Hr, Hhead.
    assert (validDate tz now a) as Hva
      by (destruct Ha as [<- | Ha]; [exact Ho | now apply Hr]).
    pose proof (Hr b Hb) as Hvb. pose proof (Hhead b Hb) as Hob.
    unfold newerFirst in Hob.
    pose proof (monthOfOrder_mono tz now b o Hob) as Hm.
    assert (monthOfOrder tz now a = monthOfOrder tz now o) as Ea
      by now apply monthOfOrder_label.
    assert (monthOfOrder tz now b <> monthOfOrder tz now o) as Nb.
    { intros E. apply monthOfOrder_label in E; [| assumption | assumption].
      apply Hne. congruence. }
    destruct (Z_lt_le_dec (sortKey tz now b) (sortKey tz now a)) as [|Hle];
      [assumption |].
    pose proof (monthOfOrder_mono tz now a b Hle). lia.
Qed.

(** X29. The sections come newest month first: when the date texts of the
    loaded orders parse to valid dates, every order of a section is dated
    after every order of the sections below it, and the orders of one
    section are all dated in the same month of the same year. *)
Theorem sections_newest_month_first (tz now : Z) (l : list Order) :
  List.Forall (validDate tz now) l ->
  StronglySorted (allNewer tz now) (sectionsOf tz now l)
  /\ forall (s : Section) (a b : Order),
       In s (sectionsOf tz now l) -> In a (data s) -> In b (data s) ->
       monthOfOrder tz now a = monthOfOrder tz now b.
Proof.
  intros Hv. rewrite sections_groups.
  assert (List.Forall (validDate tz now) (sortBy (compareOrders tz now) l))
    as Hvs
    by (eapply Permutation_Forall; [symmetry; apply sortBy_perm | exact Hv]).
  split.
  - apply groups_sorted; [exact Hvs | now apply sortBy_sorted].
  - unfold groupsOf. intros s a b (k & <- & _)%in_map_iff. cbn [data].
    intros [Ha Hka]%filter_In [Hb Hkb]%filter_In.
    unfold inGroup in Hka, Hkb. apply String.eqb_eq in Hka, Hkb.
    rewrite List.Forall_forall in Hvs.
    apply monthOfOrder_label; [now apply Hvs | now apply Hvs | congruence].
Qed.

Lemma sections_newest_month_first_witness :
  StronglySorted (allNewer IST 0) (sectionsOf IST 0 four_orders).
Proof.
  destruct (sections_newest_month_first IST 0 four_orders) as (H & _).
  - repeat constructor; vm_compute; discriminate.
  - exact H.
Defined.

End ChronologyFacts.

(** ** The time in a date text *)

Module TimeTextFacts.
Import TextFacts CalendarFacts DateFacts History ScreenSpec ListFacts.

Lemma isAP_not_digit (a : ascii) : isAP a = true -> isDigit a = false.
Proof.
  destruct a as [[] [] [] [] [] [] [] []]; vm_compute; congruence.
Qed.

Lemma isAP_not_space (a : ascii) : isAP a = true -> isSpace a = false.
Proof.
  destruct a as [[] [] [] [] [] [] [] []]; vm_compute; congruence.
Qed.

Lemma isSpace_not_digit (c : ascii) : isSpace c = true -> isDigit c = false.
Proof.
  destruct (isDigit c) eqn:E; [| reflexivity].
  rewrite (isDigit_not_space c E). discriminate.
Qed.

Lemma trimStart_gap (gap r : string) :
  allChars isSpace gap = true -> stops isSpace r = true ->
  trimStart (gap +:+ r) = r.
Proof.
  intros Hg Hr. induction gap as [|c gap IH].
  - destruct r as [|c r]; [reflexivity |]. simpl in *.
    now destruct (isSpace c).
  - simpl in Hg. apply andb_true_iff in Hg as [Hc Hg].
    change (String c gap +:+ r) with (String c (gap +:+ r)).
    simpl. rewrite Hc. now apply IH.
Qed.

(** One attempt of the pattern where the time stands. *)
Lemma matchTimeHere_found (h mi gap rest : string) (a m : ascii) :
  allChars isDigit h = true -> truthy h = true ->
  allChars isDigit mi = true -> truthy mi = true ->
  allChars isSpace gap = true -> isAP a = true -> isM m = true ->
  matchTimeHere (h +:+ ":" +:+ mi +:+ gap +:+ String a (String m rest))
  = Some (h, mi, String a (String m "")).
Proof.
  intros Hh Th Hm Tm Hg Ha Hmm. unfold matchTimeHere.
  rewrite (span_app isDigit h _ Hh) by reflexivity.
  rewrite Th. simpl negb. cbv iota.
  change (":" +:+ mi +:+ gap +:+ String a (String m rest))
    with (String ":" (mi +:+ gap +:+ String a (String m rest))).
  cbv iota. change (":" =? ":")%char with true. simpl negb. cbv iota.
  rewrite (span_app isDigit mi _ Hm).
  - rewrite Tm. simpl negb. cbv iota.
    rewrite trimStart_gap; [now rewrite Ha, Hmm | exact Hg |].
    simpl. now rewrite (isAP_not_space a Ha).
  - destruct gap as [|c gap]; simpl.
    + now rewrite (isAP_not_digit a Ha).
    + simpl in Hg. apply andb_true_iff in Hg as [Hc _].
      now rewrite (isSpace_not_digit c Hc).
Qed.

(** The pattern is looked for along the text: what stands before the first
    digit is passed over. *)
Lemma matchTime_found (junk h mi gap rest : string) (a m : ascii) :
  allChars (fun c => negb (isDigit c)) junk = true ->
  allChars isDigit h = true -> truthy h = true ->
  allChars isDigit mi = true -> truthy mi = true ->
  allChars isSpace gap = true -> isAP a = true -> isM m = true ->
  matchTime (junk +:+ h +:+ ":" +:+ mi +:+ gap +:+ String a (String m rest))
  = Some (h, mi, String a (String m "")).
Proof.
  intros Hj Hh Th Hm Tm Hg Ha Hmm. induction junk as [|c junk IH].
  - apply matchTime_here. now apply matchTimeHere_found.
  - simpl in Hj. apply andb_true_iff in Hj as [Hc Hj].
    change (String c junk +:+ h +:+ ":" +:+ mi +:+ gap
            +:+ String a (String m rest))
      with (String c (junk +:+ h +:+ ":" +:+ mi +:+ gap
                      +:+ String a (String m rest))).
    rewrite matchTime_unfold.
    assert (matchTimeHere
              (String c (junk +:+ h +:+ ":" +:+ mi +:+ gap
                         +:+ String a (String m rest))) = None) as ->.
    { unfold matchTimeHere. simpl span. apply negb_true_iff in Hc.
      now rewrite Hc. }
    now apply IH.
Qed.

(** X30. The time of a date text is searched for, not matched as a whole:
    after a date part of three runs of digits and [" at "], the hour and
    the minute are read where the first run of digits stands, whatever
    comes before it (no digits) and after AM or PM; any white space, or
    none, may stand before AM or PM, and these may be in either case. PM
    with an hour other than 12 adds 12, AM with hour 12 gives 0. *)
Theorem time_is_searched_in_the_text (tz now : Z)
    (dd mm yy junk h mi gap rest : string) (a m : ascii) :
  allChars isDigit dd = true -> truthy dd = true ->
  allChars isDigit mm = true -> truthy mm = true ->
  allChars isDigit yy = true -> truthy yy = true ->
  allChars (fun c => negb (isDigit c)) junk = true ->
  allChars isDigit h = true -> truthy h = true ->
  allChars isDigit mi = true -> truthy mi = true ->
  allChars isSpace gap = true -> isAP a = true -> isM m = true ->
  let timePart := junk +:+ h +:+ ":" +:+ mi +:+ gap
                  +:+ String a (String m rest) in
  occursIn " at " timePart = false ->
  parseDate tz now
    (Some ((dd +:+ "/" +:+ mm +:+ "/" +:+ yy) +:+ " at " +:+ timePart))
  = newDate tz (JFin (digitsVal yy) 0) (JFin (digitsVal mm - 1) 0)
      (JFin (digitsVal dd) 0)
      (if Ascii.eqb (upperChar a) "P"
       then (if digitsVal h =? 12 then 12 else digitsVal h + 12)
       else (if digitsVal h =? 12 then 0 else digitsVal h))
      (digitsVal mi).
Proof.
  intros Hd Td Hm Tm Hy Ty Hj Hh Th Hi Ti Hg Ha Hmm timePart Hat.
  unfold parseDate.
  assert (truthy ((dd +:+ "/" +:+ mm +:+ "/" +:+ yy) +:+ " at " +:+ timePart)
          = true) as ->.
  { destruct dd; [discriminate | reflexivity]. }
  simpl negb. cbv iota.
  assert (split " at " ((dd +:+ "/" +:+ mm +:+ "/" +:+ yy) +:+ " at "
                        +:+ timePart)
          = [dd +:+ "/" +:+ mm +:+ "/" +:+ yy; timePart]) as ->.
  { rewrite (split_first " " "at " _ timePart (date_no_space dd mm yy Hd Hm Hy)).
    now rewrite (split_absent _ _ Hat). }
  rewrite split_date by assumption.
  simpl List.map.
  rewrite !Number_digits by assumption.
  simpl existsb. cbv iota.
  unfold timePart. rewrite matchTime_found by assumption.
  unfold parseInt, pred. simpl (0 <=? 0). cbv iota.
  rewrite Z.pow_0_r, Z.mul_1_r. f_equal.
  unfold to24. simpl toUpperCase.
  unfold isAP in Ha. unfold isM in Hmm. apply Ascii.eqb_eq in Hmm.
  rewrite Hmm.
  destruct (Ascii.eqb_spec (upperChar a) "P") as [-> | Hne].
  - simpl. destruct (digitsVal h =? 12) eqn:E; simpl; [| reflexivity].
    now apply Z.eqb_eq in E.
  - rewrite orb_false_r in Ha. apply Ascii.eqb_eq in Ha.
    rewrite Ha. simpl. now destruct (digitsVal h =? 12).
Qed.

Lemma time_is_searched_in_the_text_witness :
  parseDate IST 0 (Some "05/03/2025 at around 3:30pm sharp")
  = parseDate IST 0 (Some "05/03/2025 at 3:30 PM").
Proof.
  etransitivity.
  - apply (time_is_searched_in_the_text IST 0 "05" "03" "2025" "around " "3"
             "30" "" " sharp" "p" "m"); reflexivity.
  - vm_compute. reflexivity.
Defined.

End TimeTextFacts.

(** ** Zones with clock changes *)

Module ZoneFacts.
Import TextFacts CalendarFacts DateFacts Zoned ZoneSpec.

Lemma within_spec (o : Z) : within o = true <-> - msPerDay <= o <= msPerDay.
Proof. unfold within. rewrite andb_true_iff, !Z.leb_le. tauto. Qed.

Lemma orderly_cons (a o : Z) (r : list (Z * Z)) :
  orderly ((a, o) :: r) = true ->
  (- msPerDay <= o <= msPerDay)
  /\ (forall a' o', In (a', o') r -> a + 2 * msPerDay <= a')
  /\ orderly r = true.
Proof.
  simpl. rewrite !andb_true_iff, within_spec, forallb_forall.
  intros [[Ho Hr] Hrest]. repeat split; try tauto.
  intros a' o' Hin. specialize (Hr _ Hin). simpl in Hr. now apply Z.leb_le.
Qed.

Lemma orderly_within (cs : list (Z * Z)) (a o : Z) :
  orderly cs = true -> In (a, o) cs -> - msPerDay <= o <= msPerDay.
Proof.
  induction cs as [|[a1 o1] r IH]; intros Hc Hin; [destruct Hin |].
  apply orderly_cons in Hc as (Ho & _ & Hr).
  destruct Hin as [[= -> ->]|Hin]; [exact Ho | now apply IH].
Qed.

(** The offset at an instant is the first one, or that of a change that
    the instant has reached. *)
Lemma offsetFrom_is (cs : list (Z * Z)) (o t : Z) :
  offsetFrom o cs t = o
  \/ exists a o', In (a, o') cs /\ a <= t /\ offsetFrom o cs t = o'.
Proof.
  revert o. induction cs as [|[a o'] r IH]; intros o; simpl; [now left |].
  destruct (Z.ltb_spec t a) as [Hlt|Hge]; [now left |]. right.
  destruct (IH o') as [Heq|(a2 & o2 & Hin & Hle & Heq)].
  - exists a, o'. repeat split; [now left | exact Hge | exact Heq].
  - exists a2, o2. repeat split; [now right | exact Hle | exact Heq].
Qed.

(** The offset by which a local time is read is the first one, or that of
    a change whose first local time it has reached. *)
Lemma localOffsetFrom_is (cs : list (Z * Z)) (o tl : Z) :
  localOffsetFrom o cs tl = o
  \/ exists a o', In (a, o') cs /\ a + o' <= tl /\ localOffsetFrom o cs tl = o'.
Proof.
  revert o. induction cs as [|[a o'] r IH]; intros o; simpl; [now left |].
  destruct (Z.ltb_spec tl (a + Z.max o o')) as [Hlt|Hge]; [now left |]. right.
  destruct (IH o') as [Heq|(a2 & o2 & Hin & Hle & Heq)].
  - exists a, o'. repeat split; [now left | lia | exact Heq].
  - exists a2, o2. repeat split; [now right | exact Hle | exact Heq].
Qed.

(** From a change on, local time stays at or after the local time the
    change starts with. *)
Lemma local_after (a o' : Z) (r : list (Z * Z)) (t0 : Z) :
  orderly ((a, o') :: r) = true -> a <= t0 ->
  a + o' <= t0 + offsetFrom o' r t0.
Proof.
  intros (Ho & Hfar & Hr)%orderly_cons Ht.
  destruct (offsetFrom_is r o' t0) as [->|(a2 & o2 & Hin & Hle & ->)]; [lia |].
  pose proof (Hfar _ _ Hin). pose proof (orderly_within r a2 o2 Hr Hin). lia.
Qed.

(** A local time that some instant shows is read as an instant that shows
    it. *)
Lemma resolution (cs : list (Z * Z)) (o tl : Z) :
  orderly cs = true ->
  (exists t0, t0 + offsetFrom o cs t0 = tl) ->
  (tl - localOffsetFrom o cs tl)
  + offsetFrom o cs (tl - localOffsetFrom o cs tl) = tl.
Proof.
  revert o. induction cs as [|[a o'] r IH]; intros o Hc (t0 & Ht0);
    simpl in *; [lia |].
  pose proof Hc as (Ho' & Hfar & Hr)%orderly_cons.
  destruct (Z.ltb_spec tl (a + Z.max o o')) as [Hlt|Hge].
  - destruct (Z.ltb_spec (tl - o) a) as [Hb|Ha]; [lia |].
    exfalso. destruct (Z.ltb_spec t0 a) as [H0|H0]; [lia |].
    pose proof (local_after a o' r t0 Hc H0). lia.
  - assert (a <= tl - localOffsetFrom o' r tl) as Hafter.
    { destruct (localOffsetFrom_is r o' tl) as [->|(a2 & o2 & Hin & Hle & ->)];
        [lia |].
      pose proof (Hfar _ _ Hin). unfold msPerDay in *. lia. }
    destruct (Z.ltb_spec (tl - localOffsetFrom o' r tl) a) as [Hb|_]; [lia |].
    apply (IH o' Hr). exists t0.
    destruct (Z.ltb_spec t0 a) as [H0|H0]; [lia | exact Ht0].
Qed.

Lemma offsetOfLocal_within (z : Zone) (tl : Z) :
  wellFormed z = true -> - msPerDay <= offsetOfLocal z tl <= msPerDay.
Proof.
  unfold wellFormed, offsetOfLocal. intros [Ho Hc]%andb_true_iff.
  apply within_spec in Ho.
  destruct (localOffsetFrom_is (changes z) (initialOffset z) tl)
    as [->|(a & o & Hin & _ & ->)]; [exact Ho |].
  exact (orderly_within _ a o Hc Hin).
Qed.

(** In a well-formed zone, reading a local time that some instant shows
    gives an instant that shows it. *)
Lemma LocalTime_UTC (z : Zone) (tl : Z) :
  wellFormed z = true -> shownSometime z tl ->
  Zoned.LocalTime z (UTC z tl) = tl.
Proof.
  unfold wellFormed, shownSometime, Zoned.LocalTime, UTC, offsetAt,
    offsetOfLocal.
  intros [_ Hc]%andb_true_iff Hex. now apply resolution.
Qed.

(** *** Without a clock change *)

Lemma fixed_LocalTime (tz t : Z) :
  Zoned.LocalTime (fixedZone tz) t = JSDate.LocalTime tz t.
Proof. reflexivity. Qed.

Lemma fixed_newDate (tz : Z) (y m d : JSNumber) (h mi : Z) :
  Zoned.newDate (fixedZone tz) y m d h mi = JSDate.newDate tz y m d h mi.
Proof. reflexivity. Qed.

Lemma fixed_parseDate (tz now : Z) (s : option string) :
  Zoned.parseDate (fixedZone tz) now s = History.parseDate tz now s.
Proof. reflexivity. Qed.

Lemma fixed_formatDateTime (e : Env) (f : OrderForm.Form) (w : World)
    (s : string) :
  Zoned.formatDateTime (fixedZone (tz e)) f = Some s
  <-> OrderForm.formatDateTime e (OrderForm.mkSt f w)
      = (OrderForm.Ok s, OrderForm.mkSt f w).
Proof.
  unfold Zoned.formatDateTime, OrderForm.formatDateTime, mbind,
    OrderForm.M_bind, OrderForm.bind, OrderForm.getForm. simpl.
  destruct (OrderForm.date f) as [d|]; simpl.
  - unfold Zoned.toLocaleDateString_enGB, Zoned.toLocaleTimeString_enUS,
      OrderForm.ret. simpl. split; intros [= <-]; reflexivity.
  - unfold OrderForm.throw. split; discriminate.
Qed.

End ZoneFacts.

(** ** The date and time text, written and read in a zone *)

Module RoundTripFacts.
Import TextFacts CalendarFacts DateFacts Zoned ZoneSpec ZoneFacts.

Lemma Day_bounds_of_years (t : Z) :
  100 <= YearFromTime t <= 275759 -> -683003 <= Day t < 99999744.
Proof.
  intros Hy. unfold YearFromTime in Hy.
  pose proof (YearFromDay_lower (Day t)) as Hl.
  pose proof (YearFromDay_upper (Day t)) as Hu.
  unfold DayFromYear in Hl, Hu.
  Z.to_euclidean_division_equations; lia.
Qed.

(** The day number is recovered from year, month and day of the month, up
    to the last day of the range of dates. *)
Lemma MakeDay_of_fields (t : Z) :
  -99999000 <= Day t <= 100000000 ->
  MakeDay (YearFromTime t) (MonthFromTime t) (DateFromTime t) = Some (Day t).
Proof.
  intros Hb. unfold MakeDay.
  pose proof (MonthFromTime_range t) as Hm.
  rewrite (Z.div_small (MonthFromTime t) 12), (Z.mod_small (MonthFromTime t) 12),
    Z.add_0_r by lia.
  pose proof (DateFromTime_pos t) as Hd.
  assert (DayFromYear (YearFromTime t)
          + daysBeforeMonth (InLeapYear (YearFromTime t)) (MonthFromTime t)
          + DateFromTime t - 1 = Day t) as Heq.
  { unfold DateFromTime, DayWithinYear. lia. }
  pose proof (DayWithinYear_range t) as Hw.
  assert (DateFromTime t <= 366) as Hd2.
  { unfold DateFromTime.
    assert (0 <= daysBeforeMonth (InLeapYear (YearFromTime t)) (MonthFromTime t)).
    { unfold daysBeforeMonth.
      repeat match goal with
             | |- context [if ?b then _ else _] => destruct b
             end; lia. }
    destruct (InLeapYear (YearFromTime t)); lia. }
  destruct (Z.leb_spec
    (Z.abs ((DayFromYear (YearFromTime t)
             + daysBeforeMonth (InLeapYear (YearFromTime t)) (MonthFromTime t))
            * msPerDay)) maxTime) as [_|Hbad].
  - now rewrite Heq.
  - unfold msPerDay, maxTime in Hbad. lia.
Qed.

(** The text written in a zone is in the canonical form. *)
Lemma written_canonical (z : Zone) (d t : Z) :
  let l := Zoned.LocalTime z d in
  let c := Zoned.LocalTime z t in
  Zoned.toLocaleDateString_enGB z d +:+ " at "
  +:+ Zoned.toLocaleTimeString_enUS z t
  = canonical (padStart 2 "0" (StringZ (DateFromTime l)))
      (padStart 2 "0" (StringZ (MonthFromTime l + 1)))
      (StringZ (YearFromTime l))
      (StringZ (if HourFromTime c mod 12 =? 0 then 12 else HourFromTime c mod 12))
      (padStart 2 "0" (StringZ (MinFromTime c)))
      (negb (HourFromTime c <? 12)).
Proof.
  intros l c. rewrite canonical_assoc.
  unfold Zoned.toLocaleDateString_enGB, Zoned.toLocaleTimeString_enUS,
    JSDate.toLocaleDateString_enGB, JSDate.toLocaleTimeString_enUS.
  change (JSDate.LocalTime (offsetAt z d) d) with l.
  change (JSDate.LocalTime (offsetAt z t) t) with c.
  now destruct (HourFromTime c <? 12).
Qed.

(** A text in the canonical form is read from its components. *)
Lemma read_canonical (z : Zone) (now : Z) (dd mm yy hh mi : string) (pm : bool) :
  allChars isDigit dd = true -> truthy dd = true ->
  allChars isDigit mm = true -> truthy mm = true ->
  allChars isDigit yy = true -> truthy yy = true ->
  allChars isDigit hh = true -> truthy hh = true ->
  allChars isDigit mi = true -> truthy mi = true ->
  Zoned.parseDate z now (Some (canonical dd mm yy hh mi pm))
  = Zoned.newDate z (JFin (digitsVal yy) 0) (JFin (digitsVal mm - 1) 0)
      (JFin (digitsVal dd) 0)
      (History.to24 (meridiem pm) (digitsVal hh)) (digitsVal mi).
Proof.
  intros Hd Td Hm Tm Hy Ty Hh Th Hi Ti.
  unfold Zoned.parseDate.
  assert (truthy (canonical dd mm yy hh mi pm) = true) as ->.
  { unfold canonical. destruct dd; [discriminate | reflexivity]. }
  simpl negb. cbv iota.
  rewrite split_canonical by assumption.
  rewrite split_date by assumption.
  simpl List.map.
  rewrite !Number_digits by assumption.
  simpl existsb. cbv iota.
  rewrite matchTime_canonical by assumption.
  unfold parseInt, pred. simpl (0 <=? 0). cbv iota.
  now rewrite Z.pow_0_r, Z.mul_1_r.
Qed.

(** The date built in a zone from the fields of a local day and a clock
    time. *)
Lemma newDate_of_fields (z : Zone) (l h mi : Z) :
  wellFormed z = true ->
  100 <= YearFromTime l <= 275759 ->
  0 <= h < 24 -> 0 <= mi < 60 ->
  Zoned.newDate z (JFin (YearFromTime l) 0) (JFin (MonthFromTime l + 1 - 1) 0)
    (JFin (DateFromTime l) 0) h mi
  = Some (UTC z (Day l * msPerDay + MakeTime h mi)).
Proof.
  intros Hz Hy Hh Hmi.
  unfold Zoned.newDate. rewrite !truncate_int.
  replace (MonthFromTime l + 1 - 1) with (MonthFromTime l) by lia.
  pose proof (Day_bounds_of_years l Hy) as Hd.
  assert ((0 <=? YearFromTime l) && (YearFromTime l <=? 99) = false) as ->.
  { apply andb_false_iff. right. apply Z.leb_gt. lia. }
  rewrite (MakeDay_of_fields l) by lia.
  unfold TimeClip, UTC.
  pose proof (offsetOfLocal_within z (Day l * msPerDay + MakeTime h mi) Hz)
    as Ho.
  destruct (Z.leb_spec
    (Z.abs (Day l * msPerDay + MakeTime h mi
            - offsetOfLocal z (Day l * msPerDay + MakeTime h mi)))
    maxTime) as [_|Hbad]; [reflexivity |].
  unfold MakeTime, msPerDay, msPerHour, msPerMinute, maxTime in *. lia.
Qed.

(** C8 (amended). Round trip between the writer and the reader of the
    persisted [dateTime] text, in the zone of the device. For every event
    date in the years 100 to 275759 and every event time, if the day of the
    one with the clock time of the other is a local time that some instant
    shows in the zone (a clock put forward skips local times), then the
    text that [formatDateTime] writes is read by [parseDate] from its
    components, whatever the clock reads (the fallback to the current moment
    is not taken), and the date read has the day, month and year of the
    event date and the hour and minute of the event time. *)
Theorem C8_dateTime_round_trip (z : Zone) (f : OrderForm.Form) (d : Z) :
  OrderForm.date f = Some d ->
  wellFormed z = true ->
  100 <= YearFromTime (Zoned.LocalTime z d) <= 275759 ->
  shownSometime z
    (Day (Zoned.LocalTime z d) * msPerDay
     + MakeTime (HourFromTime (Zoned.LocalTime z (OrderForm.time f)))
         (MinFromTime (Zoned.LocalTime z (OrderForm.time f)))) ->
  exists (s : string) (t' : Z),
    Zoned.formatDateTime z f = Some s
    /\ (forall now, Zoned.parseDate z now (Some s) = Some t')
    /\ Zoned.getDate z (Some t') = Some (DateFromTime (Zoned.LocalTime z d))
    /\ Zoned.getMonth z (Some t') = Some (MonthFromTime (Zoned.LocalTime z d))
    /\ Zoned.getFullYear z (Some t') = Some (YearFromTime (Zoned.LocalTime z d))
    /\ Zoned.getHours z (Some t')
       = Some (HourFromTime (Zoned.LocalTime z (OrderForm.time f)))
    /\ Zoned.getMinutes z (Some t')
       = Some (MinFromTime (Zoned.LocalTime z (OrderForm.time f))).
Proof.
  intros Hd Hz Hy Hex.
  remember (Zoned.LocalTime z d) as l eqn:El.
  remember (Zoned.LocalTime z (OrderForm.time f)) as c eqn:Ec.
  pose proof (HourFromTime_range c) as Hh.
  pose proof (MinFromTime_range c) as Hmi.
  pose proof (MonthFromTime_range l) as Hm.
  pose proof (DateFromTime_pos l) as Hdd.
  set (tl := Day l * msPerDay + MakeTime (HourFromTime c) (MinFromTime c)) in *.
  exists (Zoned.toLocaleDateString_enGB z d +:+ " at "
          +:+ Zoned.toLocaleTimeString_enUS z (OrderForm.time f)),
         (UTC z tl).
  split; [unfold Zoned.formatDateTime; now rewrite Hd |].
  split.
  { intros now. rewrite written_canonical. cbv zeta. rewrite <- El, <- Ec.
    assert (0 <= (if HourFromTime c mod 12 =? 0 then 12 else HourFromTime c mod 12))
      as Hh12
      by (pose proof (Z.mod_pos_bound (HourFromTime c) 12);
          destruct (HourFromTime c mod 12 =? 0); lia).
    rewrite read_canonical by
      first [ apply padStart_digits, StringZ_digits; lia
            | apply StringZ_digits; lia
            | apply padStart_truthy, StringZ_truthy
            | apply StringZ_truthy ].
    rewrite !padStart_value, !StringZ_value by lia.
    rewrite (to24_of_12 _ Hh).
    now apply newDate_of_fields. }
  unfold Zoned.getDate, Zoned.getMonth, Zoned.getFullYear, Zoned.getHours,
    Zoned.getMinutes. simpl.
  rewrite (LocalTime_UTC z tl Hz Hex). unfold tl.
  destruct (same_day_fields _ l (rebuilt_Day (Day l) _ _ Hh Hmi))
    as (Hy' & Hm' & Hd').
  rewrite Hy', Hm', Hd', (rebuilt_Hour (Day l) _ _ Hh Hmi),
    (rebuilt_Min (Day l) _ _ Hh Hmi).
  repeat split; reflexivity.
Qed.

(** Without a clock change every local time is shown by some instant. *)
Lemma fixed_shownSometime (tz tl : Z) : shownSometime (fixedZone tz) tl.
Proof.
  exists (tl - tz). unfold Zoned.LocalTime, offsetAt. simpl. lia.
Qed.

(** New York, 5 March 2025 and 4 in the afternoon. *)
Lemma C8_dateTime_round_trip_witness :
  exists (s : string) (t' : Z),
    Zoned.formatDateTime newYork2025 (form_at 1741194000000 1741208400000)
    = Some s
    /\ (forall now, Zoned.parseDate newYork2025 now (Some s) = Some t')
    /\ Zoned.getDate newYork2025 (Some t') = Some 5
    /\ Zoned.getMonth newYork2025 (Some t') = Some 2
    /\ Zoned.getFullYear newYork2025 (Some t') = Some 2025
    /\ Zoned.getHours newYork2025 (Some t') = Some 16
    /\ Zoned.getMinutes newYork2025 (Some t') = Some 0.
Proof.
  apply (C8_dateTime_round_trip newYork2025
           (form_at 1741194000000 1741208400000) 1741194000000).
  - reflexivity.
  - reflexivity.
  - vm_compute. split; discriminate.
  - exists 1741208400000. reflexivity.
Defined.

(** Three event dates and times that are not read back. An event date in
    the year 50 is written with the year 50, which the date constructor
    reads as 1950. In New York the clock went from 2:00 to 3:00 on 9 March
    2025: for that event date and the event time 2:30 AM the text is read
    as 3:30 AM. On the last day of the range of dates, 13 September 275760,
    the text read with a time after the last instant is no date. *)
Lemma C8_counterexample :
  (Zoned.getFullYear (fixedZone IST) (Some (-60589315800000)) = Some 50
   /\ Zoned.formatDateTime (fixedZone IST)
        (form_at (-60589315800000) 1741170600000)
      = Some "01/01/50 at 4:00 PM"
   /\ Zoned.getFullYear (fixedZone IST)
        (Zoned.parseDate (fixedZone IST) 1762000000000
           (Some "01/01/50 at 4:00 PM"))
      = Some 1950)
  /\ (wellFormed newYork2025 = true
      /\ Zoned.getHours newYork2025 (Some 1741159800000) = Some 2
      /\ Zoned.getMinutes newYork2025 (Some 1741159800000) = Some 30
      /\ Zoned.formatDateTime newYork2025 (form_at 1741536000000 1741159800000)
         = Some "09/03/2025 at 2:30 AM"
      /\ Zoned.getHours newYork2025
           (Zoned.parseDate newYork2025 1762000000000
              (Some "09/03/2025 at 2:30 AM"))
         = Some 3
      /\ Zoned.getMinutes newYork2025
           (Zoned.parseDate newYork2025 1762000000000
              (Some "09/03/2025 at 2:30 AM"))
         = Some 30)
  /\ (Zoned.formatDateTime (fixedZone IST) (form_at maxTime 1741170600000)
      = Some "13/09/275760 at 4:00 PM"
      /\ Zoned.parseDate (fixedZone IST) 1762000000000
           (Some "13/09/275760 at 4:00 PM")
         = None).
Proof. repeat split; vm_compute; reflexivity. Qed.

End RoundTripFacts.

(** ** The structure of a date and time text *)

Module ParsingFacts.
Import TextFacts CalendarFacts DateFacts ListFacts TimeTextFacts ParseSpec.

(** *** Splitting at a separator *)












(** *** Looking for the time *)










(** *** The parser *)







End ParsingFacts.

(** ** The repair of the stored orders *)

Module RepairFacts.
Import TextFacts CalendarFacts History HistoryFacts HistoryScreenFacts
  ListFacts RepairSpec.

Lemma isValid_usable (en : Entry) :
  isValid en = true <-> exists so, en = Some so /\ usable so.
Proof. apply isValid_spec. Qed.

Lemma usable_id (so : StoredOrder) :
  usable so -> o_id so = Some (id (normalize (Some so))).
Proof. intros ((i & Hi & _) & _). simpl. now rewrite Hi. Qed.

Lemma usable_shownAs (so : StoredOrder) :
  usable so -> shownAs so (normalize (Some so)).
Proof.
  intros ((i & Hi & _) & (d & Hd & _) & (u & Hu & _)).
  unfold shownAs. simpl. rewrite Hi, Hd, Hu. simpl.
  repeat split; now destruct so as [? [?|] [?|] [?|] ? [?|] [?|] ?].
Qed.

Lemma validOrders_cons (en : Entry) (r : list Entry) :
  validOrders (en :: r)
  = if isValid en then normalize en :: validOrders r else validOrders r.
Proof. unfold validOrders. simpl. now destruct (isValid en). Qed.

(** An id of the valid orders is the id of a usable entry of the array. *)
Lemma valid_id_lookup (os : list Entry) (i : string) :
  In i (List.map id (validOrders os))
  <-> exists (k : nat) (so : StoredOrder),
        os !! k = Some (Some so) /\ usable so /\ o_id so = Some i.
Proof.
  rewrite in_map_iff. split.
  - intros (o & <- & (so & Hin & H1 & H2 & H3 & ->)%validOrders_spec).
    apply list_elem_of_In, list_elem_of_lookup_1 in Hin as (k & Hk).
    assert (usable so) as Hu by exact (conj H1 (conj H2 H3)).
    exists k, so. split; [exact Hk |]. split; [exact Hu |].
    now apply usable_id.
  - intros (k & so & Hk & Hu & Hi).
    exists (normalize (Some so)). split.
    + rewrite (usable_id so Hu) in Hi. congruence.
    + apply validOrders_spec. exists so.
      destruct Hu as (H1 & H2 & H3).
      split; [| exact (conj H1 (conj H2 (conj H3 eq_refl)))].
      apply list_elem_of_In. now apply list_elem_of_lookup_2 with k.
Qed.

(** The ids of the valid orders are distinct unless two usable entries
    share one. *)
Lemma valid_NoDup (os : list Entry) :
  List.NoDup (List.map id (validOrders os)) <-> ~ repeatedId os.
Proof.
  induction os as [|en r IH].
  - split; [| intros _; constructor].
    intros _ (j & k & so & so' & _ & Hj & _). discriminate Hj.
  - rewrite validOrders_cons. split.
    + intros Hnd (j & k & so & so' & Hjk & Hj & Hk & Hu & Hu' & Hid).
      destruct k as [|k]; [lia |]. simpl in Hk.
      destruct j as [|j]; simpl in Hj.
      * injection Hj as ->.
        assert (isValid (Some so) = true) as Hv
          by (apply isValid_usable; now exists so).
        rewrite Hv in Hnd. simpl in Hnd.
        inversion Hnd as [|? ? Hnotin _]; subst. apply Hnotin.
        apply valid_id_lookup. exists k, so'.
        split; [exact Hk |]. split; [exact Hu' |].
        rewrite <- Hid. now apply usable_id.
      * assert (List.NoDup (List.map id (validOrders r))) as Hr.
        { destruct (isValid en); [| exact Hnd]. simpl in Hnd.
          now inversion Hnd. }
        apply IH in Hr. apply Hr. exists j, k, so, so'.
        split; [lia |]. exact (conj Hj (conj Hk (conj Hu (conj Hu' Hid)))).
    + intros Hno.
      assert (List.NoDup (List.map id (validOrders r))) as Hr.
      { apply IH. intros (j & k & so & so' & Hjk & Hj & Hk & Hrest).
        apply Hno. exists (S j), (S k), so, so'.
        split; [lia | exact (conj Hj (conj Hk Hrest))]. }
      destruct (isValid en) eqn:Hv; [| exact Hr].
      apply isValid_usable in Hv as (so & -> & Hu). simpl List.map.
      constructor; [| exact Hr].
      intros (k & so' & Hk & Hu' & Hi)%valid_id_lookup.
      apply Hno. exists 0%nat, (S k), so, so'.
      split; [lia |]. split; [reflexivity |]. split; [exact Hk |].
      split; [exact Hu |]. split; [exact Hu' |].
      rewrite Hi. now apply usable_id.
Qed.

(** The loop over the valid orders, seen from the stored array: [pre] has
    been passed, [seen] holds the ids of its usable entries. *)
Lemma dedupe_positions (rest pre : list Entry) (seen : gset string) :
  (forall i : string,
      i ∈ seen <-> exists (j : nat) (so : StoredOrder),
                     pre !! j = Some (Some so) /\ usable so
                     /\ o_id so = Some i) ->
  exists kept : list nat,
    StronglySorted Nat.lt kept
    /\ Forall (fun k => (length pre <= k)%nat) kept
    /\ (forall k : nat,
          In k kept <-> (length pre <= k)%nat /\ firstOfItsId (pre ++ rest) k)
    /\ Forall2
         (fun k o => exists so, (pre ++ rest) !! k = Some (Some so)
                                /\ shownAs so o)
         kept (dedupeFrom seen (validOrders rest)).
Proof.
  revert pre seen. unfold Entry in *.
  induction rest as [|en r IH]; intros pre seen Hseen.
  { exists []. split; [constructor |]. split; [constructor |].
    split; [| constructor]. intros k. split; [intros [] |].
    intros (Hk & so & Hso & _). rewrite List.app_nil_r in Hso.
    apply lookup_lt_Some in Hso. lia. }
  assert (forall k, (pre ++ en :: r) !! k = ((pre ++ [en]) ++ r) !! k) as Hsame
    by (intros k; now rewrite <- List.app_assoc).
  assert ((pre ++ en :: r) !! length pre = Some en) as Hhere
    by (rewrite lookup_app_r, Nat.sub_diag by lia; reflexivity).
  assert (forall k, firstOfItsId (pre ++ en :: r) k
                    <-> firstOfItsId ((pre ++ [en]) ++ r) k) as Hfirst
    by (intros k; now rewrite <- List.app_assoc).
  assert (length (pre ++ [en]) = S (length pre)) as Hlen
    by (rewrite List.length_app; simpl; lia).
  rewrite validOrders_cons.
  destruct (isValid en) eqn:Hv.
  - apply isValid_usable in Hv as (so & -> & Hu).
    pose proof (usable_id so Hu) as Hid.
    simpl dedupeFrom.
    change (orElse (o_id so) "") with (id (normalize (Some so))).
    destruct (bool_decide_reflect (id (normalize (Some so)) ∈ seen))
      as [Hin|Hout].
    + (* the id has been seen: the entry is dropped *)
      destruct (IH (pre ++ [Some so]) seen) as (kept & Hs & Hge & Hk & Hf).
      { intros i. rewrite Hseen. split.
        - intros (j & so' & Hj & Hrest). exists j, so'.
          split; [| exact Hrest]. now apply lookup_app_l_Some.
        - intros (j & so' & Hj & Hu' & Hi).
          apply lookup_app_Some in Hj as [Hj|[_ Hj]]; [now exists j, so' |].
          apply list_lookup_singleton_Some in Hj as [_ [= <-]].
          apply Hseen. congruence. }
      exists kept. split; [exact Hs |]. split.
      { eapply Forall_impl; [exact Hge |]. simpl. intros k. lia. }
      split.
      { intros k. rewrite Hk, Hlen, Hfirst.
        split; [intros [? ?]; split; [lia | assumption] |].
        intros [Hle Hf1]. split; [| exact Hf1].
        destruct (Nat.eq_dec k (length pre)) as [->|]; [| lia]. exfalso.
        apply (proj2 (Hfirst _)) in Hf1.
        destruct Hf1 as (so1 & Hso1 & _ & Hmin).
        assert (Some (Some so1) = Some (Some so)) as [= ->]
          by (rewrite <- Hso1; exact Hhere).
        apply Hseen in Hin as (j & so' & Hj & Hu' & Hi).
        apply (Hmin j so');
          [now apply lookup_lt_Some in Hj | | exact Hu' | congruence].
        now apply lookup_app_l_Some. }
      eapply Forall2_impl; [exact Hf |]. simpl.
      intros k o (so' & Hso' & Hshown). exists so'. now rewrite Hsame.
    + (* a new id: the entry is kept *)
      destruct (IH (pre ++ [Some so]) ({[ id (normalize (Some so)) ]} ∪ seen))
        as (kept & Hs & Hge & Hk & Hf).
      { intros i. rewrite elem_of_union, elem_of_singleton, Hseen. split.
        - intros [->|(j & so' & Hj & Hrest)].
          + exists (length pre), so. split; [| exact (conj Hu Hid)].
            rewrite lookup_app_r, Nat.sub_diag by lia. reflexivity.
          + exists j, so'. split; [| exact Hrest]. now apply lookup_app_l_Some.
        - intros (j & so' & Hj & Hu' & Hi).
          apply lookup_app_Some in Hj as [Hj|[_ Hj]];
            [right; now exists j, so' |].
          apply list_lookup_singleton_Some in Hj as [_ [= <-]].
          left. congruence. }
      exists (length pre :: kept). split.
      { constructor; [exact Hs |].
        eapply Forall_impl; [exact Hge |]. simpl. intros k. lia. }
      split.
      { constructor; [lia |].
        eapply Forall_impl; [exact Hge |]. simpl. intros k. lia. }
      split.
      { intros k. simpl. rewrite Hk, Hlen, Hfirst. split.
        - intros [<-|[Hle Hf1]]; [| split; [lia | exact Hf1]].
          split; [lia |]. apply Hfirst. exists so.
          split; [exact Hhere |]. split; [exact Hu |].
          intros j so' Hj Hso' Hu' Heq. apply Hout. apply Hseen.
          exists j, so'. split; [| split; [exact Hu' | congruence]].
          rewrite lookup_app_l in Hso' by exact Hj. exact Hso'.
        - intros [Hle Hf1].
          destruct (Nat.eq_dec k (length pre)) as [->|]; [now left |].
          right. split; [lia | exact Hf1]. }
      constructor.
      * exists so. split; [exact Hhere |]. now apply usable_shownAs.
      * eapply Forall2_impl; [exact Hf |]. simpl.
        intros k o (so' & Hso' & Hshown). exists so'. now rewrite Hsame.
  - (* not usable: the entry is dropped *)
    destruct (IH (pre ++ [en]) seen) as (kept & Hs & Hge & Hk & Hf).
    { intros i. rewrite Hseen. split.
      - intros (j & so' & Hj & Hrest). exists j, so'.
        split; [| exact Hrest]. now apply lookup_app_l_Some.
      - intros (j & so' & Hj & Hu' & Hi).
        apply lookup_app_Some in Hj as [Hj|[_ Hj]]; [now exists j, so' |].
        apply list_lookup_singleton_Some in Hj as [_ ->]. exfalso.
        assert (isValid (Some so') = true) as Hv'
          by (apply isValid_usable; now exists so').
        congruence. }
    exists kept. split; [exact Hs |]. split.
    { eapply Forall_impl; [exact Hge |]. simpl. intros k. lia. }
    split.
    { intros k. rewrite Hk, Hlen, Hfirst.
      split; [intros [? ?]; split; [lia | assumption] |].
      intros [Hle Hf1]. split; [| exact Hf1].
      destruct (Nat.eq_dec k (length pre)) as [->|]; [| lia]. exfalso.
      apply (proj2 (Hfirst _)) in Hf1. destruct Hf1 as (so1 & Hso1 & Hu1 & _).
      assert (Some (Some so1) = Some en) as [= <-]
        by (rewrite <- Hso1; exact Hhere).
      assert (isValid (Some so1) = true) as Hv'
        by (apply isValid_usable; now exists so1).
      congruence. }
    eapply Forall2_impl; [exact Hf |]. simpl.
    intros k o (so' & Hso' & Hshown). exists so'. now rewrite Hsame.
Qed.

Lemma storedAs_toEntry (l : list Order) :
  List.map storedAs l = List.map toEntry l.
Proof. reflexivity. Qed.

(** A load over stored orders that are complete and have distinct ids
    writes nothing. *)
Lemma load_clean (e : Env) (w : World) (l : list Order) :
  orders w = Items (List.map toEntry l) ->
  Forall complete l -> List.NoDup (List.map id l) ->
  snd (load e w) = w.
Proof.
  intros Hw Hc Hnd. unfold load.
  destruct (fails e (GetItem KOrders)); [reflexivity |].
  rewrite Hw, (validOrders_toEntry l Hc), (dedupe_clean l Hnd), Nat.eqb_refl.
  reflexivity.
Qed.

(** C5. For every stored orders array that is read, the load-and-repair
    of the history screen keeps exactly the entries at the positions
    [kept]: those that hold an entry with a non-empty id, dateTime and
    pdfUri which no such entry before it shares its id with; the cleaned
    list holds these entries in the order of the array, missing fields with
    their defaults. When two usable entries share an id, the cleaned list
    is written under the key of the orders, every field of every order in
    it, one write and nothing else of the device changed, and a second load
    writes nothing; when that write fails nothing changes and nothing is
    shown. When no two usable entries share an id, nothing is written. In
    both cases the sections hold the cleaned list. *)
Theorem C5_load_and_repair (e : Env) (w : World) (os : list Entry) :
  orders w = Items os -> fails e (GetItem KOrders) = false ->
  exists (kept : list nat) (cleaned : list Order),
    StronglySorted Nat.lt kept
    /\ (forall k : nat, In k kept <-> firstOfItsId os k)
    /\ Forall2
         (fun k o => exists so, os !! k = Some (Some so) /\ shownAs so o)
         kept cleaned
    /\ (repeatedId os -> fails e (SetItem KOrders) = false ->
        snd (load e w)
        = mkWorld (clients w) (Items (List.map storedAs cleaned)) (folder w)
            (files w) (KOrders :: writes w)
        /\ Permutation (shownOrders (fst (load e w))) cleaned
        /\ forall e2 : Env, snd (load e2 (snd (load e w))) = snd (load e w))
    /\ (repeatedId os -> fails e (SetItem KOrders) = true ->
        load e w = ([], w))
    /\ (~ repeatedId os ->
        snd (load e w) = w
        /\ Permutation (shownOrders (fst (load e w))) cleaned).
Proof.
  intros Hw Hf.
  destruct (dedupe_positions os [] ∅) as (kept & Hs & _ & Hk & Hf2).
  { intros i. split; [set_solver |].
    intros (j & so & Hj & _). discriminate Hj. }
  exists kept, (dedupe (validOrders os)).
  split; [exact Hs |].
  split.
  { intros k. rewrite Hk. simpl. split; [tauto |].
    intros H. split; [lia | exact H]. }
  split; [exact Hf2 |].
  rewrite (load_runs e w os Hw Hf). cbv zeta.
  split; [| split].
  - intros Hrep Hset.
    assert (~ List.NoDup (List.map id (validOrders os))) as Hdup
      by (intros Hnd; now apply valid_NoDup in Hnd).
    rewrite (dedupe_shorter _ Hdup), Hset. simpl negb. cbv iota.
    split; [reflexivity |]. split; [apply sections_data |].
    intros e2. apply (load_clean e2 _ (dedupe (validOrders os)));
      [reflexivity | | apply dedupeFrom_NoDup].
    apply Forall_forall. intros o Hin.
    apply (validOrders_complete os).
    apply list_elem_of_In.
    apply (elem_of_sublist (dedupe (validOrders os)));
      [exact Hin | apply dedupeFrom_sublist].
  - intros Hrep Hset.
    assert (~ List.NoDup (List.map id (validOrders os))) as Hdup
      by (intros Hnd; now apply valid_NoDup in Hnd).
    now rewrite (dedupe_shorter _ Hdup), Hset.
  - intros Hno. apply valid_NoDup in Hno.
    rewrite (dedupe_clean _ Hno), Nat.eqb_refl. simpl negb. cbv iota.
    split; [reflexivity | apply sections_data].
Qed.

Lemma C5_load_and_repair_witness :
  exists (kept : list nat) (cleaned : list Order),
    StronglySorted Nat.lt kept
    /\ (forall k : nat,
          In k kept
          <-> firstOfItsId
                [raw_order "X1" "05/03/2025 at 4:00 PM" "doc/x1.pdf" "first";
                 raw_order "X2" "06/03/2025 at 4:00 PM" "" "no file";
                 raw_order "X1" "07/03/2025 at 4:00 PM" "doc/x1b.pdf" "second";
                 None] k)
    /\ Forall2
         (fun k o =>
            exists so,
              [raw_order "X1" "05/03/2025 at 4:00 PM" "doc/x1.pdf" "first";
               raw_order "X2" "06/03/2025 at 4:00 PM" "" "no file";
               raw_order "X1" "07/03/2025 at 4:00 PM" "doc/x1b.pdf" "second";
               None] !! k = Some (Some so) /\ shownAs so o)
         kept cleaned
    /\ snd (load env_quiet world_dirty)
       = mkWorld Absent (Items (List.map storedAs cleaned)) true [] [KOrders]
    /\ Permutation (shownOrders (fst (load env_quiet world_dirty))) cleaned.
Proof.
  destruct (C5_load_and_repair env_quiet world_dirty _ eq_refl eq_refl)
    as (kept & cleaned & Hs & Hk & Hf & Hw & _).
  exists kept, cleaned.
  split; [exact Hs |]. split; [exact Hk |]. split; [exact Hf |].
  destruct Hw as (Hw & Hp & _); [| reflexivity | now split].
  exists 0%nat, 2%nat. do 2 eexists.
  split; [lia |]. split; [reflexivity |]. split; [reflexivity |].
  split; [| split; [| reflexivity]];
    (split; [| split]; eexists; (split; [reflexivity | discriminate])).
Defined.

(** The stored array of the example, loaded: the first entry with the id
    X1 is kept, the second one and the entry without a file are gone from
    the screen and from the store. *)
Example repair_of_world_dirty :
  List.map summary (fst (load env_quiet world_dirty))
  = [("March 2025", ["X1"], 1%nat)]
  /\ orders (snd (load env_quiet world_dirty))
     = Items [Some (mkStored (Some "X1") (Some "first") (Some "") (Some "")
                      (Some "05/03/2025 at 4:00 PM") (Some []) (Some "0")
                      (Some "doc/x1.pdf"))]
  /\ writes (snd (load env_quiet world_dirty)) = [KOrders].
Proof. repeat split; vm_compute; reflexivity. Qed.

End RepairFacts.
